(** * Verification of [05_visualize.py]

    A shallow embedding of the visualisation step of the fire resource
    analysis: the pandas tables the script receives, the row filters and
    re-orderings it applies before every rendering call, the arguments it
    hands to folium / matplotlib / scipy, and the effects it has on the
    console, on the [outputs/] directory and on the tables it shares between
    calls.

    Conventions of the embedding.
    - A float cell of a table is an exact rational ([Q]); a missing value
      (NaN or None) is [NA].  Comparisons of floats are exact, so the filters
      are modelled without loss.
    - A rendering call of a plotting library is modelled by the data it is
      given: the artifact stored under the output file name records the
      arguments of the call.  The inputs that such a call rejects are
      modelled with the exception it raises.  Polygons are not modelled; a
      table with a row has a centre.
    - What a library leaves open or changes between its releases (the order
      that a sort gives to equal keys, the answer of the regression where
      least squares is undefined) is a parameter of the development.
    - A Python exception is a value of [exn]; a raised exception stops the
      run and leaves the world as it was at that point. *)

From Stdlib Require Import QArith Qround Qabs Reals Qreals Lqa Lra Lia.
From Stdlib Require Import Ascii String DecimalString Sorted Permutation.
From stdpp Require Import gmap strings list.

Local Open Scope string_scope.
Local Open Scope list_scope.

(** ** Cells, series and Python exceptions *)

Inductive cell :=
| NA                                (* NaN or None *)
| Num (q : Q)                       (* a number *)
| Str (s : string)                  (* a string *)
| Cat (code : nat) (label : string) (* a value of an ordered categorical *).

Inductive exn :=
| KeyError (key : string)
| TypeError (msg : string)
| ValueError (msg : string)
| IndexError
| ZeroDivisionError.

Definition Series := list cell.

Definition num (o : option Q) : cell :=
  match o with Some q => Num q | None => NA end.

Definition str (o : option string) : cell :=
  match o with Some s => Str s | None => NA end.

Definition Qltb (a b : Q) : bool := negb (Qle_bool b a).

(** [Series.notna()] *)
Definition notna (s : Series) : list bool :=
  map (fun c => match c with NA => false | _ => true end) s.

(** [series > k] for a number [k]: a missing value compares false, a string
    cannot be compared with a number. *)
Definition cell_gt (k : Q) (c : cell) : exn + bool :=
  match c with
  | NA => inr false
  | Num q => inr (Qltb k q)
  | Str _ | Cat _ _ =>
      inl (TypeError "'>' not supported between instances of 'str' and 'int'")
  end.

Fixpoint series_gt (s : Series) (k : Q) : exn + list bool :=
  match s with
  | [] => inr []
  | c :: s' =>
      match cell_gt k c with
      | inl e => inl e
      | inr b =>
          match series_gt s' k with
          | inl e => inl e
          | inr bs => inr (b :: bs)
          end
      end
  end.

(** [series != label] for a string [label]: a missing value is different
    from every label. *)
Definition cell_ne (label : string) (c : cell) : bool :=
  match c with
  | Str s | Cat _ s => negb (String.eqb s label)
  | _ => true
  end.

Definition series_ne (s : Series) (label : string) : list bool :=
  map (cell_ne label) s.

(** [series == label] *)
Definition cell_eq (label : string) (c : cell) : bool :=
  match c with
  | Str s | Cat _ s => String.eqb s label
  | _ => false
  end.

Definition series_eq (s : Series) (label : string) : list bool :=
  map (cell_eq label) s.

(** [mask1 & mask2] on two masks of the same table *)
Fixpoint mask_and (m1 m2 : list bool) : list bool :=
  match m1, m2 with
  | b1 :: m1', b2 :: m2' => (b1 && b2) :: mask_and m1' m2'
  | _, _ => []
  end.

(** [table[mask]] *)
Fixpoint boolean_index {A : Type} (rows : list A) (mask : list bool) : list A :=
  match rows, mask with
  | r :: rows', b :: mask' =>
      if b then r :: boolean_index rows' mask' else boolean_index rows' mask'
  | _, _ => []
  end.

(** ** The ResponseArea table *)

Record ResponseArea := {
  response_area_id : string;
  population : option Q;
  incidents_per_1000_pop : option Q;
  pct_single_family : option Q;
  urban_class : option string;
  total_incidents : option Q
}.

Definition GeoDataFrame := list ResponseArea.

(** The properties of a row, by column name; [None] when the table has no
    such column. *)
Definition property (column : string) (r : ResponseArea) : option cell :=
  if String.eqb column "response_area_id" then Some (Str (response_area_id r))
  else if String.eqb column "population" then Some (num (population r))
  else if String.eqb column "incidents_per_1000_pop" then Some (num (incidents_per_1000_pop r))
  else if String.eqb column "pct_single_family" then Some (num (pct_single_family r))
  else if String.eqb column "urban_class" then Some (str (urban_class r))
  else if String.eqb column "total_incidents" then Some (num (total_incidents r))
  else None.

(** [gdf[column]] *)
Fixpoint gdf_getitem (gdf : GeoDataFrame) (column : string) : exn + Series :=
  match gdf with
  | [] =>
      match property column (Build_ResponseArea "" None None None None None) with
      | Some _ => inr []
      | None => inl (KeyError column)
      end
  | r :: gdf' =>
      match property column r with
      | None => inl (KeyError column)
      | Some c =>
          match gdf_getitem gdf' column with
          | inl e => inl e
          | inr s => inr (c :: s)
          end
      end
  end.

(** ** Tables with named columns (pandas DataFrame) *)

(** Every row of [values] is aligned with [columns]. *)
Record DataFrame := {
  columns : list string;
  values : list (list cell)
}.

Fixpoint index_of (c : string) (l : list string) : option nat :=
  match l with
  | [] => None
  | c' :: l' => if String.eqb c' c then Some 0%nat else S <$> index_of c l'
  end.

(** [c in df.columns] *)
Definition has_column (df : DataFrame) (c : string) : bool :=
  match index_of c (columns df) with Some _ => true | None => false end.

(** [df[c]] *)
Definition df_getitem (df : DataFrame) (c : string) : exn + Series :=
  match index_of c (columns df) with
  | None => inl (KeyError c)
  | Some i => inr (map (fun row => nth i row NA) (values df))
  end.

Fixpoint set_nth (i : nat) (x : cell) (row : list cell) : list cell :=
  match i, row with
  | O, _ :: row' => x :: row'
  | S i', y :: row' => y :: set_nth i' x row'
  | _, [] => []
  end.

Fixpoint zip_rows (f : list cell -> cell -> list cell)
    (rows : list (list cell)) (s : Series) : list (list cell) :=
  match rows, s with
  | row :: rows', x :: s' => f row x :: zip_rows f rows' s'
  | _, _ => []
  end.

(** [df[c] = s]: replaces the column in place, or appends a new one. *)
Definition df_setitem (df : DataFrame) (c : string) (s : Series) : exn + DataFrame :=
  if negb (length s =? length (values df))%nat then
    inl (ValueError "Length of values does not match length of index")
  else
    match index_of c (columns df) with
    | Some i =>
        inr {| columns := columns df;
               values := zip_rows (fun row x => set_nth i x row) (values df) s |}
    | None =>
        inr {| columns := columns df ++ [c];
               values := zip_rows (fun row x => row ++ [x]) (values df) s |}
    end.

(** [pd.Categorical(values, categories=..., ordered=True)]: a value that is
    not one of the categories becomes missing. *)
Definition categorize (categories : list string) (c : cell) : cell :=
  match c with
  | Str s | Cat _ s =>
      match index_of s categories with
      | Some i => Cat i s
      | None => NA
      end
  | _ => NA
  end.

Definition Categorical (s : Series) (categories : list string) : Series :=
  map (categorize categories) s.

(** Order of the codes of an ordered categorical, missing values last. *)
Definition code_le (a b : cell) : bool :=
  match a, b with
  | Cat i _, Cat j _ => (i <=? j)%nat
  | Cat _ _, _ => true
  | _, Cat _ _ => false
  | _, _ => true
  end.

(** The order in which [sort_values] compares two rows of a table whose
    column [i] is categorical. *)
Definition row_le (i : nat) (r1 r2 : list cell) : bool :=
  code_le (nth i r1 NA) (nth i r2 NA).

Section Sort.

Context {A : Type} (le : A -> A -> bool).

Fixpoint insert_sorted (x : A) (l : list A) : list A :=
  match l with
  | [] => [x]
  | y :: l' => if le x y then x :: y :: l' else y :: insert_sorted x l'
  end.

(** Rows with equal keys keep their input order. *)
Definition stable_sort (l : list A) : list A :=
  fold_right insert_sorted [] l.

End Sort.

(** [df[[c1; ...; cn]]] *)
Fixpoint select_columns (df : DataFrame) (cs : list string) : exn + DataFrame :=
  match cs with
  | [] => inr {| columns := []; values := map (fun _ => []) (values df) |}
  | c :: cs' =>
      match df_getitem df c with
      | inl e => inl e
      | inr s =>
          match select_columns df cs' with
          | inl e => inl e
          | inr df' =>
              inr {| columns := c :: columns df';
                     values := zip_rows (fun row x => x :: row) (values df') s |}
          end
      end
  end.

(** ** Python string helpers *)

Definition nl : string := String (ascii_of_nat 10) "".

Fixpoint repeat_string (s : string) (n : nat) : string :=
  match n with
  | O => ""
  | S n' => s +:+ repeat_string s n'
  end.

Definition is_lower (a : ascii) : bool :=
  (97 <=? nat_of_ascii a)%nat && (nat_of_ascii a <=? 122)%nat.

Definition is_upper (a : ascii) : bool :=
  (65 <=? nat_of_ascii a)%nat && (nat_of_ascii a <=? 90)%nat.

Definition to_upper (a : ascii) : ascii :=
  if is_lower a then ascii_of_nat (nat_of_ascii a - 32) else a.

Definition to_lower (a : ascii) : ascii :=
  if is_upper a then ascii_of_nat (nat_of_ascii a + 32) else a.

(** [s.replace(old, new)] for single characters *)
Fixpoint replace_char (old new : ascii) (s : string) : string :=
  match s with
  | EmptyString => EmptyString
  | String a s' =>
      String (if Ascii.eqb a old then new else a) (replace_char old new s')
  end.

Fixpoint title_from (after_letter : bool) (s : string) : string :=
  match s with
  | EmptyString => EmptyString
  | String a s' =>
      String (if after_letter then to_lower a else to_upper a)
             (title_from (is_lower a || is_upper a) s')
  end.

(** [s.title()] *)
Definition title (s : string) : string := title_from false s.

(** *** Fixed-point formatting of numbers: [f'{x:,.df}'] *)

(** Rounding to the nearest integer, ties to even. *)
Definition round_half_even (q : Q) : Z :=
  let f := Qfloor q in
  match Qcompare (q - inject_Z f) (1 # 2) with
  | Lt => f
  | Gt => (f + 1)%Z
  | Eq => if Z.even f then f else (f + 1)%Z
  end.

Definition digits (n : Z) : string :=
  NilZero.string_of_uint (N.to_uint (Z.to_N n)).

Fixpoint rev_string (s acc : string) : string :=
  match s with
  | EmptyString => acc
  | String a s' => rev_string s' (String a acc)
  end.

(** Groups of three digits, counted from the right end. *)
Fixpoint group3 (rev_digits : string) (k : nat) : string :=
  match rev_digits with
  | EmptyString => EmptyString
  | String a s' =>
      match k with
      | O => String "," (String a (group3 s' 2))
      | S k' => String a (group3 s' k')
      end
  end.

Definition thousands (s : string) : string :=
  rev_string (group3 (rev_string s "") 3) "".

Definition pad_zeros (width : nat) (s : string) : string :=
  repeat_string "0" (width - String.length s) +:+ s.

Definition format_Q (comma : bool) (decimals : nat) (q : Q) : string :=
  let scale := (10 ^ Z.of_nat decimals)%Z in
  let n := round_half_even (Qabs q * inject_Z scale) in
  let int_part := digits (n / scale) in
  (if Qltb q 0 then "-" else "")
  +:+ (if comma then thousands int_part else int_part)
  +:+ (match decimals with
      | O => ""
      | _ => "." +:+ pad_zeros decimals (digits (n mod scale))
      end).

(** A missing number prints as [nan]; a string has no format code [f]. *)
Definition format_f (comma : bool) (decimals : nat) (c : cell) : exn + string :=
  match c with
  | NA => inr "nan"
  | Num q => inr (format_Q comma decimals q)
  | Str _ | Cat _ _ =>
      inl (ValueError "Unknown format code 'f' for object of type 'str'")
  end.

(** Results of fallible pure computations *)
Fixpoint mapE {A B : Type} (f : A -> exn + B) (l : list A) : exn + list B :=
  match l with
  | [] => inr []
  | a :: l' =>
      match f a with
      | inl e => inl e
      | inr b =>
          match mapE f l' with
          | inl e => inl e
          | inr bs => inr (b :: bs)
          end
      end
  end.

(** [d.get(key, default)] for a dict with string keys *)
Fixpoint dict_get {V : Type} (d : list (string * V)) (key : string) (default : V) : V :=
  match d with
  | [] => default
  | (k, v) :: d' => if String.eqb k key then v else dict_get d' key default
  end.

(** [d[key]] *)
Fixpoint dict_getitem {V : Type} (d : list (string * V)) (key : string) : exn + V :=
  match d with
  | [] => inl (KeyError key)
  | (k, v) :: d' => if String.eqb k key then inr v else dict_getitem d' key
  end.

(** ** Rendered artifacts *)

Record Style := {
  fillColor : string;
  color : string;
  weight : Q;
  fillOpacity : Q
}.

Record Bubble := {
  bubble_x : cell;
  bubble_y : cell;
  bubble_size : cell
}.

Record ScatterGroup := {
  group_color : string;
  group_label : string;
  group_bubbles : list Bubble
}.

(** The result of [scipy.stats.linregress]; [None] stands for a NaN
    estimate.  The p-value and the standard error are not modelled. *)
Record LinregressResult := {
  slope : option Q;
  intercept : option Q;
  rvalue : option R
}.

Inductive Artifact :=
| ChoroplethMap (legend_name fill_color key_column : string)
    (choropleth_layer tooltip_layer : list ResponseArea)
| CategoricalMap (layer : list (ResponseArea * Style))
| BarChart (x_labels : list cell)
    (rate_bars : Series) (rate_text : list string)
    (housing_bars : Series) (housing_text : list string)
    (bar_colors : list string)
| ScatterPlot (groups : list ScatterGroup) (y_line : option Q * option Q)
    (fit : LinregressResult)
| TableImage (colLabels : list string) (cellText : list (list cell)).

(** ** The world of the script and its monad *)

(** A table that is shared between calls lives in [frames] under a
    reference; [outputs] is the content of the [outputs/] directory. *)
Record World := {
  frames : gmap nat DataFrame;
  outputs : gmap string Artifact;
  console : list string
}.

Definition M (A : Type) : Type := World -> World * (exn + A).

Definition ret {A} (a : A) : M A := fun w => (w, inr a).

Definition bind {A B} (m : M A) (k : A -> M B) : M B :=
  fun w =>
    match m w with
    | (w', inl e) => (w', inl e)
    | (w', inr a) => k a w'
    end.

#[export] Instance M_ret : MRet M := @ret.
#[export] Instance M_bind : MBind M := fun A B k m => bind m k.

Definition raise {A} (e : exn) : M A := fun w => (w, inl e).

Definition lift {A} (r : exn + A) : M A := fun w => (w, r).

Definition print (line : string) : M unit :=
  fun w =>
    ({| frames := frames w; outputs := outputs w;
        console := console w ++ [line] |}, inr tt).

(** [m.save] / [plt.savefig]: the file is created or overwritten. *)
Definition save (filename : string) (a : Artifact) : M unit :=
  fun w =>
    ({| frames := frames w; outputs := <[filename := a]> (outputs w);
        console := console w |}, inr tt).

Definition read_frame (ref : nat) : M DataFrame :=
  fun w =>
    match frames w !! ref with
    | Some df => (w, inr df)
    | None => (w, inl (KeyError "dangling reference"))
    end.

Definition write_frame (ref : nat) (df : DataFrame) : M unit :=
  fun w =>
    ({| frames := <[ref := df]> (frames w); outputs := outputs w;
        console := console w |}, inr tt).


(** ** Means and covariances *)

(** The numbers of a float column ([np.asarray]). *)
Definition to_numpy (s : Series) : list Q :=
  flat_map (fun c => match c with Num q => [q] | _ => [] end) s.

Definition Qsum (l : list Q) : Q := fold_right Qplus 0%Q l.

Definition count (l : list Q) : Q := inject_Z (Z.of_nat (length l)).

(** The mean of an array. *)
Definition mean (l : list Q) : Q := (Qsum l / count l)%Q.

Fixpoint products (x y : list Q) : list Q :=
  match x, y with
  | a :: x', b :: y' => (a * b)%Q :: products x' y'
  | _, _ => []
  end.

Definition deviations (l : list Q) : list Q :=
  map (fun a => (a - mean l)%Q) l.

(** The covariance of two arrays: the mean of the products of the
    deviations from the means. *)
Definition cov (x y : list Q) : Q :=
  mean (products (deviations x) (deviations y)).

(** Modelled from the spec: [scipy.stats.linregress] is not part of the
    repository; the spec describes it as an ordinary least-squares linear fit
    that gives slope, intercept and correlation coefficient.  These are the
    estimates of least squares from the means and the (co)variances of the
    two arrays. *)
Definition ols (x y : list Q) : LinregressResult :=
  let ssxm := cov x x in
  let ssxym := cov x y in
  let ssym := cov y y in
  {| slope := Some (ssxym / ssxm)%Q;
     intercept := Some (mean y - ssxym / ssxm * mean x)%Q;
     rvalue := Some (Q2R ssxym / sqrt (Q2R ssxm * Q2R ssym))%R |}.

(** The arrays for which these estimates are not defined: no point at all,
    arrays of different lengths, all x equal or all y equal. *)
Definition undefined_fit (x y : list Q) : bool :=
  (length x =? 0)%nat
  || negb (length x =? length y)%nat
  || Qeq_bool (cov x x) 0
  || Qeq_bool (cov y y) 0.

(** ** Calls into the plotting libraries that can fail *)

(** [folium.Map(location=[center_lat, center_lon], ...)], the centre being
    the mean of the centroids of the rows: a table without rows has no
    centre (NaN), and folium refuses such a location. *)
Definition folium_Map (gdf : GeoDataFrame) : exn + unit :=
  match gdf with
  | [] => inl (ValueError "Location values cannot contain NaNs.")
  | _ :: _ => inr tt
  end.

Definition is_text (c : cell) : bool :=
  match c with
  | Str _ => true
  | _ => false
  end.

(** [ax.bar(x_labels, heights, ...)]: as soon as one label is a string the
    x axis is a category axis, and a category axis accepts strings only; a
    missing label (NaN) among strings is refused. *)
Definition ax_bar (x_labels : list cell) : exn + unit :=
  if existsb is_text x_labels && negb (forallb is_text x_labels) then
    inl (TypeError "'value' must be an instance of str or bytes, not a float")
  else inr tt.

(** [ax.table(cellText=..., colLabels=..., ...)]: the number of columns is
    read off the first row of cells, which a table without rows does not
    have, and the default column width is one over that number. *)
Definition ax_table (colLabels : list string) (cellText : list (list cell))
    : exn + unit :=
  match cellText with
  | [] => inl IndexError
  | row :: _ => if (length row =? 0)%nat then inl ZeroDivisionError else inr tt
  end.

(** ** What the libraries leave open *)

Record Libraries := {
  (** the sort behind [DataFrame.sort_values] (numpy's quicksort): the
      order it gives to rows with equal keys is not fixed *)
  sort_rows : (list cell -> list cell -> bool) -> list (list cell) -> list (list cell);
  (** the answer of [scipy.stats.linregress] on arrays for which least
      squares is not defined: an exception in some releases, NaN or zero
      estimates in others *)
  linregress_undefined : list Q -> list Q -> exn + LinregressResult
}.

(** What every sort does: it permutes its input and leaves it in order. *)
Definition sorting (lib : Libraries) : Prop :=
  forall (le : list cell -> list cell -> bool) (l : list (list cell)),
    (forall a b, le a b = true \/ le b a = true) ->
    (forall a b c, le a b = true -> le b c = true -> le a c = true) ->
    Permutation (sort_rows lib le l) l /\
    StronglySorted (fun a b => le a b = true) (sort_rows lib le l).

(** Two libraries for the examples.  In both, rows with equal keys keep
    their input order.  The regression of the first rejects empty arrays and
    answers NaN estimates for the other arrays without a fit; the regression
    of the second answers NaN estimates for all of them. *)
Definition raising_linregress (x y : list Q) : exn + LinregressResult :=
  if (length x =? 0)%nat || (length y =? 0)%nat then
    inl (ValueError "Inputs must not be empty.")
  else inr {| slope := None; intercept := None; rvalue := None |}.

Definition nan_linregress (x y : list Q) : exn + LinregressResult :=
  inr {| slope := None; intercept := None; rvalue := None |}.

Definition raising_release : Libraries :=
  {| sort_rows := @stable_sort (list cell);
     linregress_undefined := raising_linregress |}.

Definition nan_release : Libraries :=
  {| sort_rows := @stable_sort (list cell);
     linregress_undefined := nan_linregress |}.

Section Libraries.

Variable lib : Libraries.

(** [df.sort_values(c)] on a column [c] of ordered categorical type: a new
    table, the receiver is unchanged. *)
Definition sort_values (df : DataFrame) (c : string) : exn + DataFrame :=
  match index_of c (columns df) with
  | None => inl (KeyError c)
  | Some i =>
      inr {| columns := columns df;
             values := sort_rows lib (row_le i) (values df) |}
  end.

(** [scipy.stats.linregress(x, y)] *)
Definition linregress (x y : list Q) : exn + LinregressResult :=
  if undefined_fit x y then linregress_undefined lib x y else inr (ols x y).

(** ** The renderers *)

Definition order : list string :=
  ["urban_core"; "inner_suburban"; "outer_suburban"].

Definition default_colors : list (string * string) :=
  [("urban_core", "#d62728");
   ("inner_suburban", "#ff7f0e");
   ("outer_suburban", "#2ca02c");
   ("unknown", "#7f7f7f")].

(** [colors.get(category, '#7f7f7f')]: only a string can be a key. *)
Definition color_of (colors : list (string * string)) (category : cell) : string :=
  match category with
  | Str s | Cat _ s => dict_get colors s "#7f7f7f"
  | _ => "#7f7f7f"
  end.

Definition style_function (colors : list (string * string)) (column : string)
    (feature : ResponseArea) : Style :=
  let category :=
    match property column feature with
    | Some c => c
    | None => Str "unknown"
    end in
  {| fillColor := color_of colors category;
     color := "#000000";
     weight := 1 # 2;
     fillOpacity := 7 # 10 |}.

Definition bar_labels : list (string * string) :=
  [("urban_core", "Urban Core" +:+ nl +:+ "(>10k/sq mi)");
   ("inner_suburban", "Inner Suburban" +:+ nl +:+ "(3-10k/sq mi)");
   ("outer_suburban", "Outer Suburban" +:+ nl +:+ "(<3k/sq mi)")].

(** [labels.get(c, c)] *)
Definition x_label (c : cell) : cell :=
  match c with
  | Str s | Cat _ s => Str (dict_get bar_labels s s)
  | _ => c
  end.

Definition scatter_colors : list (string * string) :=
  [("urban_core", "#d62728");
   ("inner_suburban", "#ff7f0e");
   ("outer_suburban", "#2ca02c")].

Definition display_cols : list (string * string) :=
  [("urban_class", "Classification");
   ("population", "Population");
   ("total_incidents", "Total Incidents");
   ("incidents_per_1000_pop", "Rate per 1,000 Pop");
   ("pct_single_family", "% Single-Family")].

(** [series / k] *)
Definition series_div (s : Series) (k : Q) : Series :=
  map (fun c => match c with Num q => Num (q / k) | _ => NA end) s.

Fixpoint bubbles (xs ys sizes : Series) : list Bubble :=
  match xs, ys, sizes with
  | x :: xs', y :: ys', z :: sizes' =>
      {| bubble_x := x; bubble_y := y; bubble_size := z |} :: bubbles xs' ys' sizes'
  | _, _, _ => []
  end.

(** [df[c] = df[c].apply(f)] when [c] is a column of [df] *)
Definition apply_if_present (df : DataFrame) (c : string)
    (f : cell -> exn + string) : exn + DataFrame :=
  if has_column df c then
    match df_getitem df c with
    | inl e => inl e
    | inr s =>
        match mapE f s with
        | inl e => inl e
        | inr texts => df_setitem df c (map Str texts)
        end
    end
  else inr df.

Definition percent (r : exn + string) : exn + string :=
  match r with
  | inl e => inl e
  | inr s => inr (s +:+ "%")
  end.

(** The closing text of [main]. *)
Definition next_steps : string :=
  nl +:+ "1. Review the visualizations:" +:+ nl
  +:+ "   - Open outputs/map_incidents_per_capita.html in a browser" +:+ nl
  +:+ "   - Open outputs/map_urban_classification.html in a browser" +:+ nl
  +:+ "   - Review the PNG charts" +:+ nl
  +:+ nl
  +:+ "2. Prepare the findings brief:" +:+ nl
  +:+ "   - Key finding: Do suburban areas have higher per-capita incident rates?" +:+ nl
  +:+ "   - Statistical significance: Check outputs/statistical_tests.txt" +:+ nl
  +:+ "   - Housing correlation: Does % single-family predict incident rates?" +:+ nl
  +:+ nl
  +:+ "3. Share with Tim for review" +:+ nl.

Section Script.

(** Whether [import folium] succeeded. *)
Variable HAS_FOLIUM : bool.

Definition import_folium : M unit :=
  if HAS_FOLIUM then mret tt
  else print "Note: Install folium for interactive maps: pip install folium".

Definition create_choropleth_map (gdf : GeoDataFrame)
    (column title filename colormap : string) : M unit :=
  if negb HAS_FOLIUM then
    print ("  Skipping " +:+ filename +:+ " (folium not installed)")
  else
    print ("  Creating: " +:+ filename);;
    lift (folium_Map gdf);;
    present ← lift (gdf_getitem gdf column);
    metric ← lift (gdf_getitem gdf column);
    positive ← lift (series_gt metric 0);
    let valid_gdf := boolean_index gdf (mask_and (notna present) positive) in
    if (length valid_gdf =? 0)%nat then
      print ("    Warning: No valid data for " +:+ column)
    else
      save filename
        (ChoroplethMap title colormap column valid_gdf valid_gdf);;
      print ("    ✓ Saved: outputs/" +:+ filename).

Definition create_categorical_map (gdf : GeoDataFrame)
    (column title filename : string)
    (colors : option (list (string * string))) : M unit :=
  if negb HAS_FOLIUM then
    print ("  Skipping " +:+ filename +:+ " (folium not installed)")
  else
    print ("  Creating: " +:+ filename);;
    lift (folium_Map gdf);;
    let colors :=
      match colors with
      | None => default_colors
      | Some colors => colors
      end in
    save filename
      (CategoricalMap (map (fun r => (r, style_function colors column r)) gdf));;
    print ("    ✓ Saved: outputs/" +:+ filename).

(** [summary_df] is a reference to the caller's table. *)
Definition create_bar_chart (summary_df : nat) (filename : string) : M unit :=
  print ("  Creating: " +:+ filename);;
  df ← read_frame summary_df;
  classes ← lift (df_getitem df "urban_class");
  df ← lift (df_setitem df "urban_class" (Categorical classes order));
  write_frame summary_df df;;
  (* from here on [summary_df] names a new, sorted table *)
  sorted ← lift (sort_values df "urban_class");
  classes ← lift (df_getitem sorted "urban_class");
  let x_labels := map x_label classes in
  let colors := ["#d62728"; "#ff7f0e"; "#2ca02c"] in
  rate ← lift (df_getitem sorted "incidents_per_1000_pop");
  lift (ax_bar x_labels);;
  rate' ← lift (df_getitem sorted "incidents_per_1000_pop");
  rate_text ← lift (mapE (format_f false 2) rate');
  housing ← lift (df_getitem sorted "pct_single_family");
  lift (ax_bar x_labels);;
  housing' ← lift (df_getitem sorted "pct_single_family");
  housing_text ← lift (mapE (fun c => percent (format_f false 0 c)) housing');
  save filename
    (BarChart x_labels rate rate_text housing housing_text colors);;
  print ("    ✓ Saved: outputs/" +:+ filename).

(** The rows that [create_scatter_plot] keeps. *)
Definition scatter_valid (gdf : GeoDataFrame) : exn + GeoDataFrame :=
  match gdf_getitem gdf "population" with
  | inl e => inl e
  | inr pop =>
      match series_gt pop 100 with
      | inl e => inl e
      | inr m1 =>
          match gdf_getitem gdf "pct_single_family" with
          | inl e => inl e
          | inr pct =>
              match gdf_getitem gdf "incidents_per_1000_pop" with
              | inl e => inl e
              | inr rate =>
                  match gdf_getitem gdf "urban_class" with
                  | inl e => inl e
                  | inr classes =>
                      inr (boolean_index gdf
                             (mask_and
                                (mask_and (mask_and m1 (notna pct)) (notna rate))
                                (series_ne classes "unknown")))
                  end
              end
          end
      end
  end.

(** One pass of the loop over the colours: the bubbles of one class. *)
Definition scatter_group (valid : GeoDataFrame) (entry : string * string)
    : exn + ScatterGroup :=
  let (class, colour) := entry in
  match gdf_getitem valid "urban_class" with
  | inl e => inl e
  | inr classes =>
      let subset := boolean_index valid (series_eq classes class) in
      match gdf_getitem subset "pct_single_family" with
      | inl e => inl e
      | inr xs =>
          match gdf_getitem subset "incidents_per_1000_pop" with
          | inl e => inl e
          | inr ys =>
              match gdf_getitem subset "population" with
              | inl e => inl e
              | inr pop =>
                  inr {| group_color := colour;
                         group_label := title (replace_char "_" " " class);
                         group_bubbles := bubbles xs ys (series_div pop 100) |}
              end
          end
      end
  end.

(** The regression of [create_scatter_plot]. *)
Definition scatter_fit (valid : GeoDataFrame) : exn + LinregressResult :=
  match gdf_getitem valid "pct_single_family" with
  | inl e => inl e
  | inr xs =>
      match gdf_getitem valid "incidents_per_1000_pop" with
      | inl e => inl e
      | inr ys => linregress (to_numpy xs) (to_numpy ys)
      end
  end.

Definition create_scatter_plot (gdf : GeoDataFrame) (filename : string) : M unit :=
  print ("  Creating: " +:+ filename);;
  valid ← lift (scatter_valid gdf);
  groups ← lift (mapE (scatter_group valid) scatter_colors);
  fit ← lift (scatter_fit valid);
  let y_line :=
    (intercept fit,
     match intercept fit, slope fit with
     | Some a, Some b => Some (a + b * 100)%Q
     | _, _ => None
     end) in
  save filename (ScatterPlot groups y_line fit);;
  print ("    ✓ Saved: outputs/" +:+ filename).

(** The table that is handed to [ax.table]. *)
Definition summary_table (df : DataFrame) : exn + DataFrame :=
  let present := List.filter (has_column df) (map fst display_cols) in
  match select_columns df present with
  | inl e => inl e
  | inr table_df =>
      match mapE (dict_getitem display_cols) (columns table_df) with
      | inl e => inl e
      | inr names =>
          let table_df := {| columns := names; values := values table_df |} in
          match apply_if_present table_df "Population" (format_f true 0) with
          | inl e => inl e
          | inr table_df =>
              match apply_if_present table_df "Total Incidents" (format_f true 0) with
              | inl e => inl e
              | inr table_df =>
                  match apply_if_present table_df "Rate per 1,000 Pop"
                          (format_f false 2) with
                  | inl e => inl e
                  | inr table_df =>
                      apply_if_present table_df "% Single-Family"
                        (fun c => percent (format_f false 1 c))
                  end
              end
          end
      end
  end.

Definition create_summary_table_image (summary_df : nat) (filename : string)
    : M unit :=
  print ("  Creating: " +:+ filename);;
  df ← read_frame summary_df;
  table_df ← lift (summary_table df);
  lift (ax_table (columns table_df) (values table_df));;
  save filename (TableImage (columns table_df) (values table_df));;
  print ("    ✓ Saved: outputs/" +:+ filename).

(** [load_data]: the three parsed files are given; the two summary tables
    become shared objects. *)
Definition load_data (ra : GeoDataFrame) (summary_urban summary_housing : DataFrame)
    : M (GeoDataFrame * nat * nat) :=
  print (nl +:+ "Loading data...");;
  print ("  Response areas: " +:+ digits (Z.of_nat (length ra)));;
  write_frame 0 summary_urban;;
  write_frame 1 summary_housing;;
  mret (ra, 0%nat, 1%nat).

Fixpoint print_all (lines : list string) : M unit :=
  match lines with
  | [] => mret tt
  | l :: lines' => print l;; print_all lines'
  end.

(** [os.listdir("outputs")], sorted *)
Definition list_outputs : M (list string) :=
  fun w => (w, inr (stable_sort String.leb (map_to_list (outputs w)).*1)).

Definition main (ra_file : GeoDataFrame)
    (summary_urban_file summary_housing_file : DataFrame) : M unit :=
  print (nl +:+ repeat_string "#" 60);;
  print "# FIRE RESOURCE ANALYSIS - VISUALIZATION";;
  print (repeat_string "#" 60);;
  '(ra, summary_urban, summary_housing) ←
     load_data ra_file summary_urban_file summary_housing_file;
  print (nl +:+ "Creating maps...");;
  (if HAS_FOLIUM then
     create_choropleth_map ra "incidents_per_1000_pop"
       "Fire Incidents per 1,000 Population"
       "map_incidents_per_capita.html" "YlOrRd";;
     create_categorical_map ra "urban_class" "Urban Classification"
       "map_urban_classification.html" None;;
     create_choropleth_map ra "pct_single_family" "% Single-Family Housing"
       "map_housing_typology.html" "RdYlGn_r"
   else
     print "  Skipping interactive maps (install folium: pip install folium)");;
  print (nl +:+ "Creating charts...");;
  create_bar_chart summary_urban "chart_urban_comparison.png";;
  create_scatter_plot ra "chart_housing_correlation.png";;
  create_summary_table_image summary_urban "table_summary.png";;
  print (nl +:+ repeat_string "=" 60);;
  print "OUTPUTS CREATED";;
  print (repeat_string "=" 60);;
  files ← list_outputs;
  print_all (map (fun f => "  - outputs/" +:+ f) files);;
  print (nl +:+ repeat_string "=" 60);;
  print "NEXT STEPS";;
  print (repeat_string "=" 60);;
  print next_steps.

(** Running the file as a script. *)
Definition script (ra : GeoDataFrame) (summary_urban summary_housing : DataFrame)
    : M unit :=
  import_folium;;
  main ra summary_urban summary_housing.

End Script.

End Libraries.

Definition empty_world : World :=
  {| frames := ∅; outputs := ∅; console := [] |}.


(** ** Vocabulary of the statements *)

(** The value of a numeric column in a row. *)
Definition metric (column : string) (r : ResponseArea) : option Q :=
  match property column r with
  | Some (Num q) => Some q
  | _ => None
  end.

Definition metric_columns : list string :=
  ["population"; "incidents_per_1000_pop"; "pct_single_family"; "total_incidents"].

Definition exceeds (k : Q) (o : option Q) : bool :=
  match o with
  | Some q => Qltb k q
  | None => false
  end.

Definition present {A} (o : option A) : bool :=
  match o with
  | Some _ => true
  | None => false
  end.

(** The rows that [create_choropleth_map] keeps. *)
Definition choropleth_valid (column : string) (gdf : GeoDataFrame) : GeoDataFrame :=
  List.filter (fun r => present (metric column r) && exceeds 0 (metric column r)) gdf.

(** The test that [create_scatter_plot] applies to a row. *)
Definition scatter_keep (r : ResponseArea) : bool :=
  exceeds 100 (population r)
  && present (pct_single_family r)
  && present (incidents_per_1000_pop r)
  && cell_ne "unknown" (str (urban_class r)).

Definition bubble_of (r : ResponseArea) : Bubble :=
  {| bubble_x := num (pct_single_family r);
     bubble_y := num (incidents_per_1000_pop r);
     bubble_size := match population r with
                    | Some p => Num (p / 100)
                    | None => NA
                    end |}.

(** The rows of one class. *)
Definition of_class (class : string) (r : ResponseArea) : bool :=
  cell_eq class (str (urban_class r)).

Definition class_group (valid : GeoDataFrame) (entry : string * string) : ScatterGroup :=
  {| group_color := snd entry;
     group_label := title (replace_char "_" " " (fst entry));
     group_bubbles := map bubble_of (List.filter (of_class (fst entry)) valid) |}.

(** The two arrays of the regression. *)
Definition fit_x (valid : GeoDataFrame) : list Q :=
  to_numpy (map (fun r => num (pct_single_family r)) valid).

Definition fit_y (valid : GeoDataFrame) : list Q :=
  to_numpy (map (fun r => num (incidents_per_1000_pop r)) valid).

(** The end points of the trend line over x = [0, 100]. *)
Definition y_line_of (fit : LinregressResult) : option Q * option Q :=
  (intercept fit,
   match intercept fit, slope fit with
   | Some a, Some b => Some (a + b * 100)%Q
   | _, _ => None
   end).

(** The classes that have a colour in the scatter plot. *)
Definition coloured (r : ResponseArea) : Prop :=
  urban_class r = Some "urban_core"
  \/ urban_class r = Some "inner_suburban"
  \/ urban_class r = Some "outer_suburban".

Definition ra_sample (id : string) (pop rate pct : option Q) (class : option string)
    : ResponseArea :=
  {| response_area_id := id; population := pop; incidents_per_1000_pop := rate;
     pct_single_family := pct; urban_class := class; total_incidents := None |}.

(** Two response areas, the second without a class. *)
Definition area_A : ResponseArea :=
  ra_sample "A" (Some 2000%Q) (Some 20%Q) (Some 10%Q) (Some "urban_core").

Definition area_B : ResponseArea :=
  ra_sample "B" (Some 5000%Q) (Some 3%Q) (Some 50%Q) None.

(** [q] is [c] times [p]. *)
Definition scaled (c p q : Q) : Prop := (q == c * p)%Q.

(** The point (x, y) is on the line y = a x + b. *)
Definition on_line (a b x y : Q) : Prop := (y == a * x + b)%Q.

(** A response area on the line y = 2 x. *)
Definition area_C : ResponseArea :=
  ra_sample "C" (Some 3000%Q) (Some 60%Q) (Some 30%Q) (Some "outer_suburban").

(** A response area with too small a population for the scatter plot. *)
Definition area_D : ResponseArea :=
  ra_sample "D" (Some 50%Q) (Some 99%Q) (Some 5%Q) (Some "inner_suburban").

(** ** Vocabulary for summary tables *)

(** A cell that [f'{x:.2f}'] accepts: a number or a missing value. *)
Definition formattable (c : cell) : Prop :=
  match c with
  | NA | Num _ => True
  | Str _ | Cat _ _ => False
  end.

(** The numeric columns of a summary table hold no strings. *)
Definition numeric_column (df : DataFrame) (c : string) : Prop :=
  forall s, df_getitem df c = inr s -> Forall formattable s.

(** The display label of a source column. *)
Definition display_label (c : string) : string := dict_get display_cols c "".

(** The cell of a row under a column name. *)
Definition cell_of (df : DataFrame) (c : string) (row : list cell) : cell :=
  match index_of c (columns df) with
  | Some i => nth i row NA
  | None => NA
  end.

(** The display columns that a table has, in display order. *)
Definition present_columns (df : DataFrame) : list string :=
  List.filter (has_column df) (map fst display_cols).

(** The table image of a summary table: the formatted table, when
    [ax.table] accepts it. *)
Definition table_image_of (df : DataFrame) : exn + Artifact :=
  match summary_table df with
  | inl e => inl e
  | inr t =>
      match ax_table (columns t) (values t) with
      | inl e => inl e
      | inr _ => inr (TableImage (columns t) (values t))
      end
  end.

(** A summary table without the column [total_incidents]. *)
Definition summary_without_total : DataFrame :=
  {| columns := ["urban_class"; "population"; "incidents_per_1000_pop";
                 "pct_single_family"];
     values := [[Str "outer_suburban"; Num 412000; Num (31 # 10); Num (781 # 10)];
                [Str "urban_core"; Num 98000; Num (52 # 10); Num (12 # 1)];
                [Str "inner_suburban"; Num 305500; Num (4 # 1); Num (905 # 20)]] |}.

(** The first two steps of [create_bar_chart]: the class column, made
    categorical, is stored back into the table. *)
Definition categorized (df : DataFrame) : exn + DataFrame :=
  match df_getitem df "urban_class" with
  | inl e => inl e
  | inr classes => df_setitem df "urban_class" (Categorical classes order)
  end.

(** The remaining steps: the sorted copy and the two panels drawn from it. *)
Definition bar_chart_of (lib : Libraries) (df : DataFrame) : exn + Artifact :=
  match sort_values lib df "urban_class" with
  | inl e => inl e
  | inr sorted =>
      match df_getitem sorted "urban_class" with
      | inl e => inl e
      | inr classes =>
          match df_getitem sorted "incidents_per_1000_pop" with
          | inl e => inl e
          | inr rate =>
              match ax_bar (map x_label classes) with
              | inl e => inl e
              | inr _ =>
                  match mapE (format_f false 2) rate with
                  | inl e => inl e
                  | inr rate_text =>
                      match df_getitem sorted "pct_single_family" with
                      | inl e => inl e
                      | inr housing =>
                          match mapE (fun c => percent (format_f false 0 c)) housing with
                          | inl e => inl e
                          | inr housing_text =>
                              inr (BarChart (map x_label classes) rate rate_text
                                     housing housing_text
                                     ["#d62728"; "#ff7f0e"; "#2ca02c"])
                          end
                      end
                  end
              end
          end
      end
  end.

(** Every row has one cell per column. *)
Definition rectangular (df : DataFrame) : Prop :=
  Forall (fun row => length row = length (columns df)) (values df).

(** What a row contributes to the bar chart: its class, made categorical,
    and the heights of its two bars. *)
Definition bar_of (df : DataFrame) (row : list cell) : cell * cell * cell :=
  (categorize order (cell_of df "urban_class" row),
   cell_of df "incidents_per_1000_pop" row,
   cell_of df "pct_single_family" row).


Definition bar_colors : list string := ["#d62728"; "#ff7f0e"; "#2ca02c"].

(** ** The parts of [main] *)

(** The closing report of [main], from the listing of [outputs/] on. *)
Definition main_report : M unit :=
  print (nl +:+ repeat_string "=" 60);;
  print "OUTPUTS CREATED";;
  print (repeat_string "=" 60);;
  files ← list_outputs;
  print_all (map (fun f => "  - outputs/" +:+ f) files);;
  print (nl +:+ repeat_string "=" 60);;
  print "NEXT STEPS";;
  print (repeat_string "=" 60);;
  print next_steps.

(** The part of [main] under "Create charts", with the closing report. *)
Definition main_charts (lib : Libraries) (ra : GeoDataFrame) (summary_urban : nat)
    : M unit :=
  create_bar_chart lib summary_urban "chart_urban_comparison.png";;
  create_scatter_plot lib ra "chart_housing_correlation.png";;
  create_summary_table_image summary_urban "table_summary.png";;
  main_report.

Definition skip_notice : string :=
  "  Skipping interactive maps (install folium: pip install folium)".

Definition map_files : list string :=
  ["map_incidents_per_capita.html"; "map_urban_classification.html";
   "map_housing_typology.html"].

(** ** Sample summary tables *)

(** The three classes, in an order that is not the display order. *)
Definition summary_three : DataFrame :=
  {| columns := ["urban_class"; "population"; "total_incidents";
                 "incidents_per_1000_pop"; "pct_single_family"];
     values := [[Str "outer_suburban"; Num 412000; Num 1277; Num (31 # 10); Num (781 # 10)];
                [Str "urban_core"; Num 98000; Num 510; Num (52 # 10); Num (12 # 1)];
                [Str "inner_suburban"; Num 305500; Num 1222; Num (4 # 1); Num (905 # 20)]] |}.


Definition world_of (summary_urban : DataFrame) : World :=
  {| frames := {[ 0%nat := summary_urban ]}; outputs := ∅; console := [] |}.


Definition three_labels : list cell :=
  [Str ("Urban Core" +:+ nl +:+ "(>10k/sq mi)");
   Str ("Inner Suburban" +:+ nl +:+ "(3-10k/sq mi)");
   Str ("Outer Suburban" +:+ nl +:+ "(<3k/sq mi)")].

Definition import_notice : string :=
  "Note: Install folium for interactive maps: pip install folium".

Definition chart_files : list string :=
  ["chart_urban_comparison.png"; "chart_housing_correlation.png";
   "table_summary.png"].

(** A class of the display order: one that [pd.Categorical] keeps. *)
Definition known_class (c : cell) : Prop := categorize order c <> NA.

(** The class of every row is one of the three classes of the display
    order. *)
Definition classes_in_order (df : DataFrame) : Prop :=
  Forall (fun row => known_class (cell_of df "urban_class" row)) (values df).

(** A summary table on which the bar chart and the table image can be
    drawn: rectangular and with a row, with the class column and the two
    plotted columns, with numbers in its numeric columns and with no class
    outside the display order. *)
Definition summary_ready (df : DataFrame) : Prop :=
  rectangular df /\
  values df <> [] /\
  has_column df "urban_class" = true /\
  has_column df "incidents_per_1000_pop" = true /\
  has_column df "pct_single_family" = true /\
  numeric_column df "population" /\
  numeric_column df "total_incidents" /\
  numeric_column df "incidents_per_1000_pop" /\
  numeric_column df "pct_single_family" /\
  classes_in_order df.

(** Two rows that pass the filter of the scatter plot and differ in the
    column [f]. *)
Definition spread_in (f : ResponseArea -> option Q) (ra : GeoDataFrame) : Prop :=
  exists r1 r2 x1 x2,
    In r1 ra /\ In r2 ra /\
    scatter_keep r1 = true /\ scatter_keep r2 = true /\
    f r1 = Some x1 /\ f r2 = Some x2 /\
    ~ (x1 == x2)%Q.

(** A ResponseArea table on which least squares is defined: the rows that
    pass the filter of the scatter plot do not all have the same
    pct_single_family, nor all the same incidents_per_1000_pop. *)
Definition scatter_ready (ra : GeoDataFrame) : Prop :=
  spread_in pct_single_family ra /\ spread_in incidents_per_1000_pop ra.

(** Response areas for a complete run: two on the line y = 2 x and one with
    too small a population. *)
Definition sample_areas : GeoDataFrame := [area_A; area_D; area_C].

(** ** The effect of a run on the [outputs/] directory *)

(** A sequence of file writes, the earliest first. *)
Fixpoint apply_writes (ws : list (string * Artifact)) (o : gmap string Artifact)
    : gmap string Artifact :=
  match ws with
  | [] => o
  | (f, a) :: ws' => apply_writes ws' (<[f := a]> o)
  end.

(** The content that a sequence of writes leaves in a file, if it writes it. *)
Fixpoint last_write (ws : list (string * Artifact)) (f : string) : option Artifact :=
  match ws with
  | [] => None
  | (g, a) :: ws' =>
      match last_write ws' f with
      | Some b => Some b
      | None => if String.eqb g f then Some a else None
      end
  end.

(** What one continuous choropleth writes. *)
Definition choropleth_write (gdf : GeoDataFrame) (column title filename colormap : string)
    : list (string * Artifact) :=
  let valid := choropleth_valid column gdf in
  if (length valid =? 0)%nat then []
  else [(filename, ChoroplethMap title colormap column valid valid)].

Definition categorical_layer (gdf : GeoDataFrame) : list (ResponseArea * Style) :=
  map (fun r => (r, style_function default_colors "urban_class" r)) gdf.

(** What the maps of [main] write. *)
Definition map_writes (hf : bool) (ra : GeoDataFrame) : list (string * Artifact) :=
  if hf then
    choropleth_write ra "incidents_per_1000_pop" "Fire Incidents per 1,000 Population"
      "map_incidents_per_capita.html" "YlOrRd"
    ++ [("map_urban_classification.html", CategoricalMap (categorical_layer ra))]
    ++ choropleth_write ra "pct_single_family" "% Single-Family Housing"
         "map_housing_typology.html" "RdYlGn_r"
  else [].

(** What the charts of [main] write, and how that part of the run ends. *)
Definition chart_effect (lib : Libraries) (ra : GeoDataFrame)
    (summary_urban : DataFrame) : list (string * Artifact) * (exn + unit) :=
  match categorized summary_urban with
  | inl e => ([], inl e)
  | inr df1 =>
      match bar_chart_of lib df1 with
      | inl e => ([], inl e)
      | inr chart =>
          let valid := List.filter scatter_keep ra in
          match linregress lib (fit_x valid) (fit_y valid) with
          | inl e => ([("chart_urban_comparison.png", chart)], inl e)
          | inr fit =>
              let scatter :=
                ScatterPlot (map (class_group valid) scatter_colors)
                  (y_line_of fit) fit in
              match table_image_of df1 with
              | inl e =>
                  ([("chart_urban_comparison.png", chart);
                    ("chart_housing_correlation.png", scatter)], inl e)
              | inr image =>
                  ([("chart_urban_comparison.png", chart);
                    ("chart_housing_correlation.png", scatter);
                    ("table_summary.png", image)],
                   inr tt)
              end
          end
      end
  end.

(** The table that the charts leave under the reference of the summary. *)
Definition table_after (summary_urban : DataFrame) : DataFrame :=
  match categorized summary_urban with
  | inr df1 => df1
  | inl _ => summary_urban
  end.

(** What a run of [main] writes, and how it ends: with folium a table
    without rows ends the run at the first map. *)
Definition run_effect (lib : Libraries) (hf : bool) (ra : GeoDataFrame)
    (summary_urban : DataFrame) : list (string * Artifact) * (exn + unit) :=
  if hf && (length ra =? 0)%nat then
    ([], inl (ValueError "Location values cannot contain NaNs."))
  else
    (map_writes hf ra ++ fst (chart_effect lib ra summary_urban),
     snd (chart_effect lib ra summary_urban)).


(** The line of the closing listing for one file. *)
Definition listing_line (f : string) : string := "  - outputs/" +:+ f.

(** A summary table without the column [incidents_per_1000_pop]. *)
Definition summary_without_rate : DataFrame :=
  {| columns := ["urban_class"; "population"; "pct_single_family"];
     values := [[Str "outer_suburban"; Num 412000; Num (781 # 10)];
                [Str "rural"; Num 8000; Num (97 # 1)]] |}.

(** The class of a row has a colour in the scatter plot. *)
Definition has_colour (r : ResponseArea) : bool :=
  existsb (fun entry => of_class (fst entry) r) scatter_colors.

(** How the table image shows a cell of a source column: the format of the
    column applied to a number or a missing value. *)
Definition display_format (c : string) : option (cell -> exn + string) :=
  if String.eqb c "population" then Some (format_f true 0)
  else if String.eqb c "total_incidents" then Some (format_f true 0)
  else if String.eqb c "incidents_per_1000_pop" then Some (format_f false 2)
  else if String.eqb c "pct_single_family" then
    Some (fun x => percent (format_f false 1 x))
  else None.

Definition shown (f : cell -> exn + string) (x : cell) : cell :=
  match f x with
  | inr text => Str text
  | inl _ => x
  end.

Definition display_cell (c : string) (x : cell) : cell :=
  match display_format c with
  | Some f => shown f x
  | None => x
  end.

Definition format_error : exn :=
  ValueError "Unknown format code 'f' for object of type 'str'".

(** The source columns that the table image formats as numbers. *)
Definition formatted_columns : list string :=
  ["population"; "total_incidents"; "incidents_per_1000_pop"; "pct_single_family"].

(** A summary table whose population column holds a text. *)
Definition summary_with_text : DataFrame :=
  {| columns := ["urban_class"; "population"];
     values := [[Str "urban_core"; Num 98000]; [Str "inner_suburban"; Str "n/a"]] |}.


(** * Properties *)

(** ** Masks and columns *)

Lemma boolean_index_map {A} (f : A -> bool) (l : list A) :
  boolean_index l (map f l) = List.filter f l.
Proof.
  induction l as [|a l IH]; simpl; [reflexivity|].
  rewrite IH. reflexivity.
Qed.

Lemma mask_and_map {A} (f g : A -> bool) (l : list A) :
  mask_and (map f l) (map g l) = map (fun a => f a && g a) l.
Proof.
  induction l as [|a l IH]; simpl; [reflexivity|].
  rewrite IH. reflexivity.
Qed.

Lemma metric_column_property column r :
  In column metric_columns -> property column r = Some (num (metric column r)).
Proof.
  unfold metric_columns, metric. simpl.
  intros [<-|[<-|[<-|[<-|[]]]]]; unfold property; simpl;
    match goal with |- context [num ?o] => destruct o; reflexivity end.
Qed.

Lemma gdf_getitem_metric column gdf :
  In column metric_columns ->
  gdf_getitem gdf column = inr (map (fun r => num (metric column r)) gdf).
Proof.
  intros Hc. induction gdf as [|r gdf IH]; simpl.
  - rewrite (metric_column_property _ _ Hc). reflexivity.
  - rewrite (metric_column_property _ _ Hc), IH. reflexivity.
Qed.

Lemma gdf_getitem_urban_class gdf :
  gdf_getitem gdf "urban_class" = inr (map (fun r => str (urban_class r)) gdf).
Proof.
  induction gdf as [|r gdf IH]; simpl; [reflexivity|].
  rewrite IH. reflexivity.
Qed.

Lemma series_gt_num {A} (f : A -> option Q) (l : list A) (k : Q) :
  series_gt (map (fun a => num (f a)) l) k = inr (map (fun a => exceeds k (f a)) l).
Proof.
  induction l as [|a l IH]; simpl; [reflexivity|].
  rewrite IH. destruct (f a); reflexivity.
Qed.

Lemma notna_num {A} (f : A -> option Q) (l : list A) :
  notna (map (fun a => num (f a)) l) = map (fun a => present (f a)) l.
Proof.
  unfold notna. rewrite map_map. apply map_ext. intros a. destruct (f a); reflexivity.
Qed.

Lemma Qltb_lt (a b : Q) : Qltb a b = true <-> (a < b)%Q.
Proof.
  unfold Qltb. rewrite negb_true_iff. split.
  - intros H. apply Qnot_le_lt. intros Hle.
    apply Qle_bool_iff in Hle. congruence.
  - intros H. destruct (Qle_bool b a) eqn:E; [|reflexivity].
    apply Qle_bool_iff in E. exfalso. exact (Qlt_not_le _ _ H E).
Qed.

Lemma exceeds_spec (k : Q) (o : option Q) :
  exceeds k o = true <-> exists q, o = Some q /\ (k < q)%Q.
Proof.
  destruct o as [q|]; simpl.
  - rewrite Qltb_lt. split; [eauto|]. intros (q' & [= <-] & H). exact H.
  - split; [discriminate|]. intros (q & H & _). discriminate.
Qed.

(** ** The continuous choropleth *)

Lemma choropleth_valid_In column gdf r :
  In r (choropleth_valid column gdf) <->
  In r gdf /\ exists q, metric column r = Some q /\ (0 < q)%Q.
Proof.
  unfold choropleth_valid. rewrite filter_In, andb_true_iff, exceeds_spec.
  split.
  - intros (Hin & _ & H). auto.
  - intros (Hin & q & Hq & Hpos). repeat split; eauto. rewrite Hq. reflexivity.
Qed.

Lemma create_choropleth_map_run gdf column title filename colormap w :
  In column metric_columns ->
  create_choropleth_map true gdf column title filename colormap w =
  match folium_Map gdf with
  | inl e =>
      ({| frames := frames w; outputs := outputs w;
          console := console w ++ ["  Creating: " +:+ filename] |}, inl e)
  | inr _ =>
      let valid := choropleth_valid column gdf in
      if (length valid =? 0)%nat then
        ({| frames := frames w; outputs := outputs w;
            console := (console w ++ ["  Creating: " +:+ filename])
                         ++ ["    Warning: No valid data for " +:+ column] |}, inr tt)
      else
        ({| frames := frames w;
            outputs := <[filename := ChoroplethMap title colormap column valid valid]>
                         (outputs w);
            console := (console w ++ ["  Creating: " +:+ filename])
                         ++ ["    ✓ Saved: outputs/" +:+ filename] |}, inr tt)
  end.
Proof.
  intros Hc. unfold create_choropleth_map. simpl negb. cbv iota.
  unfold mbind, M_bind, bind, lift, print, save.
  destruct (folium_Map gdf) as [e|[]]; [reflexivity|]. simpl.
  rewrite (gdf_getitem_metric _ _ Hc), series_gt_num, notna_num, mask_and_map,
    boolean_index_map.
  fold (choropleth_valid column gdf).
  destruct (length (choropleth_valid column gdf) =? 0)%nat; reflexivity.
Qed.

Lemma folium_Map_rows gdf : gdf <> [] -> folium_Map gdf = inr tt.
Proof. destruct gdf; [congruence|reflexivity]. Qed.

(** C3 -- the continuous choropleth of a metric column renders a row of the
    table exactly when its value in that column is present and strictly
    positive: a row whose value is missing, zero or negative is not among the
    rendered features, and every row with a positive value is.  When no row
    qualifies nothing is rendered at all. *)
Theorem choropleth_renders_positive_rows
    (gdf : GeoDataFrame) (column title filename colormap : string) (w : World) :
  In column metric_columns ->
  let w' := fst (create_choropleth_map true gdf column title filename colormap w) in
  exists features : GeoDataFrame,
    ((features = [] /\ outputs w' = outputs w) \/
     outputs w' !! filename =
       Some (ChoroplethMap title colormap column features features)) /\
    (forall r, In r features -> In r gdf) /\
    (forall r, metric column r = None -> ~ In r features) /\
    (forall r q, metric column r = Some q -> (q <= 0)%Q -> ~ In r features) /\
    (forall r q, In r gdf -> metric column r = Some q -> (0 < q)%Q -> In r features).
Proof.
  intros Hc w'. exists (choropleth_valid column gdf).
  split; [|repeat split].
  - subst w'. rewrite (create_choropleth_map_run _ _ _ _ _ _ Hc).
    destruct gdf as [|r0 gdf0]; [left; split; reflexivity|].
    cbn [folium_Map]. cbv zeta.
    destruct (choropleth_valid column (r0 :: gdf0)) as [|r l] eqn:E; simpl.
    + left. split; reflexivity.
    + right. apply lookup_insert_eq.
  - intros r Hr. apply choropleth_valid_In in Hr. tauto.
  - intros r Hnone Hr. apply choropleth_valid_In in Hr.
    destruct Hr as (_ & q & Hq & _). congruence.
  - intros r q Hq Hle Hr. apply choropleth_valid_In in Hr.
    destruct Hr as (_ & q' & Hq' & Hpos).
    assert (q' = q) by congruence. subst q'.
    exact (Qlt_not_le _ _ Hpos Hle).
  - intros r q Hin Hq Hpos. apply choropleth_valid_In. eauto.
Qed.

Lemma choropleth_renders_positive_rows_witness :
  In "incidents_per_1000_pop" metric_columns /\
  let gdf := [ra_sample "A" (Some 5000%Q) (Some 0%Q) (Some 40%Q) (Some "urban_core");
              ra_sample "B" (Some 900%Q) (Some (7 # 2)) None (Some "unknown")] in
  let w' := fst (create_choropleth_map true gdf "incidents_per_1000_pop"
                   "Fire Incidents per 1,000 Population"
                   "map_incidents_per_capita.html" "YlOrRd" empty_world) in
  exists features : GeoDataFrame,
    ((features = [] /\ outputs w' = outputs empty_world) \/
     outputs w' !! "map_incidents_per_capita.html" =
       Some (ChoroplethMap "Fire Incidents per 1,000 Population" "YlOrRd"
               "incidents_per_1000_pop" features features)) /\
    (forall r, In r features -> In r gdf) /\
    (forall r, metric "incidents_per_1000_pop" r = None -> ~ In r features) /\
    (forall r q, metric "incidents_per_1000_pop" r = Some q -> (q <= 0)%Q ->
                 ~ In r features) /\
    (forall r q, In r gdf -> metric "incidents_per_1000_pop" r = Some q ->
                 (0 < q)%Q -> In r features).
Proof.
  split; [simpl; tauto|].
  apply choropleth_renders_positive_rows. simpl. tauto.
Defined.



(** The table without rows: no row survives the filter, and the call ends
    with an exception instead of the warning. *)
Lemma choropleth_of_empty_table_raises :
  (forall r, In r ([] : GeoDataFrame) ->
     metric "incidents_per_1000_pop" r = None
     \/ exists q, metric "incidents_per_1000_pop" r = Some q /\ (q <= 0)%Q) /\
  create_choropleth_map true [] "incidents_per_1000_pop"
    "Fire Incidents per 1,000 Population" "map_incidents_per_capita.html"
    "YlOrRd" empty_world =
  ({| frames := ∅; outputs := ∅;
      console := ["  Creating: map_incidents_per_capita.html"] |},
   inl (ValueError "Location values cannot contain NaNs.")).
Proof. split; [intros r []|reflexivity]. Qed.

(** ** The categorical map *)

(** C4 -- the categorical map of a table with rows has one feature per row
    of the table, in the order of the table and without any filtering; a
    feature is filled red for urban_core, orange for inner_suburban, green
    for outer_suburban and gray for every other class, a missing one
    included, and the call returns normally whatever the classes are. *)
Theorem categorical_map_one_feature_per_row
    (gdf : GeoDataFrame) (title filename : string) (w : World) :
  gdf <> [] ->
  exists layer : list (ResponseArea * Style),
    create_categorical_map true gdf "urban_class" title filename None w =
    ({| frames := frames w;
        outputs := <[filename := CategoricalMap layer]> (outputs w);
        console := (console w ++ ["  Creating: " +:+ filename])
                     ++ ["    ✓ Saved: outputs/" +:+ filename] |},
     inr tt) /\
    map fst layer = gdf /\
    forall r st, In (r, st) layer ->
      (urban_class r = Some "urban_core" -> fillColor st = "#d62728") /\
      (urban_class r = Some "inner_suburban" -> fillColor st = "#ff7f0e") /\
      (urban_class r = Some "outer_suburban" -> fillColor st = "#2ca02c") /\
      (urban_class r <> Some "urban_core" ->
       urban_class r <> Some "inner_suburban" ->
       urban_class r <> Some "outer_suburban" ->
       fillColor st = "#7f7f7f").
Proof.
  intros Hrows.
  exists (map (fun r => (r, style_function default_colors "urban_class" r)) gdf).
  split; [|split].
  - unfold create_categorical_map. simpl negb. cbv iota.
    unfold mbind, M_bind, bind, lift, print, save.
    rewrite (folium_Map_rows _ Hrows). reflexivity.
  - rewrite map_map. simpl. apply map_id.
  - intros r st Hin. apply in_map_iff in Hin. destruct Hin as (r' & [= -> <-] & _).
    unfold style_function. simpl fillColor.
    change (property "urban_class" r) with (Some (str (urban_class r))).
    cbv iota beta.
    repeat split.
    + intros ->. reflexivity.
    + intros ->. reflexivity.
    + intros ->. reflexivity.
    + intros H1 H2 H3. destruct (urban_class r) as [s|]; [|reflexivity].
      unfold default_colors. cbn [str color_of dict_get].
      destruct (String.eqb_spec "urban_core" s) as [<-|_]; [congruence|].
      destruct (String.eqb_spec "inner_suburban" s) as [<-|_]; [congruence|].
      destruct (String.eqb_spec "outer_suburban" s) as [<-|_]; [congruence|].
      destruct (String.eqb "unknown" s); reflexivity.
Qed.

Lemma categorical_map_one_feature_per_row_witness :
  let gdf := [area_A; area_B; ra_sample "E" None None None (Some "rural")] in
  exists layer : list (ResponseArea * Style),
    create_categorical_map true gdf "urban_class" "Urban Classification"
      "map_urban_classification.html" None empty_world =
    ({| frames := ∅;
        outputs := {[ "map_urban_classification.html" := CategoricalMap layer ]};
        console := ["  Creating: map_urban_classification.html";
                    "    ✓ Saved: outputs/map_urban_classification.html"] |},
     inr tt) /\
    map fst layer = gdf /\
    forall r st, In (r, st) layer ->
      (urban_class r = Some "urban_core" -> fillColor st = "#d62728") /\
      (urban_class r = Some "inner_suburban" -> fillColor st = "#ff7f0e") /\
      (urban_class r = Some "outer_suburban" -> fillColor st = "#2ca02c") /\
      (urban_class r <> Some "urban_core" ->
       urban_class r <> Some "inner_suburban" ->
       urban_class r <> Some "outer_suburban" ->
       fillColor st = "#7f7f7f").
Proof.
  intros gdf.
  refine (categorical_map_one_feature_per_row gdf "Urban Classification"
            "map_urban_classification.html" empty_world _).
  discriminate.
Defined.


(** ** The scatter plot: rows kept, bubbles drawn, regression inputs *)

Lemma gdf_getitem_population gdf :
  gdf_getitem gdf "population" = inr (map (fun r => num (population r)) gdf).
Proof. induction gdf as [|r gdf IH]; simpl; [reflexivity|]. rewrite IH. reflexivity. Qed.

Lemma gdf_getitem_pct gdf :
  gdf_getitem gdf "pct_single_family" =
  inr (map (fun r => num (pct_single_family r)) gdf).
Proof. induction gdf as [|r gdf IH]; simpl; [reflexivity|]. rewrite IH. reflexivity. Qed.

Lemma gdf_getitem_rate gdf :
  gdf_getitem gdf "incidents_per_1000_pop" =
  inr (map (fun r => num (incidents_per_1000_pop r)) gdf).
Proof. induction gdf as [|r gdf IH]; simpl; [reflexivity|]. rewrite IH. reflexivity. Qed.

Lemma scatter_valid_filter gdf :
  scatter_valid gdf = inr (List.filter scatter_keep gdf).
Proof.
  unfold scatter_valid.
  rewrite gdf_getitem_population, series_gt_num, gdf_getitem_pct, gdf_getitem_rate,
    gdf_getitem_urban_class.
  rewrite !notna_num. unfold series_ne. rewrite map_map.
  rewrite !mask_and_map, boolean_index_map. reflexivity.
Qed.

Lemma scatter_keep_spec r :
  scatter_keep r = true <->
  (exists p, population r = Some p /\ (100 < p)%Q) /\
  pct_single_family r <> None /\
  incidents_per_1000_pop r <> None /\
  urban_class r <> Some "unknown".
Proof.
  unfold scatter_keep. rewrite !andb_true_iff, exceeds_spec.
  assert (Hp : forall (o : option Q), present o = true <-> o <> None).
  { intros [q|]; simpl; split; congruence. }
  rewrite !Hp.
  assert (Hu : cell_ne "unknown" (str (urban_class r)) = true <->
               urban_class r <> Some "unknown").
  { destruct (urban_class r) as [s|]; cbn [str cell_ne].
    - rewrite negb_true_iff. destruct (String.eqb_spec s "unknown") as [->|Hne].
      + split; congruence.
      + split; [|reflexivity]. intros _ [= H]. contradiction.
    - split; [discriminate|reflexivity]. }
  rewrite Hu. tauto.
Qed.

Lemma bubbles_map (l : GeoDataFrame) :
  bubbles (map (fun r => num (pct_single_family r)) l)
          (map (fun r => num (incidents_per_1000_pop r)) l)
          (series_div (map (fun r => num (population r)) l) 100)
  = map bubble_of l.
Proof.
  unfold series_div. induction l as [|r l IH]; [reflexivity|].
  cbn [map bubbles]. rewrite IH. unfold bubble_of.
  destruct (population r); reflexivity.
Qed.

Lemma scatter_group_ok valid entry :
  scatter_group valid entry = inr (class_group valid entry).
Proof.
  destruct entry as [class colour]. unfold scatter_group, class_group.
  rewrite gdf_getitem_urban_class. unfold series_eq. rewrite map_map.
  rewrite (boolean_index_map (fun r => cell_eq class (str (urban_class r)))).
  rewrite gdf_getitem_pct, gdf_getitem_rate, gdf_getitem_population.
  cbv beta iota. fold (of_class class). rewrite bubbles_map. reflexivity.
Qed.

Lemma mapE_total {A B} (f : A -> exn + B) (g : A -> B) (l : list A) :
  (forall a, f a = inr (g a)) -> mapE f l = inr (map g l).
Proof.
  intros H. induction l as [|a l IH]; simpl; [reflexivity|].
  rewrite H, IH. reflexivity.
Qed.

Lemma scatter_fit_inputs lib valid :
  scatter_fit lib valid = linregress lib (fit_x valid) (fit_y valid).
Proof.
  unfold scatter_fit. rewrite gdf_getitem_pct, gdf_getitem_rate. reflexivity.
Qed.

Lemma create_scatter_plot_run lib gdf filename w :
  create_scatter_plot lib gdf filename w =
  let valid := List.filter scatter_keep gdf in
  match linregress lib (fit_x valid) (fit_y valid) with
  | inl e =>
      ({| frames := frames w; outputs := outputs w;
          console := console w ++ ["  Creating: " +:+ filename] |}, inl e)
  | inr fit =>
      ({| frames := frames w;
          outputs := <[filename :=
                         ScatterPlot (map (class_group valid) scatter_colors)
                           (y_line_of fit) fit]> (outputs w);
          console := (console w ++ ["  Creating: " +:+ filename])
                       ++ ["    ✓ Saved: outputs/" +:+ filename] |}, inr tt)
  end.
Proof.
  unfold create_scatter_plot, mbind, M_bind, bind, lift, print, save.
  rewrite scatter_valid_filter.
  rewrite (mapE_total _ _ _ (scatter_group_ok (List.filter scatter_keep gdf))).
  rewrite scatter_fit_inputs. cbv zeta.
  destruct (linregress _ _) as [e|fit]; reflexivity.
Qed.

Lemma fit_x_rows (valid : GeoDataFrame) :
  Forall (fun r => pct_single_family r <> None) valid ->
  Forall2 (fun r x => pct_single_family r = Some x) valid (fit_x valid).
Proof.
  unfold fit_x, to_numpy. induction 1 as [|r l Hr _ IH]; simpl; [constructor|].
  destruct (pct_single_family r) as [x|] eqn:E; [|congruence].
  simpl. constructor; [exact E|exact IH].
Qed.

Lemma fit_y_rows (valid : GeoDataFrame) :
  Forall (fun r => incidents_per_1000_pop r <> None) valid ->
  Forall2 (fun r y => incidents_per_1000_pop r = Some y) valid (fit_y valid).
Proof.
  unfold fit_y, to_numpy. induction 1 as [|r l Hr _ IH]; simpl; [constructor|].
  destruct (incidents_per_1000_pop r) as [y|] eqn:E; [|congruence].
  simpl. constructor; [exact E|exact IH].
Qed.

Lemma of_class_spec class r :
  of_class class r = true <-> urban_class r = Some class.
Proof.
  unfold of_class. destruct (urban_class r) as [s|]; cbn [str cell_eq].
  - rewrite String.eqb_eq. split; congruence.
  - split; discriminate.
Qed.

Lemma scatter_bubbles_spec (valid : GeoDataFrame) (b : Bubble) :
  In b (concat (map group_bubbles (map (class_group valid) scatter_colors))) <->
  exists r, In r valid /\ coloured r /\ b = bubble_of r.
Proof.
  unfold scatter_colors, coloured. cbn [map concat class_group group_bubbles fst snd].
  rewrite !in_app_iff, !in_map_iff. split.
  - intros [H|[H|[H|[]]]]; destruct H as (r & <- & Hr);
      apply filter_In in Hr; destruct Hr as (Hin & Hc);
      apply of_class_spec in Hc; exists r; tauto.
  - intros (r & Hin & Hc & ->).
    destruct Hc as [Hc|[Hc|Hc]]; apply of_class_spec in Hc;
      [left|right; left|right; right; left]; exists r;
      (split; [reflexivity|]); apply filter_In; tauto.
Qed.

(** C1 (as the code has it) -- the scatter plot keeps the rows of the table
    that pass its test, in the order of the table; a row passes exactly when
    its population is present and above 100, its pct_single_family and
    incidents_per_1000_pop are present, and its urban_class is not the label
    'unknown'.  The regression is called on one (x, y) pair per kept row, in
    that order, and on nothing else; what it answers decides whether the plot
    is saved or the call raises.  A kept row is drawn as a bubble of the
    group of its class when that class is one of the three coloured ones.  A
    row whose urban_class is missing is therefore kept and fitted, although
    no bubble is drawn for it. *)
Theorem scatter_plot_rows
    (lib : Libraries) (gdf : GeoDataFrame) (filename : string) (w : World) :
  let valid := List.filter scatter_keep gdf in
  scatter_valid gdf = inr valid /\
  (forall r, scatter_keep r = true <->
     (exists p, population r = Some p /\ (100 < p)%Q) /\
     pct_single_family r <> None /\
     incidents_per_1000_pop r <> None /\
     urban_class r <> Some "unknown") /\
  Forall2 (fun r x => pct_single_family r = Some x) valid (fit_x valid) /\
  Forall2 (fun r y => incidents_per_1000_pop r = Some y) valid (fit_y valid) /\
  scatter_fit lib valid = linregress lib (fit_x valid) (fit_y valid) /\
  create_scatter_plot lib gdf filename w =
    match linregress lib (fit_x valid) (fit_y valid) with
    | inl e =>
        ({| frames := frames w; outputs := outputs w;
            console := console w ++ ["  Creating: " +:+ filename] |}, inl e)
    | inr fit =>
        ({| frames := frames w;
            outputs := <[filename :=
                           ScatterPlot (map (class_group valid) scatter_colors)
                             (y_line_of fit) fit]> (outputs w);
            console := (console w ++ ["  Creating: " +:+ filename])
                         ++ ["    ✓ Saved: outputs/" +:+ filename] |}, inr tt)
    end /\
  (forall b,
     In b (concat (map group_bubbles (map (class_group valid) scatter_colors))) <->
     exists r, In r valid /\ coloured r /\ b = bubble_of r).
Proof.
  intros valid.
  assert (Hvalid : forall r, In r valid -> scatter_keep r = true).
  { intros r Hr. apply filter_In in Hr. tauto. }
  split; [apply scatter_valid_filter|]. split; [exact scatter_keep_spec|].
  split; [|split; [|split; [|split]]].
  - apply fit_x_rows, List.Forall_forall. intros r Hr.
    apply Hvalid, scatter_keep_spec in Hr. tauto.
  - apply fit_y_rows, List.Forall_forall. intros r Hr.
    apply Hvalid, scatter_keep_spec in Hr. tauto.
  - apply scatter_fit_inputs.
  - apply create_scatter_plot_run.
  - apply scatter_bubbles_spec.
Qed.

Lemma undefined_fit_A_B : undefined_fit [10; 50]%Q [20; 3]%Q = false.
Proof. vm_compute. reflexivity. Qed.

(** C1, as stated, fails: a row with a missing urban_class, a population of
    5000 and both metrics present is kept by the filter, and its pair
    (50, 3) is one of the two points that the regression is called on. *)
Lemma scatter_fits_row_without_class :
  urban_class area_B = None /\
  scatter_valid [area_A; area_B] = inr [area_A; area_B] /\
  (forall lib,
     scatter_fit lib [area_A; area_B] = linregress lib [10; 50]%Q [20; 3]%Q).
Proof.
  split; [reflexivity|]. split.
  - rewrite scatter_valid_filter. reflexivity.
  - intros lib. rewrite scatter_fit_inputs. reflexivity.
Qed.

(** With no row left by the filter the regression is still called, on two
    empty arrays; what it answers is the library's affair. *)
Lemma create_scatter_plot_empty lib gdf filename w :
  scatter_valid gdf = inr [] ->
  create_scatter_plot lib gdf filename w =
  match linregress_undefined lib [] [] with
  | inl e =>
      ({| frames := frames w; outputs := outputs w;
          console := console w ++ ["  Creating: " +:+ filename] |}, inl e)
  | inr fit =>
      ({| frames := frames w;
          outputs := <[filename :=
                         ScatterPlot (map (class_group []) scatter_colors)
                           (y_line_of fit) fit]> (outputs w);
          console := (console w ++ ["  Creating: " +:+ filename])
                       ++ ["    ✓ Saved: outputs/" +:+ filename] |}, inr tt)
  end.
Proof.
  rewrite scatter_valid_filter. intros [= H].
  rewrite create_scatter_plot_run, H. reflexivity.
Qed.


(** ** Least squares on points of a line *)

Section Regression.

Local Open Scope Q_scope.

Lemma Qsum_scaled c ps qs : Forall2 (scaled c) ps qs -> Qsum qs == c * Qsum ps.
Proof.
  unfold scaled. induction 1 as [|p q ps qs Hpq _ IH]; simpl.
  - ring.
  - rewrite Hpq, IH. ring.
Qed.

Lemma count_scaled c ps qs : Forall2 (scaled c) ps qs -> count qs = count ps.
Proof.
  intros H. unfold count. apply Forall2_length in H. rewrite H. reflexivity.
Qed.

Lemma mean_scaled c ps qs : Forall2 (scaled c) ps qs -> mean qs == c * mean ps.
Proof.
  intros H. unfold mean. rewrite (count_scaled _ _ _ H), (Qsum_scaled _ _ _ H).
  unfold Qdiv. ring.
Qed.

Lemma products_scaled a b xs xs' ys ys' :
  Forall2 (scaled a) xs xs' -> Forall2 (scaled b) ys ys' ->
  Forall2 (scaled (a * b)) (products xs ys) (products xs' ys').
Proof.
  unfold scaled. intros Hx. revert ys ys'.
  induction Hx as [|x x' xs xs' Hxx _ IH]; intros ys ys' Hy; simpl.
  - constructor.
  - destruct Hy as [|y y' ys ys' Hyy Hy]; constructor.
    + rewrite Hxx, Hyy. ring.
    + apply IH, Hy.
Qed.

Lemma scaled_refl xs : Forall2 (scaled 1) xs xs.
Proof.
  induction xs; constructor; [unfold scaled; ring|assumption].
Qed.

Lemma square_nonneg (d : Q) : 0 <= d * d.
Proof. unfold Qle, Qmult. simpl. nia. Qed.

Lemma Qsum_squares_nonneg ds : 0 <= Qsum (products ds ds).
Proof.
  induction ds as [|d ds IH]; simpl; [apply Qle_refl|].
  pose proof (square_nonneg d).
  change 0 with (0 + 0). apply Qplus_le_compat; assumption.
Qed.

Lemma Qsum_squares_pos ds d :
  In d ds -> ~ d == 0 -> 0 < Qsum (products ds ds).
Proof.
  induction ds as [|e ds IH]; simpl; [tauto|].
  intros [->|Hin] Hd.
  - assert (0 < d * d).
    { destruct (proj1 (Qle_lteq _ _) (square_nonneg d)) as [H|H]; [exact H|].
      symmetry in H. apply Qmult_integral in H. tauto. }
    change 0 with (0 + 0). apply Qplus_lt_le_compat; [assumption|].
    apply Qsum_squares_nonneg.
  - rewrite Qplus_comm. change 0 with (0 + 0).
    apply Qplus_lt_le_compat; [exact (IH Hin Hd)|apply square_nonneg].
Qed.

Lemma count_pos (l : list Q) : l <> [] -> 0 < count l.
Proof.
  destruct l as [|a l]; [congruence|]. intros _. unfold count.
  change 0 with (inject_Z 0). rewrite <- Zlt_Qlt. simpl length. lia.
Qed.

Lemma variance_pos xs a b : In a xs -> In b xs -> ~ a == b -> 0 < cov xs xs.
Proof.
  intros Ha Hb Hab. unfold cov, mean.
  assert (Hd : exists d, In d (deviations xs) /\ ~ d == 0).
  { unfold deviations.
    destruct (Qeq_dec (a - mean xs) 0) as [Ha0|Ha0].
    - exists (b - mean xs). split.
      + apply in_map_iff. exists b. auto.
      + intros Hb0. apply Hab. Lqa.lra.
    - exists (a - mean xs). split; [|exact Ha0].
      apply in_map_iff. exists a. auto. }
  destruct Hd as (d & Hin & Hd).
  pose proof (Qsum_squares_pos _ _ Hin Hd) as Hpos.
  assert (Hne : products (deviations xs) (deviations xs) <> []).
  { unfold deviations. destruct xs; [destruct Ha|]. discriminate. }
  pose proof (count_pos _ Hne) as Hc.
  apply Qlt_shift_div_l; [exact Hc|]. Lqa.lra.
Qed.

Lemma cov_deviations a b x x' y y' :
  Forall2 (scaled a) (deviations x) (deviations x') ->
  Forall2 (scaled b) (deviations y) (deviations y') ->
  cov x' y' == a * b * cov x y.
Proof.
  intros Hx Hy. unfold cov. apply mean_scaled, products_scaled; assumption.
Qed.

Lemma count_cons (x : Q) (xs : list Q) : count (x :: xs) == count xs + 1.
Proof.
  unfold count. cbn [length]. rewrite Nat2Z.inj_succ, <- Z.add_1_r, inject_Z_plus.
  reflexivity.
Qed.

Lemma Qsum_on_line a b xs ys :
  Forall2 (on_line a b) xs ys -> Qsum ys == a * Qsum xs + b * count xs.
Proof.
  unfold on_line. induction 1 as [|x y xs ys Hxy _ IH].
  - unfold count. simpl. ring.
  - rewrite count_cons. simpl. rewrite Hxy, IH. ring.
Qed.

Lemma mean_on_line a b xs ys :
  xs <> [] -> Forall2 (on_line a b) xs ys -> mean ys == a * mean xs + b.
Proof.
  intros Hne H. unfold mean.
  assert (Hc : count ys = count xs).
  { unfold count. rewrite (Forall2_length _ _ _ H). reflexivity. }
  rewrite Hc, (Qsum_on_line _ _ _ _ H).
  pose proof (count_pos _ Hne). field. Lqa.lra.
Qed.

Lemma deviations_on_line a b xs ys :
  xs <> [] -> Forall2 (on_line a b) xs ys ->
  Forall2 (scaled a) (deviations xs) (deviations ys).
Proof.
  intros Hne H. pose proof (mean_on_line _ _ _ _ Hne H) as Hm.
  unfold deviations. revert Hm. generalize (mean xs) (mean ys). intros m m' Hm.
  clear Hne. unfold on_line, scaled in *.
  induction H as [|x y xs' ys' Hxy _ IH]; simpl; [constructor|].
  constructor; [|exact IH].
  rewrite Hxy, Hm. ring.
Qed.

Lemma deviations_refl xs : Forall2 (scaled 1) (deviations xs) (deviations xs).
Proof. apply scaled_refl. Qed.

End Regression.

Lemma Q2R_0 : Q2R 0 = 0%R.
Proof. unfold Q2R. simpl. lra. Qed.

Lemma Q2R_1 : Q2R 1 = 1%R.
Proof. unfold Q2R. simpl. lra. Qed.

(** Where both arrays vary, the regression is least squares whatever the
    library. *)
Lemma linregress_ols lib (xs ys : list Q) (x1 x2 y1 y2 : Q) :
  length xs = length ys ->
  In x1 xs -> In x2 xs -> ~ (x1 == x2)%Q ->
  In y1 ys -> In y2 ys -> ~ (y1 == y2)%Q ->
  linregress lib xs ys = inr (ols xs ys).
Proof.
  intros Hlen Hx1 Hx2 Hx Hy1 Hy2 Hy.
  pose proof (variance_pos _ _ _ Hx1 Hx2 Hx) as Hvx.
  pose proof (variance_pos _ _ _ Hy1 Hy2 Hy) as Hvy.
  unfold linregress, undefined_fit. rewrite <- Hlen, Nat.eqb_refl.
  destruct xs as [|x0 xs']; [destruct Hx1|]. cbn [length Nat.eqb negb orb].
  assert (Hx0 : Qeq_bool (cov (x0 :: xs') (x0 :: xs')) 0 = false).
  { apply not_true_is_false. intros H. apply Qeq_bool_iff in H. Lqa.lra. }
  assert (Hy0 : Qeq_bool (cov ys ys) 0 = false).
  { apply not_true_is_false. intros H. apply Qeq_bool_iff in H. Lqa.lra. }
  rewrite Hx0, Hy0. reflexivity.
Qed.

Lemma Forall2_In_l {A B} (R : A -> B -> Prop) (l : list A) (l' : list B) (a : A) :
  Forall2 R l l' -> In a l -> exists b, In b l' /\ R a b.
Proof.
  induction 1 as [|x y l l' Hxy _ IH]; intros Hin; [destruct Hin|].
  destruct Hin as [<-|Hin].
  - exists y. split; [left; reflexivity|exact Hxy].
  - destruct (IH Hin) as (b & Hb & Hab). exists b. split; [right; exact Hb|exact Hab].
Qed.

(** The estimates of least squares on points of the line y = a x + b. *)
Lemma ols_on_line (xs ys : list Q) (a b x1 x2 : Q) :
  In x1 xs -> In x2 xs -> ~ (x1 == x2)%Q ->
  Forall2 (on_line a b) xs ys ->
  ~ (a == 0)%Q ->
  exists s i,
    slope (ols xs ys) = Some s /\ (s == a)%Q /\
    intercept (ols xs ys) = Some i /\ (i == b)%Q /\
    ((0 < a)%Q -> rvalue (ols xs ys) = Some 1%R) /\
    ((a < 0)%Q -> rvalue (ols xs ys) = Some (-1)%R).
Proof.
  intros Hx1 Hx2 Hx Hxy Ha.
  assert (Hne : xs <> []) by (destruct xs; [destruct Hx1|discriminate]).
  pose proof (variance_pos _ _ _ Hx1 Hx2 Hx) as Hvar.
  pose proof (deviations_on_line _ _ _ _ Hne Hxy) as Hdev.
  pose proof (cov_deviations 1 a _ _ _ _ (deviations_refl xs) Hdev) as Hxym.
  pose proof (cov_deviations a a _ _ _ _ Hdev Hdev) as Hym.
  pose proof (mean_on_line _ _ _ _ Hne Hxy) as Hmean.
  eexists _, _. unfold ols. cbn [slope intercept rvalue].
  split; [reflexivity|]. split; [|split; [reflexivity|split; [|split]]].
  - rewrite Hxym. field. Lqa.lra.
  - rewrite Hmean, Hxym. field. Lqa.lra.
  - intros Hpos. f_equal.
    rewrite (Qeq_eqR _ _ Hxym), (Qeq_eqR _ _ Hym), !Q2R_mult, Q2R_1.
    apply Qlt_Rlt in Hvar. rewrite Q2R_0 in Hvar.
    apply Qlt_Rlt in Hpos. rewrite Q2R_0 in Hpos.
    set (v := Q2R (cov xs xs)) in *. set (c := Q2R a) in *.
    replace (v * (c * c * v))%R with ((c * v) * (c * v))%R by ring.
    assert (0 < c * v)%R by (apply Rmult_lt_0_compat; assumption).
    rewrite sqrt_square by lra.
    field. lra.
  - intros Hneg. f_equal.
    rewrite (Qeq_eqR _ _ Hxym), (Qeq_eqR _ _ Hym), !Q2R_mult, Q2R_1.
    apply Qlt_Rlt in Hvar. rewrite Q2R_0 in Hvar.
    apply Qlt_Rlt in Hneg. rewrite Q2R_0 in Hneg.
    set (v := Q2R (cov xs xs)) in *. set (c := Q2R a) in *.
    replace (v * (c * c * v))%R with ((- c * v) * (- c * v))%R by ring.
    assert (0 < - c * v)%R by (apply Rmult_lt_0_compat; lra).
    rewrite sqrt_square by lra.
    field. lra.
Qed.

Lemma variance_on_line (xs ys : list Q) (a b x1 x2 : Q) :
  In x1 xs -> In x2 xs -> ~ (x1 == x2)%Q ->
  Forall2 (on_line a b) xs ys ->
  ~ (a == 0)%Q ->
  exists y1 y2, In y1 ys /\ In y2 ys /\ ~ (y1 == y2)%Q.
Proof.
  intros Hx1 Hx2 Hx Hxy Ha.
  destruct (Forall2_In_l _ _ _ _ Hxy Hx1) as (y1 & Hy1 & H1).
  destruct (Forall2_In_l _ _ _ _ Hxy Hx2) as (y2 & Hy2 & H2).
  exists y1, y2. split; [exact Hy1|]. split; [exact Hy2|].
  unfold on_line in *. intros Heq. apply Hx.
  assert (Hd : (a * (x1 - x2) == 0)%Q) by Lqa.lra.
  apply Qmult_integral in Hd. destruct Hd as [Hd|Hd]; [contradiction|]. Lqa.lra.
Qed.

Lemma fit_on_line (a b : Q) (valid : GeoDataFrame) :
  (forall r, In r valid ->
     exists x y, pct_single_family r = Some x /\
                 incidents_per_1000_pop r = Some y /\ (y == a * x + b)%Q) ->
  Forall2 (on_line a b) (fit_x valid) (fit_y valid) /\
  forall r x, In r valid -> pct_single_family r = Some x -> In x (fit_x valid).
Proof.
  unfold fit_x, fit_y, to_numpy.
  induction valid as [|r0 valid IH]; intros H; cbn [map flat_map].
  - split; [constructor|]. intros r x [].
  - destruct (H r0 (or_introl eq_refl)) as (x0 & y0 & Hx & Hy & Hxy).
    destruct IH as [IH1 IH2]; [intros r Hr; apply H; right; exact Hr|].
    rewrite Hx, Hy. cbn [num app]. split.
    + constructor; [exact Hxy|exact IH1].
    + intros r x [<-|Hr] Hrx.
      * left. congruence.
      * right. exact (IH2 r x Hr Hrx).
Qed.

(** C8 -- when every row kept by the scatter plot lies exactly on a line
    incidents_per_1000_pop = a * pct_single_family + b with a slope a other
    than zero, and two kept rows differ in pct_single_family, the regression
    answers the slope a, the intercept b and the correlation coefficient 1
    for a rising line, -1 for a falling one; this is the fit that is drawn,
    from b at x = 0 to b + 100 a at x = 100.  For a = 2 and b = 0 that is
    slope 2, intercept 0 and correlation 1.  Numbers are exact rationals
    here; the rounding of floating-point arithmetic is outside the model. *)
Theorem scatter_fit_exact_line
    (lib : Libraries) (gdf valid : GeoDataFrame) (a b : Q)
    (r1 r2 : ResponseArea) (x1 x2 : Q) (filename : string) (w : World) :
  scatter_valid gdf = inr valid ->
  (forall r, In r valid ->
     exists x y, pct_single_family r = Some x /\
                 incidents_per_1000_pop r = Some y /\ (y == a * x + b)%Q) ->
  ~ (a == 0)%Q ->
  In r1 valid -> In r2 valid ->
  pct_single_family r1 = Some x1 -> pct_single_family r2 = Some x2 ->
  ~ (x1 == x2)%Q ->
  exists fit s i,
    scatter_fit lib valid = inr fit /\
    slope fit = Some s /\ (s == a)%Q /\
    intercept fit = Some i /\ (i == b)%Q /\
    ((0 < a)%Q -> rvalue fit = Some 1%R) /\
    ((a < 0)%Q -> rvalue fit = Some (-1)%R) /\
    create_scatter_plot lib gdf filename w =
    ({| frames := frames w;
        outputs := <[filename :=
                       ScatterPlot (map (class_group valid) scatter_colors)
                         (Some i, Some (i + s * 100)%Q) fit]> (outputs w);
        console := (console w ++ ["  Creating: " +:+ filename])
                     ++ ["    ✓ Saved: outputs/" +:+ filename] |}, inr tt).
Proof.
  intros Hvalid Hline Ha Hr1 Hr2 Hx1 Hx2 Hne.
  destruct (fit_on_line a b valid Hline) as [Hxy Hin].
  pose proof (Hin _ _ Hr1 Hx1) as Hi1. pose proof (Hin _ _ Hr2 Hx2) as Hi2.
  destruct (variance_on_line _ _ _ _ _ _ Hi1 Hi2 Hne Hxy Ha) as (y1 & y2 & Hy1 & Hy2 & Hy).
  pose proof (linregress_ols lib _ _ _ _ _ _ (Forall2_length _ _ _ Hxy)
                Hi1 Hi2 Hne Hy1 Hy2 Hy) as Hfit.
  destruct (ols_on_line _ _ _ _ _ _ Hi1 Hi2 Hne Hxy Ha)
    as (s & i & Hs & Hsa & Hi & Hib & Hpos & Hneg).
  exists (ols (fit_x valid) (fit_y valid)), s, i.
  rewrite scatter_fit_inputs.
  repeat (split; [assumption|]).
  rewrite scatter_valid_filter in Hvalid. injection Hvalid as Hvalid.
  rewrite create_scatter_plot_run, Hvalid. cbv zeta. rewrite Hfit.
  unfold y_line_of. rewrite Hs, Hi. reflexivity.
Qed.

Lemma scatter_fit_exact_line_witness :
  exists fit s i,
    scatter_fit raising_release [area_A; area_C] = inr fit /\
    slope fit = Some s /\ (s == 2)%Q /\
    intercept fit = Some i /\ (i == 0)%Q /\
    ((0 < 2)%Q -> rvalue fit = Some 1%R) /\
    ((2 < 0)%Q -> rvalue fit = Some (-1)%R) /\
    create_scatter_plot raising_release [area_A; area_D; area_C]
      "chart_housing_correlation.png" empty_world =
    ({| frames := ∅;
        outputs := {[ "chart_housing_correlation.png" :=
                        ScatterPlot (map (class_group [area_A; area_C]) scatter_colors)
                          (Some i, Some (i + s * 100)%Q) fit ]};
        console := ["  Creating: chart_housing_correlation.png";
                    "    ✓ Saved: outputs/chart_housing_correlation.png"] |}, inr tt).
Proof.
  refine (scatter_fit_exact_line raising_release [area_A; area_D; area_C]
            [area_A; area_C] 2 0 area_A area_C 10 30
            "chart_housing_correlation.png" empty_world _ _ _ _ _ _ _ _).
  - rewrite scatter_valid_filter. reflexivity.
  - intros r [<-|[<-|[]]].
    + exists 10%Q, 20%Q. repeat split; reflexivity.
    + exists 30%Q, 60%Q. repeat split; reflexivity.
  - intros H. discriminate H.
  - left. reflexivity.
  - right. left. reflexivity.
  - reflexivity.
  - reflexivity.
  - intros H. discriminate H.
Defined.


(** ** Columns of a table *)

Lemma index_of_nth (c : string) (l : list string) (i : nat) :
  index_of c l = Some i -> nth i l "" = c /\ (i < length l)%nat.
Proof.
  revert i. induction l as [|c' l IH]; simpl; intros i; [discriminate|].
  destruct (String.eqb_spec c' c) as [->|Hne].
  - intros [= <-]. split; [reflexivity|lia].
  - destruct (index_of c l) as [j|]; simpl; [|discriminate].
    intros [= <-]. destruct (IH j eq_refl). split; [assumption|lia].
Qed.

Lemma index_of_inj (c c' : string) (l : list string) (i : nat) :
  index_of c l = Some i -> index_of c' l = Some i -> c = c'.
Proof.
  intros H H'. apply index_of_nth in H, H'. destruct H, H'. congruence.
Qed.

Lemma index_of_In (c : string) (l : list string) :
  In c l -> exists i, index_of c l = Some i.
Proof.
  induction l as [|c' l IH]; simpl; [intros []|].
  intros H. destruct (String.eqb_spec c' c) as [->|Hne]; [eauto|].
  destruct H as [H|H]; [contradiction|].
  destruct (IH H) as [i ->]. simpl. eauto.
Qed.

Lemma has_column_index df c :
  has_column df c = true <-> exists i, index_of c (columns df) = Some i.
Proof.
  unfold has_column. destruct (index_of c (columns df)) as [i|].
  - split; eauto.
  - split; [discriminate|]. intros [i H]. discriminate.
Qed.

Lemma nth_set_nth_ne (i j : nat) (x : cell) (row : list cell) :
  i <> j -> nth i (set_nth j x row) NA = nth i row NA.
Proof.
  revert i j. induction row as [|y row IH]; intros i j Hne.
  - destruct j; reflexivity.
  - destruct j, i; simpl; try reflexivity; try congruence.
    apply IH. congruence.
Qed.

Lemma nth_set_nth_eq (i : nat) (x : cell) (row : list cell) :
  (i < length row)%nat -> nth i (set_nth i x row) NA = x.
Proof.
  revert i. induction row as [|y row IH]; intros i Hi; simpl in Hi; [lia|].
  destruct i; simpl; [reflexivity|]. apply IH. lia.
Qed.

Lemma length_set_nth (i : nat) (x : cell) (row : list cell) :
  length (set_nth i x row) = length row.
Proof.
  revert i. induction row as [|y row IH]; intros [|i]; simpl; auto.
Qed.

Lemma zip_rows_map (f : list cell -> cell -> list cell) (g : list cell -> cell)
    (rows : list (list cell)) :
  zip_rows f rows (map g rows) = map (fun row => f row (g row)) rows.
Proof.
  induction rows as [|row rows IH]; simpl; [reflexivity|]. rewrite IH. reflexivity.
Qed.

Lemma zip_rows_length f rows s :
  length s = length rows -> length (zip_rows f rows s) = length rows.
Proof.
  revert s. induction rows as [|row rows IH]; intros [|x s]; simpl; try discriminate;
    auto.
Qed.

Lemma zip_rows_other (i j : nat) (rows : list (list cell)) (s : Series) :
  i <> j -> length s = length rows ->
  map (fun row => nth i row NA) (zip_rows (fun row x => set_nth j x row) rows s)
  = map (fun row => nth i row NA) rows.
Proof.
  intros Hne. revert s.
  induction rows as [|row rows IH]; intros [|x s]; simpl; try discriminate;
    [reflexivity|].
  intros [= Hlen]. rewrite (nth_set_nth_ne _ _ _ _ Hne), (IH _ Hlen). reflexivity.
Qed.

Lemma mapE_length {A B} (f : A -> exn + B) (l : list A) (l' : list B) :
  mapE f l = inr l' -> length l' = length l.
Proof.
  revert l'. induction l as [|a l IH]; simpl; intros l'.
  - intros [= <-]. reflexivity.
  - destruct (f a); [discriminate|]. destruct (mapE f l); [discriminate|].
    intros [= <-]. simpl. rewrite (IH _ eq_refl). reflexivity.
Qed.

Lemma mapE_Forall {A B} (P : A -> Prop) (f : A -> exn + B) (l : list A) :
  (forall a, P a -> exists b, f a = inr b) ->
  Forall P l -> exists l', mapE f l = inr l'.
Proof.
  intros Hf. induction 1 as [|a l Ha _ [l' IH]]; simpl; [eauto|].
  destruct (Hf a Ha) as [b ->]. rewrite IH. eauto.
Qed.

(** *** Formatting a column in place *)

Lemma apply_if_present_columns df c f df' :
  apply_if_present df c f = inr df' -> columns df' = columns df.
Proof.
  unfold apply_if_present, has_column, df_getitem, df_setitem.
  destruct (index_of c (columns df)) as [i|]; [|intros [= <-]; reflexivity].
  destruct (mapE f _); [discriminate|].
  destruct (negb _); [discriminate|]. intros [= <-]. reflexivity.
Qed.

Lemma apply_if_present_other df c f df' c' :
  apply_if_present df c f = inr df' -> c' <> c ->
  df_getitem df' c' = df_getitem df c'.
Proof.
  unfold apply_if_present, has_column, df_getitem, df_setitem.
  destruct (index_of c (columns df)) as [i|] eqn:Hi; [|intros [= <-]; reflexivity].
  destruct (mapE f _) as [|texts] eqn:Ht; [discriminate|].
  apply mapE_length in Ht. rewrite length_map in Ht.
  rewrite length_map, Ht, Nat.eqb_refl. cbn [negb].
  intros [= <-] Hne. cbn [columns values].
  destruct (index_of c' (columns df)) as [j|] eqn:Hj; [|reflexivity].
  f_equal. apply zip_rows_other.
  - intros ->. apply Hne. exact (index_of_inj _ _ _ _ Hj Hi).
  - rewrite length_map. exact Ht.
Qed.

Lemma apply_if_present_ok df c f :
  numeric_column df c ->
  (forall x, formattable x -> exists t, f x = inr t) ->
  exists df', apply_if_present df c f = inr df'.
Proof.
  intros Hnum Hf. unfold apply_if_present, has_column.
  unfold numeric_column, df_getitem in *. unfold df_setitem.
  destruct (index_of c (columns df)) as [i|] eqn:Hi; [|eauto].
  destruct (mapE_Forall _ _ _ Hf (Hnum _ eq_refl)) as [texts Ht].
  rewrite Ht. apply mapE_length in Ht. rewrite length_map in Ht.
  rewrite length_map, Ht, Nat.eqb_refl. cbn [negb]. eauto.
Qed.

Lemma format_f_ok comma decimals x :
  formattable x -> exists t, format_f comma decimals x = inr t.
Proof. destruct x; simpl; intros H; try contradiction; eauto. Qed.

Lemma percent_format_f_ok comma decimals x :
  formattable x -> exists t, percent (format_f comma decimals x) = inr t.
Proof. destruct x; simpl; intros H; try contradiction; eauto. Qed.

(** ** The summary table image *)

Lemma df_getitem_cells df c :
  has_column df c = true ->
  df_getitem df c = inr (map (cell_of df c) (values df)).
Proof.
  unfold has_column, df_getitem, cell_of.
  destruct (index_of c (columns df)); [reflexivity|discriminate].
Qed.

Lemma zip_rows_map2 (f : list cell -> cell -> list cell)
    (g : list cell -> list cell) (h : list cell -> cell) (rows : list (list cell)) :
  zip_rows f (map g rows) (map h rows) = map (fun row => f (g row) (h row)) rows.
Proof.
  induction rows as [|row rows IH]; simpl; [reflexivity|]. rewrite IH. reflexivity.
Qed.

Lemma select_columns_present df cs :
  Forall (fun c => has_column df c = true) cs ->
  select_columns df cs =
  inr {| columns := cs;
         values := map (fun row => map (fun c => cell_of df c row) cs) (values df) |}.
Proof.
  induction 1 as [|c cs Hc _ IH]; simpl; [reflexivity|].
  rewrite (df_getitem_cells _ _ Hc), IH. cbn [columns values].
  rewrite zip_rows_map2. reflexivity.
Qed.

Lemma display_label_getitem c :
  In c (map fst display_cols) ->
  dict_getitem display_cols c = inr (display_label c).
Proof.
  simpl. intros [<-|[<-|[<-|[<-|[<-|[]]]]]]; reflexivity.
Qed.

Lemma display_label_inj c c' :
  In c (map fst display_cols) -> In c' (map fst display_cols) ->
  display_label c = display_label c' -> c = c'.
Proof.
  simpl.
  intros [<-|[<-|[<-|[<-|[<-|[]]]]]] [<-|[<-|[<-|[<-|[<-|[]]]]]];
    (reflexivity || (intros H; discriminate H)).
Qed.

Lemma present_columns_spec df c :
  In c (present_columns df) <->
  In c (map fst display_cols) /\ has_column df c = true.
Proof. unfold present_columns. apply filter_In. Qed.

Lemma mapE_In {A B} (f : A -> exn + B) (g : A -> B) (l : list A) :
  (forall a, In a l -> f a = inr (g a)) -> mapE f l = inr (map g l).
Proof.
  induction l as [|a l IH]; simpl; intros H; [reflexivity|].
  rewrite (H a (or_introl eq_refl)), IH; [reflexivity|].
  intros b Hb. apply H. right. exact Hb.
Qed.

(** The table before any number is formatted. *)
Lemma renamed_table_numeric df c :
  In c (map fst display_cols) ->
  numeric_column df c ->
  numeric_column
    {| columns := map display_label (present_columns df);
       values := map (fun row => map (fun c => cell_of df c row) (present_columns df))
                     (values df) |}
    (display_label c).
Proof.
  intros Hkey Hnum s. unfold df_getitem. cbn [columns values].
  destruct (index_of (display_label c) (map display_label (present_columns df)))
    as [i|] eqn:Hi; [|discriminate].
  intros [= <-]. apply index_of_nth in Hi. destruct Hi as [Hnth Hlt].
  rewrite length_map in Hlt.
  change "" with (display_label "") in Hnth. rewrite map_nth in Hnth.
  assert (Hin : In (nth i (present_columns df) "") (present_columns df))
    by (apply nth_In; exact Hlt).
  apply present_columns_spec in Hin. destruct Hin as [Hkey' Hhas].
  apply display_label_inj in Hnth; [|assumption|assumption].
  rewrite map_map.
  assert (Heq : map (fun row => nth i (map (fun c0 => cell_of df c0 row)
                                          (present_columns df)) NA) (values df)
                = map (cell_of df c) (values df)).
  { apply map_ext. intros row.
    rewrite (nth_indep _ NA ((fun c0 => cell_of df c0 row) ""))
      by (rewrite length_map; exact Hlt).
    rewrite (map_nth (fun c0 => cell_of df c0 row) (present_columns df) "" i), Hnth.
    reflexivity. }
  rewrite Heq. apply Hnum. rewrite <- Hnth. apply df_getitem_cells, Hhas.
Qed.

Lemma numeric_column_after df c f df' c' :
  apply_if_present df c f = inr df' -> c' <> c ->
  numeric_column df c' -> numeric_column df' c'.
Proof.
  intros Happ Hne Hnum s. rewrite (apply_if_present_other _ _ _ _ _ Happ Hne).
  apply Hnum.
Qed.

Lemma summary_table_ok df :
  numeric_column df "population" ->
  numeric_column df "total_incidents" ->
  numeric_column df "incidents_per_1000_pop" ->
  numeric_column df "pct_single_family" ->
  exists t,
    summary_table df = inr t /\
    columns t = map display_label (present_columns df).
Proof.
  intros Hpop Htot Hrate Hpct. unfold summary_table. fold (present_columns df).
  rewrite select_columns_present
    by (apply List.Forall_forall; intros c Hc; apply present_columns_spec in Hc; tauto).
  cbn [columns values].
  rewrite (mapE_In _ display_label)
    by (intros c Hc; apply present_columns_spec in Hc;
        apply display_label_getitem; tauto).
  set (t0 := {| columns := map display_label (present_columns df);
                values := map (fun row => map (fun c => cell_of df c row)
                                             (present_columns df)) (values df) |}).
  assert (H0pop : numeric_column t0 "Population")
    by (apply (renamed_table_numeric df "population"); [simpl; tauto|exact Hpop]).
  assert (H0tot : numeric_column t0 "Total Incidents")
    by (apply (renamed_table_numeric df "total_incidents"); [simpl; tauto|exact Htot]).
  assert (H0rate : numeric_column t0 "Rate per 1,000 Pop")
    by (apply (renamed_table_numeric df "incidents_per_1000_pop");
        [simpl; tauto|exact Hrate]).
  assert (H0pct : numeric_column t0 "% Single-Family")
    by (apply (renamed_table_numeric df "pct_single_family");
        [simpl; tauto|exact Hpct]).
  destruct (apply_if_present_ok t0 "Population" (format_f true 0) H0pop
              (format_f_ok true 0)) as [t1 H1].
  rewrite H1.
  assert (H1tot : numeric_column t1 "Total Incidents")
    by (apply (numeric_column_after _ _ _ _ _ H1); [discriminate|exact H0tot]).
  assert (H1rate : numeric_column t1 "Rate per 1,000 Pop")
    by (apply (numeric_column_after _ _ _ _ _ H1); [discriminate|exact H0rate]).
  assert (H1pct : numeric_column t1 "% Single-Family")
    by (apply (numeric_column_after _ _ _ _ _ H1); [discriminate|exact H0pct]).
  destruct (apply_if_present_ok t1 "Total Incidents" (format_f true 0) H1tot
              (format_f_ok true 0)) as [t2 H2].
  rewrite H2.
  assert (H2rate : numeric_column t2 "Rate per 1,000 Pop")
    by (apply (numeric_column_after _ _ _ _ _ H2); [discriminate|exact H1rate]).
  assert (H2pct : numeric_column t2 "% Single-Family")
    by (apply (numeric_column_after _ _ _ _ _ H2); [discriminate|exact H1pct]).
  destruct (apply_if_present_ok t2 "Rate per 1,000 Pop" (format_f false 2) H2rate
              (format_f_ok false 2)) as [t3 H3].
  rewrite H3.
  assert (H3pct : numeric_column t3 "% Single-Family")
    by (apply (numeric_column_after _ _ _ _ _ H3); [discriminate|exact H2pct]).
  destruct (apply_if_present_ok t3 "% Single-Family"
              (fun c => percent (format_f false 1 c)) H3pct
              (percent_format_f_ok false 1)) as [t4 H4].
  exists t4. split; [exact H4|].
  rewrite (apply_if_present_columns _ _ _ _ H4), (apply_if_present_columns _ _ _ _ H3),
    (apply_if_present_columns _ _ _ _ H2), (apply_if_present_columns _ _ _ _ H1).
  reflexivity.
Qed.

(** *** The cells of the table image *)

Lemma renamed_table_column df c :
  In c (map fst display_cols) ->
  has_column df c = true ->
  df_getitem
    {| columns := map display_label (present_columns df);
       values := map (fun row => map (fun c => cell_of df c row) (present_columns df))
                     (values df) |}
    (display_label c)
  = df_getitem df c.
Proof.
  intros Hkey Hhas.
  assert (Hin : In c (present_columns df)) by (apply present_columns_spec; tauto).
  destruct (index_of_In _ _ (in_map display_label _ _ Hin)) as [i Hi].
  unfold df_getitem at 1. cbn [columns values]. rewrite Hi.
  apply index_of_nth in Hi. destruct Hi as [Hnth Hlt].
  rewrite length_map in Hlt.
  change "" with (display_label "") in Hnth. rewrite map_nth in Hnth.
  assert (Hin' : In (nth i (present_columns df) "") (present_columns df))
    by (apply nth_In; exact Hlt).
  apply present_columns_spec in Hin'. destruct Hin' as [Hkey' _].
  apply display_label_inj in Hnth; [|assumption|assumption].
  rewrite (df_getitem_cells _ _ Hhas), map_map. f_equal.
  apply map_ext. intros row.
  rewrite (nth_indep _ NA ((fun c0 => cell_of df c0 row) ""))
    by (rewrite length_map; exact Hlt).
  rewrite (map_nth (fun c0 => cell_of df c0 row) (present_columns df) "" i), Hnth.
  reflexivity.
Qed.

Lemma renamed_table_rectangular df :
  rectangular
    {| columns := map display_label (present_columns df);
       values := map (fun row => map (fun c => cell_of df c row) (present_columns df))
                     (values df) |}.
Proof.
  unfold rectangular. cbn [columns values]. apply List.Forall_forall.
  intros row Hrow. apply in_map_iff in Hrow. destruct Hrow as (row0 & <- & _).
  rewrite !length_map. reflexivity.
Qed.

Lemma mapE_shown (f : cell -> exn + string) (s : Series) (texts : list string) :
  mapE f s = inr texts ->
  map Str texts = map (shown f) s /\ Forall (fun x => exists t, f x = inr t) s.
Proof.
  revert texts. induction s as [|x s IH]; simpl; intros texts.
  - intros [= <-]. split; [reflexivity|constructor].
  - unfold shown at 1. destruct (f x) as [e|t] eqn:Hx; [discriminate|].
    destruct (mapE f s) as [e|ts]; [discriminate|].
    intros [= <-]. destruct (IH ts eq_refl) as [IH1 IH2].
    split; [simpl; rewrite IH1; reflexivity|]. constructor; eauto.
Qed.

Lemma zip_rows_own (i : nat) (rows : list (list cell)) (s : Series) :
  length s = length rows ->
  Forall (fun row => (i < length row)%nat) rows ->
  map (fun row => nth i row NA) (zip_rows (fun row x => set_nth i x row) rows s) = s.
Proof.
  intros Hlen Hrows. revert s Hlen.
  induction Hrows as [|row rows Hrow _ IH]; intros [|x s]; simpl; try discriminate;
    [reflexivity|].
  intros [= Hlen]. rewrite (nth_set_nth_eq _ _ _ Hrow), (IH _ Hlen). reflexivity.
Qed.

Lemma zip_rows_rectangular (i n : nat) (rows : list (list cell)) (s : Series) :
  Forall (fun row => length row = n) rows ->
  Forall (fun row => length row = n) (zip_rows (fun row x => set_nth i x row) rows s).
Proof.
  intros Hrows. revert s.
  induction Hrows as [|row rows Hrow _ IH]; intros [|x s]; simpl; constructor.
  - rewrite length_set_nth. exact Hrow.
  - apply IH.
Qed.

(** One formatting step: the column that is formatted, every other column,
    and the shape of the table. *)
Lemma apply_if_present_step df c f df' name s :
  apply_if_present df c f = inr df' ->
  rectangular df ->
  df_getitem df name = inr s ->
  rectangular df' /\
  df_getitem df' name = inr (if String.eqb name c then map (shown f) s else s) /\
  (name = c -> Forall (fun x => exists t, f x = inr t) s).
Proof.
  intros Happ Hrect Hs.
  destruct (String.eqb_spec name c) as [->|Hne].
  - revert Happ. unfold apply_if_present, has_column.
    pose proof Hs as Hs'. unfold df_getitem in Hs'.
    destruct (index_of c (columns df)) as [i|] eqn:Hi; [|discriminate].
    injection Hs' as Hs'. rewrite Hs. 
    destruct (mapE f s) as [e|texts] eqn:Ht; [discriminate|].
    destruct (mapE_shown _ _ _ Ht) as [Hshown Hall].
    apply mapE_length in Ht.
    assert (Hlen : length (map Str texts) = length (values df)).
    { rewrite length_map, Ht, <- Hs', length_map. reflexivity. }
    unfold df_setitem. rewrite Hlen, Nat.eqb_refl, Hi. cbn [negb].
    intros [= <-]. split; [|split].
    + unfold rectangular. cbn [columns values]. apply zip_rows_rectangular, Hrect.
    + unfold df_getitem. cbn [columns values]. rewrite Hi. f_equal.
      rewrite zip_rows_own; [exact Hshown|exact Hlen|].
      unfold rectangular in Hrect. eapply List.Forall_impl; [|exact Hrect].
      intros row Hrow. cbv beta in Hrow. rewrite Hrow.
      apply index_of_nth in Hi. tauto.
    + intros _. exact Hall.
  - split; [|split].
    + revert Happ. unfold apply_if_present, has_column, df_getitem, df_setitem.
      destruct (index_of c (columns df)) as [i|]; [|intros [= <-]; exact Hrect].
      destruct (mapE f _); [discriminate|].
      destruct (negb _); [discriminate|]. intros [= <-].
      unfold rectangular. cbn [columns values]. apply zip_rows_rectangular, Hrect.
    + rewrite (apply_if_present_other _ _ _ _ _ Happ Hne). exact Hs.
    + intros H. contradiction.
Qed.

Lemma apply_if_present_error df c f e :
  (forall x e', f x = inl e' -> e' = format_error) ->
  apply_if_present df c f = inl e -> e = format_error.
Proof.
  intros Hf. unfold apply_if_present, has_column, df_getitem, df_setitem.
  destruct (index_of c (columns df)) as [i|]; [|discriminate].
  destruct (mapE f _) as [e'|texts] eqn:Ht.
  - intros [= <-]. clear -Hf Ht.
    induction (map (fun row => nth i row NA) (values df)) as [|x s IH];
      simpl in Ht; [discriminate|].
    destruct (f x) as [e1|t] eqn:Hx; [injection Ht as <-; eauto|].
    destruct (mapE f s) as [e2|ts]; [injection Ht as <-; auto|discriminate].
  - apply mapE_length in Ht. rewrite length_map in Ht.
    rewrite length_map, Ht, Nat.eqb_refl. discriminate.
Qed.

Lemma format_f_error comma decimals x e :
  format_f comma decimals x = inl e -> e = format_error.
Proof. destruct x; simpl; intros [= <-]; reflexivity. Qed.

Lemma percent_format_f_error comma decimals x e :
  percent (format_f comma decimals x) = inl e -> e = format_error.
Proof. destruct x; simpl; intros [= <-]; reflexivity. Qed.

Lemma format_f_formattable comma decimals x t :
  format_f comma decimals x = inr t -> formattable x.
Proof. destruct x; simpl; intros H; try discriminate; exact I. Qed.

Lemma percent_format_f_formattable comma decimals x t :
  percent (format_f comma decimals x) = inr t -> formattable x.
Proof. destruct x; simpl; intros H; try discriminate; exact I. Qed.

(** The table image, column by column. *)
Lemma summary_table_columns df t c cells :
  summary_table df = inr t ->
  In c (map fst display_cols) ->
  df_getitem df c = inr cells ->
  df_getitem t (display_label c) = inr (map (display_cell c) cells) /\
  (In c formatted_columns -> Forall formattable cells).
Proof.
  intros Ht Hkey Hcells.
  assert (Hhas : has_column df c = true).
  { unfold has_column. unfold df_getitem in Hcells.
    destruct (index_of c (columns df)); [reflexivity|discriminate]. }
  revert Ht. unfold summary_table. fold (present_columns df).
  rewrite select_columns_present
    by (apply List.Forall_forall; intros c0 Hc0; apply present_columns_spec in Hc0; tauto).
  cbn [columns values].
  rewrite (mapE_In _ display_label)
    by (intros c0 Hc0; apply present_columns_spec in Hc0;
        apply display_label_getitem; tauto).
  pose proof (renamed_table_column df c Hkey Hhas) as H0.
  pose proof (renamed_table_rectangular df) as R0.
  set (t0 := {| columns := map display_label (present_columns df);
                values := map (fun row => map (fun c => cell_of df c row)
                                             (present_columns df)) (values df) |}) in *.
  rewrite Hcells in H0.
  destruct (apply_if_present t0 _ _) as [e|t1] eqn:E1; [discriminate|].
  destruct (apply_if_present t1 _ _) as [e|t2] eqn:E2; [discriminate|].
  destruct (apply_if_present t2 _ _) as [e|t3] eqn:E3; [discriminate|].
  intros E4.
  destruct (apply_if_present_step _ _ _ _ _ _ E1 R0 H0) as (R1 & H1 & F1).
  destruct (apply_if_present_step _ _ _ _ _ _ E2 R1 H1) as (R2 & H2 & F2).
  destruct (apply_if_present_step _ _ _ _ _ _ E3 R2 H2) as (R3 & H3 & F3).
  destruct (apply_if_present_step _ _ _ _ _ _ E4 R3 H3) as (R4 & H4 & F4).
  clear E1 E2 E3 E4 R0 R1 R2 R3 R4 H0 H1 H2 H3.
  simpl in Hkey.
  destruct Hkey as [<-|[<-|[<-|[<-|[<-|[]]]]]]; split;
    try exact H4;
    try (intros _; first
           [ specialize (F1 eq_refl); eapply List.Forall_impl; [|exact F1];
             intros x [tx Hx]; exact (format_f_formattable _ _ _ _ Hx)
           | specialize (F2 eq_refl); eapply List.Forall_impl; [|exact F2];
             intros x [tx Hx]; exact (format_f_formattable _ _ _ _ Hx)
           | specialize (F3 eq_refl); eapply List.Forall_impl; [|exact F3];
             intros x [tx Hx]; exact (format_f_formattable _ _ _ _ Hx)
           | specialize (F4 eq_refl); eapply List.Forall_impl; [|exact F4];
             intros x [tx Hx]; exact (percent_format_f_formattable _ _ _ _ Hx) ]).
  - rewrite H4. f_equal. symmetry. apply map_id.
  - unfold formatted_columns. simpl. intros [H|[H|[H|[H|[]]]]]; discriminate H.
Qed.

Lemma summary_table_error df e :
  summary_table df = inl e -> e = format_error.
Proof.
  unfold summary_table. fold (present_columns df).
  rewrite select_columns_present
    by (apply List.Forall_forall; intros c0 Hc0; apply present_columns_spec in Hc0; tauto).
  cbn [columns values].
  rewrite (mapE_In _ display_label)
    by (intros c0 Hc0; apply present_columns_spec in Hc0;
        apply display_label_getitem; tauto).
  destruct (apply_if_present _ "Population" _) as [e1|t1] eqn:E1.
  { intros [= <-]. eapply apply_if_present_error; [|exact E1]. apply format_f_error. }
  destruct (apply_if_present t1 _ _) as [e2|t2] eqn:E2.
  { intros [= <-]. eapply apply_if_present_error; [|exact E2]. apply format_f_error. }
  destruct (apply_if_present t2 _ _) as [e3|t3] eqn:E3.
  { intros [= <-]. eapply apply_if_present_error; [|exact E3]. apply format_f_error. }
  intros E4.
  eapply apply_if_present_error; [|exact E4]. apply percent_format_f_error.
Qed.

(** *** The shape of the table image *)

Lemma apply_if_present_shape df c f df' :
  apply_if_present df c f = inr df' ->
  rectangular df ->
  rectangular df' /\ length (values df') = length (values df).
Proof.
  unfold apply_if_present, has_column, df_getitem, df_setitem.
  destruct (index_of c (columns df)) as [i|]; [|intros [= <-]; auto].
  destruct (mapE f _) as [e|texts]; [discriminate|].
  destruct (length (map Str texts) =? length (values df))%nat eqn:Hlen;
    [|discriminate].
  cbn [negb]. intros [= <-] Hrect. apply Nat.eqb_eq in Hlen.
  unfold rectangular. cbn [columns values]. split.
  - apply zip_rows_rectangular, Hrect.
  - apply zip_rows_length, Hlen.
Qed.

Lemma summary_table_shape df t :
  summary_table df = inr t ->
  columns t = map display_label (present_columns df) /\
  rectangular t /\
  length (values t) = length (values df).
Proof.
  unfold summary_table. fold (present_columns df).
  rewrite select_columns_present
    by (apply List.Forall_forall; intros c0 Hc0; apply present_columns_spec in Hc0; tauto).
  cbn [columns values].
  rewrite (mapE_In _ display_label)
    by (intros c0 Hc0; apply present_columns_spec in Hc0;
        apply display_label_getitem; tauto).
  pose proof (renamed_table_rectangular df) as R0.
  set (t0 := {| columns := map display_label (present_columns df);
                values := map (fun row => map (fun c => cell_of df c row)
                                             (present_columns df)) (values df) |}) in *.
  assert (L0 : length (values t0) = length (values df))
    by (unfold t0; cbn [values]; apply length_map).
  destruct (apply_if_present t0 _ _) as [e|t1] eqn:E1; [discriminate|].
  destruct (apply_if_present t1 _ _) as [e|t2] eqn:E2; [discriminate|].
  destruct (apply_if_present t2 _ _) as [e|t3] eqn:E3; [discriminate|].
  intros E4.
  destruct (apply_if_present_shape _ _ _ _ E1 R0) as [R1 L1].
  destruct (apply_if_present_shape _ _ _ _ E2 R1) as [R2 L2].
  destruct (apply_if_present_shape _ _ _ _ E3 R2) as [R3 L3].
  destruct (apply_if_present_shape _ _ _ _ E4 R3) as [R4 L4].
  split; [|split; [exact R4|congruence]].
  rewrite (apply_if_present_columns _ _ _ _ E4), (apply_if_present_columns _ _ _ _ E3),
    (apply_if_present_columns _ _ _ _ E2), (apply_if_present_columns _ _ _ _ E1).
  reflexivity.
Qed.

(** [ax.table] accepts a table with a row and a column. *)
Lemma ax_table_ok t :
  rectangular t -> values t <> [] -> columns t <> [] ->
  ax_table (columns t) (values t) = inr tt.
Proof.
  unfold rectangular, ax_table. intros Hrect Hrows Hcols.
  destruct (values t) as [|row rows]; [congruence|].
  inversion Hrect as [|? ? Hrow _]. rewrite Hrow.
  destruct (columns t); [congruence|reflexivity].
Qed.

Lemma create_summary_table_image_cases summary_df filename w df :
  frames w !! summary_df = Some df ->
  create_summary_table_image summary_df filename w =
  match table_image_of df with
  | inl e =>
      ({| frames := frames w; outputs := outputs w;
          console := console w ++ ["  Creating: " +:+ filename] |}, inl e)
  | inr image =>
      ({| frames := frames w;
          outputs := <[filename := image]> (outputs w);
          console := (console w ++ ["  Creating: " +:+ filename])
                       ++ ["    ✓ Saved: outputs/" +:+ filename] |}, inr tt)
  end.
Proof.
  intros Hdf.
  unfold create_summary_table_image, mbind, M_bind, bind, lift, print, save, read_frame.
  unfold table_image_of.
  cbn [frames]. rewrite Hdf. destruct (summary_table df) as [e|t]; [reflexivity|].
  destruct (ax_table (columns t) (values t)) as [e|[]]; reflexivity.
Qed.

(** The table image of a table with a row, one of the display columns and
    numbers in its numeric columns. *)
Lemma table_image_ok df :
  values df <> [] ->
  present_columns df <> [] ->
  numeric_column df "population" ->
  numeric_column df "total_incidents" ->
  numeric_column df "incidents_per_1000_pop" ->
  numeric_column df "pct_single_family" ->
  exists t,
    summary_table df = inr t /\
    table_image_of df = inr (TableImage (columns t) (values t)).
Proof.
  intros Hrows Hcols Hpop Htot Hrate Hpct.
  destruct (summary_table_ok df Hpop Htot Hrate Hpct) as (t & Ht & _).
  exists t. split; [exact Ht|].
  destruct (summary_table_shape _ _ Ht) as (Hc & Hrect & Hlen).
  unfold table_image_of. rewrite Ht, ax_table_ok; [reflexivity|exact Hrect| |].
  - intros H. rewrite H in Hlen. destruct (values df); [congruence|discriminate].
  - rewrite Hc. intros H. apply map_eq_nil in H. contradiction.
Qed.



(** The rendered table of the sample without [total_incidents]. *)
Example table_image_without_total :
  table_image_of summary_without_total =
  inr (TableImage
         ["Classification"; "Population"; "Rate per 1,000 Pop"; "% Single-Family"]
         [[Str "outer_suburban"; Str "412,000"; Str "3.10"; Str "78.1%"];
          [Str "urban_core"; Str "98,000"; Str "5.20"; Str "12.0%"];
          [Str "inner_suburban"; Str "305,500"; Str "4.00"; Str "45.2%"]]).
Proof. vm_compute. reflexivity. Qed.


(** ** Sorting *)

Section SortFacts.

Context {A : Type} (le : A -> A -> bool).
Hypothesis le_total : forall a b, le a b = true \/ le b a = true.
Hypothesis le_trans : forall a b c, le a b = true -> le b c = true -> le a c = true.

Lemma insert_sorted_perm (x : A) (l : list A) :
  Permutation (insert_sorted le x l) (x :: l).
Proof.
  induction l as [|y l IH]; simpl; [reflexivity|].
  destruct (le x y); [reflexivity|].
  rewrite IH. apply perm_swap.
Qed.

Lemma stable_sort_perm (l : list A) : Permutation (stable_sort le l) l.
Proof.
  induction l as [|x l IH]; simpl; [reflexivity|].
  rewrite insert_sorted_perm, IH. reflexivity.
Qed.

Lemma insert_sorted_sorted (x : A) (l : list A) :
  StronglySorted (fun a b => le a b = true) l ->
  StronglySorted (fun a b => le a b = true) (insert_sorted le x l).
Proof.
  induction 1 as [|y l Hs IH Hy]; simpl.
  - repeat constructor.
  - destruct (le x y) eqn:Hxy.
    + constructor; [constructor; assumption|].
      constructor; [exact Hxy|].
      eapply List.Forall_impl; [|exact Hy]. intros a Ha. exact (le_trans _ _ _ Hxy Ha).
    + constructor; [exact IH|].
      assert (Hyx : le y x = true) by (destruct (le_total x y); congruence).
      apply List.Forall_forall. intros a Ha.
      apply (Permutation_in _ (insert_sorted_perm x l)) in Ha.
      destruct Ha as [<-|Ha]; [exact Hyx|].
      rewrite List.Forall_forall in Hy. exact (Hy a Ha).
Qed.

Lemma stable_sort_sorted (l : list A) :
  StronglySorted (fun a b => le a b = true) (stable_sort le l).
Proof.
  induction l as [|x l IH]; simpl; [constructor|].
  apply insert_sorted_sorted, IH.
Qed.

End SortFacts.

Lemma code_le_total a b : code_le a b = true \/ code_le b a = true.
Proof.
  destruct a, b; simpl; auto.
  destruct (Nat.leb_spec code code0); [auto|]. right. apply Nat.leb_le. lia.
Qed.

Lemma code_le_trans a b c :
  code_le a b = true -> code_le b c = true -> code_le a c = true.
Proof.
  destruct a, b, c; simpl; try congruence.
  rewrite !Nat.leb_le. lia.
Qed.



Lemma row_le_total i a b : row_le i a b = true \/ row_le i b a = true.
Proof. apply code_le_total. Qed.

Lemma row_le_trans i a b c :
  row_le i a b = true -> row_le i b c = true -> row_le i a c = true.
Proof. apply code_le_trans. Qed.

(** The sort of the two libraries of the examples is a sort. *)
Lemma stable_sort_sorting (lib : Libraries) :
  sort_rows lib = @stable_sort (list cell) -> sorting lib.
Proof.
  intros E le l Htotal Htrans. rewrite E. split.
  - apply stable_sort_perm.
  - apply stable_sort_sorted; assumption.
Qed.

Lemma raising_release_sorting : sorting raising_release.
Proof. apply stable_sort_sorting. reflexivity. Qed.

(** ** The bar chart *)

Lemma create_bar_chart_run lib summary_df filename w df :
  frames w !! summary_df = Some df ->
  create_bar_chart lib summary_df filename w =
  match categorized df with
  | inl e =>
      ({| frames := frames w; outputs := outputs w;
          console := console w ++ ["  Creating: " +:+ filename] |}, inl e)
  | inr df1 =>
      match bar_chart_of lib df1 with
      | inl e =>
          ({| frames := <[summary_df := df1]> (frames w); outputs := outputs w;
              console := console w ++ ["  Creating: " +:+ filename] |}, inl e)
      | inr chart =>
          ({| frames := <[summary_df := df1]> (frames w);
              outputs := <[filename := chart]> (outputs w);
              console := (console w ++ ["  Creating: " +:+ filename])
                           ++ ["    ✓ Saved: outputs/" +:+ filename] |}, inr tt)
      end
  end.
Proof.
  intros Hdf.
  unfold create_bar_chart, mbind, M_bind, bind, lift, print, save, read_frame,
    write_frame.
  cbn [frames outputs console]. rewrite Hdf. unfold categorized, bar_chart_of.
  destruct (df_getitem df "urban_class") as [e|classes]; [reflexivity|].
  destruct (df_setitem df "urban_class" (Categorical classes order)) as [e|df1];
    [reflexivity|].
  cbn [frames outputs console].
  destruct (sort_values lib df1 "urban_class") as [e|sorted]; [reflexivity|].
  destruct (df_getitem sorted "urban_class") as [e|classes']; [reflexivity|].
  destruct (df_getitem sorted "incidents_per_1000_pop") as [e|rate]; [reflexivity|].
  destruct (ax_bar (map x_label classes')) as [e|[]]; [reflexivity|].
  destruct (mapE (format_f false 2) rate) as [e|rate_text]; [reflexivity|].
  destruct (df_getitem sorted "pct_single_family") as [e|housing]; [reflexivity|].
  destruct (mapE _ housing) as [e|housing_text]; reflexivity.
Qed.

Lemma categorized_rows df ic :
  index_of "urban_class" (columns df) = Some ic ->
  categorized df =
  inr {| columns := columns df;
         values := map (fun row => set_nth ic (categorize order (nth ic row NA)) row)
                       (values df) |}.
Proof.
  intros Hic. unfold categorized, df_getitem, df_setitem, Categorical.
  rewrite Hic, !length_map, Nat.eqb_refl. cbn [negb].
  rewrite map_map, zip_rows_map. reflexivity.
Qed.

Lemma sort_values_rows lib df c i :
  index_of c (columns df) = Some i ->
  sort_values lib df c =
  inr {| columns := columns df; values := sort_rows lib (row_le i) (values df) |}.
Proof. intros Hi. unfold sort_values. rewrite Hi. reflexivity. Qed.

Lemma df_getitem_rows df c i :
  index_of c (columns df) = Some i ->
  df_getitem df c = inr (map (fun row => nth i row NA) (values df)).
Proof. intros Hi. unfold df_getitem. rewrite Hi. reflexivity. Qed.

(** *** The labels that [ax.bar] accepts *)

Lemma categorize_cases categories c :
  categorize categories c = NA \/ exists i s, categorize categories c = Cat i s.
Proof.
  destruct c as [|q|s|i s]; simpl; auto;
    destruct (index_of s categories); eauto.
Qed.

Lemma label_of_known c :
  known_class c -> is_text (x_label (categorize order c)) = true.
Proof.
  unfold known_class. intros H.
  destruct (categorize_cases order c) as [E|(i & s & E)]; [contradiction|].
  rewrite E. reflexivity.
Qed.


Lemma ax_bar_texts (x_labels : list cell) :
  Forall (fun c => is_text c = true) x_labels -> ax_bar x_labels = inr tt.
Proof.
  intros H. unfold ax_bar.
  rewrite (proj2 (forallb_forall is_text x_labels))
    by (apply List.Forall_forall; exact H).
  rewrite andb_false_r. reflexivity.
Qed.


Section BarChart.

Variables (lib : Libraries) (df : DataFrame) (ic ir ih : nat).
Hypothesis Hsort : sorting lib.
Hypothesis Hic : index_of "urban_class" (columns df) = Some ic.
Hypothesis Hir : index_of "incidents_per_1000_pop" (columns df) = Some ir.
Hypothesis Hih : index_of "pct_single_family" (columns df) = Some ih.
Hypothesis Hrect : rectangular df.
Hypothesis Hrate : numeric_column df "incidents_per_1000_pop".
Hypothesis Hhousing : numeric_column df "pct_single_family".

Let rows1 : list (list cell) :=
  map (fun row => set_nth ic (categorize order (nth ic row NA)) row) (values df).

Let sorted : list (list cell) := sort_rows lib (row_le ic) rows1.

Lemma ir_ne_ic : ir <> ic.
Proof. intros ->. pose proof (index_of_inj _ _ _ _ Hic Hir). discriminate. Qed.

Lemma ih_ne_ic : ih <> ic.
Proof. intros ->. pose proof (index_of_inj _ _ _ _ Hic Hih). discriminate. Qed.

Lemma sorted_perm_rows : Permutation sorted rows1.
Proof.
  apply (Hsort (row_le ic) rows1).
  - apply row_le_total.
  - apply row_le_trans.
Qed.

Lemma sorted_formattable i c :
  i <> ic ->
  index_of c (columns df) = Some i ->
  numeric_column df c ->
  Forall formattable (map (fun row => nth i row NA) sorted).
Proof.
  intros Hne Hi Hnum. apply List.Forall_forall. intros x Hx.
  apply in_map_iff in Hx. destruct Hx as (row & <- & Hrow).
  apply (Permutation_in _ sorted_perm_rows) in Hrow.
  apply in_map_iff in Hrow. destruct Hrow as (row0 & <- & Hrow0).
  rewrite (nth_set_nth_ne _ _ _ _ Hne).
  pose proof (Hnum _ (df_getitem_rows _ _ _ Hi)) as Hall.
  rewrite List.Forall_forall in Hall. apply Hall.
  apply in_map_iff. eauto.
Qed.

Lemma bar_of_row row :
  In row (values df) ->
  (let row1 := set_nth ic (categorize order (nth ic row NA)) row in
   (nth ic row1 NA, nth ir row1 NA, nth ih row1 NA)) = bar_of df row.
Proof.
  intros Hin. cbv zeta. unfold bar_of, cell_of. rewrite Hic, Hir, Hih.
  rewrite (nth_set_nth_ne _ _ _ _ ir_ne_ic), (nth_set_nth_ne _ _ _ _ ih_ne_ic).
  rewrite nth_set_nth_eq; [reflexivity|].
  unfold rectangular in Hrect. rewrite List.Forall_forall in Hrect.
  rewrite (Hrect _ Hin). apply index_of_nth in Hic. tauto.
Qed.


Lemma bar_chart_of_rows :
  exists rate_text housing_text,
    bar_chart_of lib {| columns := columns df; values := rows1 |} =
    match ax_bar (map x_label (map (fun row => nth ic row NA) sorted)) with
    | inl e => inl e
    | inr _ =>
        inr (BarChart (map x_label (map (fun row => nth ic row NA) sorted))
               (map (fun row => nth ir row NA) sorted) rate_text
               (map (fun row => nth ih row NA) sorted) housing_text
               bar_colors)
    end.
Proof.
  unfold bar_chart_of.
  rewrite (sort_values_rows lib _ _ ic) by exact Hic. cbn [columns values].
  fold sorted.
  rewrite (df_getitem_rows _ _ ic) by exact Hic.
  rewrite (df_getitem_rows _ _ ir) by exact Hir.
  rewrite (df_getitem_rows _ _ ih) by exact Hih.
  cbn [columns values].
  destruct (mapE_Forall _ _ _ (format_f_ok false 2)
              (sorted_formattable ir _ ir_ne_ic Hir Hrate)) as [rate_text ->].
  destruct (mapE_Forall _ (fun c => percent (format_f false 0 c)) _
              (percent_format_f_ok false 0)
              (sorted_formattable ih _ ih_ne_ic Hih Hhousing)) as [housing_text ->].
  exists rate_text, housing_text.
  destruct (ax_bar _) as [e|[]]; reflexivity.
Qed.



Lemma sorted_classes_perm :
  Permutation (map (fun row => nth ic row NA) sorted)
              (map (fun row => categorize order (cell_of df "urban_class" row))
                   (values df)).
Proof.
  rewrite sorted_perm_rows. unfold rows1. rewrite map_map.
  erewrite map_ext_in; [reflexivity|].
  intros row Hrow. pose proof (bar_of_row row Hrow) as H. cbv zeta in H.
  unfold bar_of in H. congruence.
Qed.

(** With every class in the display order all labels are strings. *)
Lemma labels_in_order :
  classes_in_order df ->
  ax_bar (map x_label (map (fun row => nth ic row NA) sorted)) = inr tt.
Proof.
  intros Hall. apply ax_bar_texts. rewrite sorted_classes_perm, !Forall_map.
  eapply List.Forall_impl; [|exact Hall].
  intros row Hrow. cbv beta. apply label_of_known, Hrow.
Qed.


End BarChart.






(** The three classes given as outer_suburban, urban_core, inner_suburban
    are drawn as urban_core, inner_suburban, outer_suburban. *)
Example bar_chart_three_classes :
  outputs (fst (create_bar_chart raising_release 0 "chart_urban_comparison.png"
                  (world_of summary_three)))
    !! "chart_urban_comparison.png" =
  Some (BarChart three_labels
          [Num (52 # 10); Num (4 # 1); Num (31 # 10)] ["5.20"; "4.00"; "3.10"]
          [Num (12 # 1); Num (905 # 20); Num (781 # 10)] ["12%"; "45%"; "78%"]
          bar_colors).
Proof. vm_compute. reflexivity. Qed.




(** ** Running [main] *)

Lemma bind_apply {A B} (m : M A) (k : A -> M B) (w : World) :
  (m ≫= k) w =
  match m w with
  | (w', inl e) => (w', inl e)
  | (w', inr a) => k a w'
  end.
Proof. reflexivity. Qed.

Lemma print_all_run lines w :
  print_all lines w =
  ({| frames := frames w; outputs := outputs w; console := console w ++ lines |},
   inr tt).
Proof.
  revert w. induction lines as [|l lines IH]; intros w; simpl.
  - rewrite app_nil_r. destruct w; reflexivity.
  - rewrite bind_apply. unfold print at 1. rewrite IH. cbn [frames outputs console].
    rewrite <- app_assoc. reflexivity.
Qed.

Lemma main_report_run w :
  exists lines,
    main_report w =
    ({| frames := frames w; outputs := outputs w; console := console w ++ lines |},
     inr tt).
Proof.
  unfold main_report, mbind, M_bind, bind, print, list_outputs.
  rewrite print_all_run. cbn [frames outputs console].
  eexists. rewrite <- !app_assoc. reflexivity.
Qed.

(** ** Writes to the output directory *)

Lemma lookup_apply_writes ws o f :
  apply_writes ws o !! f =
  match last_write ws f with
  | Some b => Some b
  | None => o !! f
  end.
Proof.
  revert o. induction ws as [|[g a] ws IH]; intros o; simpl; [reflexivity|].
  rewrite IH. destruct (last_write ws f) as [b|]; [reflexivity|].
  destruct (String.eqb_spec g f) as [->|Hne].
  - apply lookup_insert_eq.
  - apply lookup_insert_ne, Hne.
Qed.

Lemma apply_writes_app ws1 ws2 o :
  apply_writes (ws1 ++ ws2) o = apply_writes ws2 (apply_writes ws1 o).
Proof.
  revert o. induction ws1 as [|[g a] ws1 IH]; intros o; simpl; [reflexivity|].
  apply IH.
Qed.

Lemma last_write_names ws f a :
  last_write ws f = Some a -> In f (map fst ws).
Proof.
  revert a. induction ws as [|[g b] ws IH]; intros a; simpl; [discriminate|].
  destruct (last_write ws f) as [c|].
  - intros _. right. apply (IH c). reflexivity.
  - destruct (String.eqb_spec g f) as [->|_]; [|discriminate]. intros _. left. reflexivity.
Qed.

Lemma last_write_app ws1 ws2 f :
  last_write (ws1 ++ ws2) f =
  match last_write ws2 f with
  | Some b => Some b
  | None => last_write ws1 f
  end.
Proof.
  induction ws1 as [|[g a] ws1 IH]; simpl.
  - destruct (last_write ws2 f); reflexivity.
  - rewrite IH. destruct (last_write ws2 f); reflexivity.
Qed.

(** ** The table after the bar chart *)

Lemma categorized_other df ic c df1 :
  index_of "urban_class" (columns df) = Some ic ->
  categorized df = inr df1 ->
  c <> "urban_class" ->
  df_getitem df1 c = df_getitem df c.
Proof.
  intros Hic. rewrite (categorized_rows _ _ Hic). intros [= <-] Hne.
  unfold df_getitem. cbn [columns values].
  destruct (index_of c (columns df)) as [i|] eqn:Hi; [|reflexivity].
  rewrite map_map. f_equal. apply map_ext. intros row.
  apply nth_set_nth_ne. intros ->. apply Hne.
  exact (index_of_inj _ _ _ _ Hi Hic).
Qed.

Lemma categorized_classes df classes df1 :
  rectangular df ->
  df_getitem df "urban_class" = inr classes ->
  categorized df = inr df1 ->
  df_getitem df1 "urban_class" = inr (Categorical classes order) /\
  columns df1 = columns df.
Proof.
  intros Hrect. unfold df_getitem at 1.
  destruct (index_of "urban_class" (columns df)) as [ic|] eqn:Hic; [|discriminate].
  intros [= <-]. rewrite (categorized_rows _ _ Hic). intros [= <-].
  split; [|reflexivity].
  unfold df_getitem. cbn [columns values]. rewrite Hic.
  unfold Categorical. rewrite !map_map. f_equal.
  apply map_ext_in. intros row Hrow. apply nth_set_nth_eq.
  unfold rectangular in Hrect. rewrite List.Forall_forall in Hrect.
  rewrite (Hrect _ Hrow). apply index_of_nth in Hic. tauto.
Qed.

Lemma categorized_numeric df ic c df1 :
  index_of "urban_class" (columns df) = Some ic ->
  categorized df = inr df1 ->
  c <> "urban_class" ->
  numeric_column df c -> numeric_column df1 c.
Proof.
  intros Hic Hcat Hne Hnum s.
  rewrite (categorized_other _ _ _ _ Hic Hcat Hne). apply Hnum.
Qed.


Lemma categorized_length df df1 :
  categorized df = inr df1 -> length (values df1) = length (values df).
Proof.
  unfold categorized, df_getitem, df_setitem, Categorical.
  destruct (index_of "urban_class" (columns df)) as [i|]; [|discriminate].
  rewrite !length_map, Nat.eqb_refl. cbn [negb]. intros [= <-]. cbn [values].
  apply zip_rows_length. rewrite !length_map. reflexivity.
Qed.


(** ** The maps of [main] *)

Lemma choropleth_map_effect gdf column title filename colormap w :
  In column metric_columns ->
  gdf <> [] ->
  exists w',
    create_choropleth_map true gdf column title filename colormap w = (w', inr tt) /\
    frames w' = frames w /\
    outputs w' = apply_writes (choropleth_write gdf column title filename colormap)
                   (outputs w) /\
    (forall l, In l (console w) -> In l (console w')).
Proof.
  intros Hc Hrows. rewrite (create_choropleth_map_run _ _ _ _ _ _ Hc).
  rewrite (folium_Map_rows _ Hrows). cbv zeta.
  unfold choropleth_write.
  destruct (length _ =? 0)%nat; eexists; (split; [reflexivity|]);
    (split; [reflexivity|]); (split; [reflexivity|]);
    intros l Hl; cbn [console]; rewrite !in_app_iff; tauto.
Qed.

Lemma categorical_map_effect gdf w :
  gdf <> [] ->
  create_categorical_map true gdf "urban_class" "Urban Classification"
    "map_urban_classification.html" None w =
  ({| frames := frames w;
      outputs := <["map_urban_classification.html" :=
                     CategoricalMap (categorical_layer gdf)]> (outputs w);
      console := (console w ++ ["  Creating: map_urban_classification.html"])
                   ++ ["    ✓ Saved: outputs/map_urban_classification.html"] |},
   inr tt).
Proof.
  intros Hrows. unfold create_categorical_map. simpl negb. cbv iota.
  unfold mbind, M_bind, bind, lift, print, save.
  rewrite (folium_Map_rows _ Hrows). reflexivity.
Qed.

(** [main] up to the charts: the tables are loaded and the maps are
    rendered or skipped.  With folium the maps need a table with a row. *)
Lemma main_until_charts_effect lib hf ra summary_urban summary_housing w :
  hf = false \/ ra <> [] ->
  exists w1,
    main lib hf ra summary_urban summary_housing w = main_charts lib ra 0 w1 /\
    frames w1 = <[1%nat := summary_housing]> (<[0%nat := summary_urban]> (frames w)) /\
    outputs w1 = apply_writes (map_writes hf ra) (outputs w) /\
    (forall l, In l (console w) -> In l (console w1)) /\
    (hf = false -> In skip_notice (console w1)).
Proof.
  intros Hmaps. unfold main, load_data.
  destruct hf.
  - destruct Hmaps as [Hmaps|Hrows]; [discriminate|].
    set (w0 := {| frames := <[1%nat := summary_housing]> (<[0%nat := summary_urban]> (frames w));
                  outputs := outputs w;
                  console := ((((((console w ++ [nl +:+ repeat_string "#" 60])
                                ++ ["# FIRE RESOURCE ANALYSIS - VISUALIZATION"])
                                ++ [repeat_string "#" 60])
                                ++ [nl +:+ "Loading data..."])
                                ++ ["  Response areas: " +:+ digits (Z.of_nat (length ra))])
                                ++ [nl +:+ "Creating maps..."]) |}).
    destruct (choropleth_map_effect ra "incidents_per_1000_pop"
                "Fire Incidents per 1,000 Population" "map_incidents_per_capita.html"
                "YlOrRd" w0) as (wa & Ha & Hfa & Hoa & Hca); [simpl; tauto|exact Hrows|].
    pose proof (categorical_map_effect ra wa Hrows) as Hb.
    set (wb := {| frames := frames wa;
                  outputs := <["map_urban_classification.html" :=
                                 CategoricalMap (categorical_layer ra)]> (outputs wa);
                  console := (console wa ++ ["  Creating: map_urban_classification.html"])
                               ++ ["    ✓ Saved: outputs/map_urban_classification.html"] |})
      in *.
    destruct (choropleth_map_effect ra "pct_single_family" "% Single-Family Housing"
                "map_housing_typology.html" "RdYlGn_r" wb)
      as (wc & Hc & Hfc & Hoc & Hcc); [simpl; tauto|exact Hrows|].
    exists {| frames := frames wc; outputs := outputs wc;
              console := console wc ++ [nl +:+ "Creating charts..."] |}.
    split; [|split; [|split; [|split]]].
    + unfold mbind, M_bind, bind, print, write_frame, mret, M_ret, ret.
      cbn [frames outputs console]. fold w0.
      rewrite Ha, Hb, Hc. reflexivity.
    + cbn [frames]. rewrite Hfc. unfold wb. cbn [frames]. rewrite Hfa. reflexivity.
    + cbn [outputs]. rewrite Hoc. unfold wb. cbn [outputs]. rewrite Hoa.
      unfold map_writes. rewrite !apply_writes_app. reflexivity.
    + intros l Hl. cbn [console]. apply in_or_app. left. apply Hcc.
      unfold wb. cbn [console]. rewrite !in_app_iff. left. left. apply Hca.
      unfold w0. cbn [console]. rewrite !in_app_iff. tauto.
    + discriminate.
  - eexists. split; [reflexivity|]. cbn [frames outputs console].
    split; [reflexivity|]. split; [reflexivity|]. split.
    + intros l Hl. rewrite !in_app_iff. tauto.
    + intros _. rewrite !in_app_iff. left. right. left. reflexivity.
Qed.

(** With folium and a table without rows the first map cannot be centred:
    [main] ends there, before any file is written. *)
Lemma main_without_rows lib summary_urban summary_housing w :
  exists w',
    main lib true [] summary_urban summary_housing w =
      (w', inl (ValueError "Location values cannot contain NaNs.")) /\
    frames w' = <[1%nat := summary_housing]> (<[0%nat := summary_urban]> (frames w)) /\
    outputs w' = outputs w /\
    (forall l, In l (console w) -> In l (console w')).
Proof.
  eexists. split; [reflexivity|]. cbn [frames outputs console].
  split; [reflexivity|]. split; [reflexivity|].
  intros l Hl. rewrite !in_app_iff. tauto.
Qed.

Lemma loaded_summary (w1 w : World) (su sh : DataFrame) :
  frames w1 = <[1%nat := sh]> (<[0%nat := su]> (frames w)) ->
  frames w1 !! 0%nat = Some su.
Proof.
  intros ->. rewrite lookup_insert_ne by discriminate. apply lookup_insert_eq.
Qed.

Lemma script_as_main lib hf ra summary_urban summary_housing w :
  exists w0,
    script lib hf ra summary_urban summary_housing w =
      main lib hf ra summary_urban summary_housing w0 /\
    outputs w0 = outputs w /\ frames w0 = frames w /\
    (forall l, In l (console w) -> In l (console w0)) /\
    (hf = false -> In import_notice (console w0)).
Proof.
  destruct hf.
  - exists w. repeat split; try reflexivity; [auto|discriminate].
  - exists {| frames := frames w; outputs := outputs w;
              console := console w ++ [import_notice] |}.
    repeat split; try reflexivity; cbn [console].
    + intros l Hl. apply in_or_app. tauto.
    + intros _. apply in_or_app. right. left. reflexivity.
Qed.

(** ** The charts of [main] *)

Lemma main_charts_run lib ra w df :
  frames w !! 0%nat = Some df ->
  main_charts lib ra 0 w =
  match categorized df with
  | inl e =>
      ({| frames := frames w; outputs := outputs w;
          console := console w ++ ["  Creating: chart_urban_comparison.png"] |}, inl e)
  | inr df1 =>
      match bar_chart_of lib df1 with
      | inl e =>
          ({| frames := <[0%nat := df1]> (frames w); outputs := outputs w;
              console := console w ++ ["  Creating: chart_urban_comparison.png"] |},
           inl e)
      | inr chart =>
          let w1 :=
            {| frames := <[0%nat := df1]> (frames w);
               outputs := <["chart_urban_comparison.png" := chart]> (outputs w);
               console := (console w ++ ["  Creating: chart_urban_comparison.png"])
                            ++ ["    ✓ Saved: outputs/chart_urban_comparison.png"] |} in
          (create_scatter_plot lib ra "chart_housing_correlation.png";;
           create_summary_table_image 0 "table_summary.png";;
           main_report) w1
      end
  end.
Proof.
  intros Hdf. unfold main_charts. rewrite bind_apply.
  rewrite (create_bar_chart_run _ _ _ _ _ Hdf).
  destruct (categorized df) as [e|df1]; [reflexivity|].
  destruct (bar_chart_of lib df1) as [e|chart]; reflexivity.
Qed.

Ltac charts_case :=
  cbn [fst snd frames outputs console apply_writes];
  split; [reflexivity|]; split; [reflexivity|]; split;
  [intros ref Hne; try (apply lookup_insert_ne; congruence); reflexivity|];
  split;
  [first [apply lookup_insert_eq | assumption]
  |intros l Hl; rewrite ?in_app_iff; tauto].

(** What the charts of [main] do to the world, and how they end. *)
Lemma main_charts_effect lib ra w summary_urban :
  frames w !! 0%nat = Some summary_urban ->
  outputs (fst (main_charts lib ra 0 w)) =
    apply_writes (fst (chart_effect lib ra summary_urban)) (outputs w) /\
  snd (main_charts lib ra 0 w) = snd (chart_effect lib ra summary_urban) /\
  (forall ref, ref <> 0%nat ->
     frames (fst (main_charts lib ra 0 w)) !! ref = frames w !! ref) /\
  frames (fst (main_charts lib ra 0 w)) !! 0%nat = Some (table_after summary_urban) /\
  (forall l, In l (console w) -> In l (console (fst (main_charts lib ra 0 w)))).
Proof.
  intros Hsu. rewrite (main_charts_run _ _ _ _ Hsu). unfold chart_effect, table_after.
  destruct (categorized summary_urban) as [e|df1]; [charts_case|].
  destruct (bar_chart_of lib df1) as [e|chart]; [charts_case|].
  cbv zeta. rewrite bind_apply, create_scatter_plot_run. cbv zeta.
  destruct (linregress _ _ _) as [e|fit]; [charts_case|].
  rewrite bind_apply.
  erewrite create_summary_table_image_cases by (cbn [frames]; apply lookup_insert_eq).
  destruct (table_image_of df1) as [e|image]; [charts_case|].
  match goal with
  | |- context [main_report ?W] =>
      destruct (main_report_run W) as [lines Hrep]; rewrite Hrep
  end.
  charts_case.
Qed.

(** The whole effect of [main] on the output directory and on the shared
    tables, and its outcome, are fixed by the loaded tables. *)
Lemma main_effect lib hf ra summary_urban summary_housing w :
  let run := main lib hf ra summary_urban summary_housing w in
  outputs (fst run) =
    apply_writes (fst (run_effect lib hf ra summary_urban)) (outputs w) /\
  snd run = snd (run_effect lib hf ra summary_urban) /\
  frames (fst run) !! 1%nat = Some summary_housing /\
  (forall l, In l (console w) -> In l (console (fst run))) /\
  (hf = false -> In skip_notice (console (fst run))) /\
  (hf = false \/ ra <> [] -> frames (fst run) !! 0%nat = Some (table_after summary_urban)).
Proof.
  intros run. subst run. unfold run_effect.
  destruct hf, ra as [|r ra]; cbn [andb length Nat.eqb].
  - destruct (main_without_rows lib summary_urban summary_housing w)
      as (w' & -> & Hf & Ho & Hc).
    cbn [fst snd apply_writes]. rewrite Hf, Ho.
    split; [reflexivity|]. split; [reflexivity|].
    split; [apply lookup_insert_eq|]. split; [exact Hc|].
    split; [discriminate|]. intros [H|H]; [discriminate|congruence].
  - destruct (main_until_charts_effect lib true (r :: ra) summary_urban
                summary_housing w) as (w1 & -> & Hframes & Hout & Hcons & Hskip);
      [right; discriminate|].
    destruct (main_charts_effect lib (r :: ra) w1 summary_urban
                (loaded_summary _ _ _ _ Hframes))
      as (Ho & Hr & Hother & Hzero & Hmono).
    cbn [fst snd]. rewrite Ho, Hr, Hout, apply_writes_app.
    split; [reflexivity|]. split; [reflexivity|].
    split; [rewrite Hother by discriminate; rewrite Hframes; apply lookup_insert_eq|].
    split; [intros l Hl; apply Hmono, Hcons, Hl|].
    split; [intros H; apply Hmono, Hskip, H|].
    intros _. exact Hzero.
  - destruct (main_until_charts_effect lib false [] summary_urban
                summary_housing w) as (w1 & -> & Hframes & Hout & Hcons & Hskip);
      [left; reflexivity|].
    destruct (main_charts_effect lib [] w1 summary_urban
                (loaded_summary _ _ _ _ Hframes))
      as (Ho & Hr & Hother & Hzero & Hmono).
    cbn [fst snd]. rewrite Ho, Hr, Hout, apply_writes_app.
    split; [reflexivity|]. split; [reflexivity|].
    split; [rewrite Hother by discriminate; rewrite Hframes; apply lookup_insert_eq|].
    split; [intros l Hl; apply Hmono, Hcons, Hl|].
    split; [intros H; apply Hmono, Hskip, H|].
    intros _. exact Hzero.
  - destruct (main_until_charts_effect lib false (r :: ra) summary_urban
                summary_housing w) as (w1 & -> & Hframes & Hout & Hcons & Hskip);
      [left; reflexivity|].
    destruct (main_charts_effect lib (r :: ra) w1 summary_urban
                (loaded_summary _ _ _ _ Hframes))
      as (Ho & Hr & Hother & Hzero & Hmono).
    cbn [fst snd]. rewrite Ho, Hr, Hout, apply_writes_app.
    split; [reflexivity|]. split; [reflexivity|].
    split; [rewrite Hother by discriminate; rewrite Hframes; apply lookup_insert_eq|].
    split; [intros l Hl; apply Hmono, Hcons, Hl|].
    split; [intros H; apply Hmono, Hskip, H|].
    intros _. exact Hzero.
Qed.

Lemma script_effect lib hf ra summary_urban summary_housing w :
  let run := script lib hf ra summary_urban summary_housing w in
  outputs (fst run) =
    apply_writes (fst (run_effect lib hf ra summary_urban)) (outputs w) /\
  snd run = snd (run_effect lib hf ra summary_urban) /\
  frames (fst run) !! 1%nat = Some summary_housing /\
  (forall l, In l (console w) -> In l (console (fst run))) /\
  (hf = false -> In import_notice (console (fst run)) /\ In skip_notice (console (fst run))) /\
  (hf = false \/ ra <> [] -> frames (fst run) !! 0%nat = Some (table_after summary_urban)).
Proof.
  intros run. subst run.
  destruct (script_as_main lib hf ra summary_urban summary_housing w)
    as (w0 & -> & Ho0 & Hf0 & Hc0 & Hi0).
  destruct (main_effect lib hf ra summary_urban summary_housing w0)
    as (Ho & Hr & Hh & Hc & Hs & Hz).
  rewrite Ho, Hr, Ho0.
  split; [reflexivity|]. split; [reflexivity|]. split; [exact Hh|].
  split; [intros l Hl; apply Hc, Hc0, Hl|].
  split; [|exact Hz].
  intros H. split; [apply Hc, Hi0, H|apply Hs, H].
Qed.


(** ** When least squares is defined *)

Lemma kept_rows_arrays (ra : GeoDataFrame) :
  let valid := List.filter scatter_keep ra in
  Forall2 (fun r x => pct_single_family r = Some x) valid (fit_x valid) /\
  Forall2 (fun r y => incidents_per_1000_pop r = Some y) valid (fit_y valid).
Proof.
  intros valid.
  assert (Hvalid : forall r, In r valid -> scatter_keep r = true)
    by (intros r Hr; apply filter_In in Hr; tauto).
  split.
  - apply fit_x_rows, List.Forall_forall. intros r Hr.
    apply Hvalid, scatter_keep_spec in Hr. tauto.
  - apply fit_y_rows, List.Forall_forall. intros r Hr.
    apply Hvalid, scatter_keep_spec in Hr. tauto.
Qed.

Lemma spread_in_array (f : ResponseArea -> option Q) (ra : GeoDataFrame) (xs : list Q) :
  Forall2 (fun r x => f r = Some x) (List.filter scatter_keep ra) xs ->
  spread_in f ra ->
  exists a b, In a xs /\ In b xs /\ ~ (a == b)%Q.
Proof.
  intros HX (r1 & r2 & x1 & x2 & Hr1 & Hr2 & Hk1 & Hk2 & Hx1 & Hx2 & Hne).
  destruct (Forall2_In_l _ _ _ r1 HX) as (a & Ha & Hra); [apply filter_In; tauto|].
  destruct (Forall2_In_l _ _ _ r2 HX) as (b & Hb & Hrb); [apply filter_In; tauto|].
  exists a, b. split; [exact Ha|]. split; [exact Hb|].
  assert (a = x1) by congruence. assert (b = x2) by congruence. subst. exact Hne.
Qed.

Lemma scatter_ready_fit lib ra :
  scatter_ready ra ->
  linregress lib (fit_x (List.filter scatter_keep ra))
                 (fit_y (List.filter scatter_keep ra))
  = inr (ols (fit_x (List.filter scatter_keep ra))
             (fit_y (List.filter scatter_keep ra))).
Proof.
  intros [Hx Hy]. destruct (kept_rows_arrays ra) as [HX HY].
  destruct (spread_in_array _ _ _ HX Hx) as (x1 & x2 & Hx1 & Hx2 & Hxne).
  destruct (spread_in_array _ _ _ HY Hy) as (y1 & y2 & Hy1 & Hy2 & Hyne).
  apply (linregress_ols lib _ _ x1 x2 y1 y2); try assumption.
  apply Forall2_length in HX, HY. congruence.
Qed.

(** ** The charts on well-formed data *)

Lemma categorized_columns df df1 :
  categorized df = inr df1 -> columns df1 = columns df.
Proof.
  unfold categorized, df_getitem, df_setitem.
  destruct (index_of "urban_class" (columns df)) as [i|] eqn:Hi; [|discriminate].
  destruct (negb _); [discriminate|]. intros [= <-]. reflexivity.
Qed.

Lemma categorized_ready df df1 :
  summary_ready df ->
  categorized df = inr df1 ->
  values df1 <> [] /\ present_columns df1 <> [] /\
  numeric_column df1 "population" /\
  numeric_column df1 "total_incidents" /\
  numeric_column df1 "incidents_per_1000_pop" /\
  numeric_column df1 "pct_single_family".
Proof.
  intros (Hrect & Hrows & Hc & Hr & Hh & Hpop & Htot & Hrate & Hpct & Hknown) Hcat.
  pose proof Hc as Hc'. apply has_column_index in Hc'. destruct Hc' as [ic Hic].
  split; [|split].
  - pose proof (categorized_length _ _ Hcat) as Hlen. intros H. rewrite H in Hlen.
    destruct (values df); [congruence|discriminate].
  - assert (Hin : In "urban_class" (present_columns df1)).
    { apply present_columns_spec. split; [simpl; tauto|].
      unfold has_column. rewrite (categorized_columns _ _ Hcat). exact Hc. }
    intros H. rewrite H in Hin. destruct Hin.
  - repeat split;
      (apply (categorized_numeric df ic); [assumption|assumption|discriminate|assumption]).
Qed.

(** On well-formed data the three images are written and the charts end
    normally. *)
Lemma chart_effect_ok lib ra su :
  sorting lib ->
  summary_ready su ->
  scatter_ready ra ->
  exists df1 chart t,
    categorized su = inr df1 /\
    bar_chart_of lib df1 = inr chart /\
    summary_table df1 = inr t /\
    chart_effect lib ra su =
    ([("chart_urban_comparison.png", chart);
      ("chart_housing_correlation.png",
       let valid := List.filter scatter_keep ra in
       let fit := ols (fit_x valid) (fit_y valid) in
       ScatterPlot (map (class_group valid) scatter_colors) (y_line_of fit) fit);
      ("table_summary.png", TableImage (columns t) (values t))],
     inr tt).
Proof.
  intros Hsort Hsu Hra.
  pose proof Hsu as (Hrect & Hrows & Hc & Hr & Hh & Hpop & Htot & Hrate & Hpct & Hknown).
  apply has_column_index in Hc, Hr, Hh.
  destruct Hc as [ic Hic], Hr as [ir Hir], Hh as [ih Hih].
  destruct (bar_chart_of_rows lib su ic ir ih Hsort Hic Hir Hih Hrate Hpct)
    as (rate_text & housing_text & Hchart).
  rewrite (labels_in_order lib su ic ir ih Hsort Hic Hir Hih Hrect Hknown) in Hchart.
  pose proof (categorized_rows _ _ Hic) as Hcat.
  set (df1 := {| columns := columns su;
                 values := map (fun row => set_nth ic (categorize order (nth ic row NA)) row)
                               (values su) |}) in *.
  destruct (categorized_ready su df1 Hsu Hcat)
    as (Hrows1 & Hcols1 & Hpop1 & Htot1 & Hrate1 & Hpct1).
  destruct (table_image_ok df1 Hrows1 Hcols1 Hpop1 Htot1 Hrate1 Hpct1)
    as (t & Ht & Himage).
  eexists df1, _, t. split; [exact Hcat|]. split; [exact Hchart|].
  split; [exact Ht|].
  unfold chart_effect. rewrite Hcat, Hchart. cbv zeta.
  rewrite (scatter_ready_fit lib ra Hra), Himage. reflexivity.
Qed.

Lemma summary_three_ready : summary_ready summary_three.
Proof.
  unfold summary_ready, rectangular, numeric_column, classes_in_order.
  repeat split; try reflexivity; try discriminate; try (intros s [= <-]);
    repeat constructor; discriminate.
Qed.

Lemma sample_areas_ready : scatter_ready sample_areas.
Proof.
  split.
  - exists area_A, area_C, 10%Q, 30%Q. unfold sample_areas. simpl In.
    repeat split; try reflexivity; try tauto.
    intros H. discriminate H.
  - exists area_A, area_C, 20%Q, 60%Q. unfold sample_areas. simpl In.
    repeat split; try reflexivity; try tauto.
    intros H. discriminate H.
Qed.

Lemma map_files_not_charts f : In f map_files -> ~ In f chart_files.
Proof.
  unfold map_files, chart_files. simpl.
  intros [<-|[<-|[<-|[]]]] [H|[H|[H|[]]]]; discriminate H.
Qed.

Lemma chart_effect_names lib ra summary_urban f :
  In f (map fst (fst (chart_effect lib ra summary_urban))) -> In f chart_files.
Proof.
  unfold chart_effect, chart_files.
  destruct (categorized summary_urban) as [e|df1]; [intros []|].
  destruct (bar_chart_of lib df1) as [e|chart]; [intros []|]. cbv zeta.
  destruct (linregress _ _ _) as [e|fit]; [simpl; tauto|].
  destruct (table_image_of df1) as [e|image]; simpl; tauto.
Qed.

Lemma map_writes_names hf ra f :
  In f (map fst (map_writes hf ra)) -> In f map_files.
Proof.
  unfold map_writes, choropleth_write, map_files. destruct hf; [|intros []].
  cbv zeta. rewrite !map_app, !in_app_iff.
  destruct (length (choropleth_valid "incidents_per_1000_pop" ra) =? 0)%nat;
    destruct (length (choropleth_valid "pct_single_family" ra) =? 0)%nat;
    simpl; tauto.
Qed.

Lemma run_effect_names lib hf ra summary_urban f :
  In f (map fst (fst (run_effect lib hf ra summary_urban))) ->
  (hf = true /\ In f map_files) \/ In f chart_files.
Proof.
  unfold run_effect. destruct (hf && _); [intros []|]. cbn [fst].
  rewrite map_app, in_app_iff. intros [H|H].
  - left. split; [|exact (map_writes_names _ _ _ H)].
    destruct hf; [reflexivity|destruct H].
  - right. exact (chart_effect_names _ _ _ _ H).
Qed.

(** A file that a run does not name is left as it was. *)
Lemma run_effect_other lib hf ra summary_urban o f :
  ~ ((hf = true /\ In f map_files) \/ In f chart_files) ->
  apply_writes (fst (run_effect lib hf ra summary_urban)) o !! f = o !! f.
Proof.
  intros Hf. rewrite lookup_apply_writes.
  destruct (last_write _ f) as [a|] eqn:Ha; [|reflexivity].
  exfalso. apply Hf. exact (run_effect_names _ _ _ _ _ (last_write_names _ _ _ Ha)).
Qed.

(** ** The whole run *)

(** C6 -- without folium the script writes none of the three map
    documents and prints its two notices, whatever the data, and the charts
    are rendered as usual: on a summary table and a ResponseArea table that
    the chart renderers accept, the bar chart of the summary, the scatter
    plot of the kept rows with their least-squares fit and the table image
    are written, and the run returns normally. *)
Theorem script_without_folium
    (lib : Libraries) (ra : GeoDataFrame) (summary_urban summary_housing : DataFrame)
    (w : World) :
  let run := script lib false ra summary_urban summary_housing w in
  (forall f, In f map_files -> outputs (fst run) !! f = outputs w !! f) /\
  In import_notice (console (fst run)) /\
  In skip_notice (console (fst run)) /\
  (sorting lib -> summary_ready summary_urban -> scatter_ready ra ->
   exists df1 chart t,
     categorized summary_urban = inr df1 /\
     bar_chart_of lib df1 = inr chart /\
     summary_table df1 = inr t /\
     snd run = inr tt /\
     outputs (fst run) =
       <["table_summary.png" := TableImage (columns t) (values t)]>
         (<["chart_housing_correlation.png" :=
              let valid := List.filter scatter_keep ra in
              let fit := ols (fit_x valid) (fit_y valid) in
              ScatterPlot (map (class_group valid) scatter_colors) (y_line_of fit) fit]>
            (<["chart_urban_comparison.png" := chart]> (outputs w)))).
Proof.
  intros run. subst run.
  destruct (script_effect lib false ra summary_urban summary_housing w)
    as (Ho & Hr & _ & _ & Hnotes & _).
  destruct (Hnotes eq_refl) as [Himport Hskip].
  split; [|split; [exact Himport|split; [exact Hskip|]]].
  - intros f Hf. rewrite Ho. apply run_effect_other.
    intros [[H _]|H]; [discriminate|]. exact (map_files_not_charts f Hf H).
  - intros Hsort Hsu Hra.
    destruct (chart_effect_ok lib ra summary_urban Hsort Hsu Hra)
      as (df1 & chart & t & Hcat & Hchart & Ht & Heffect).
    exists df1, chart, t.
    split; [exact Hcat|]. split; [exact Hchart|]. split; [exact Ht|].
    rewrite Ho, Hr. unfold run_effect. cbn [andb fst snd map_writes app].
    rewrite Heffect. split; reflexivity.
Qed.

Lemma script_without_folium_witness :
  let run := script raising_release false sample_areas summary_three summary_three
               empty_world in
  sorting raising_release /\ summary_ready summary_three /\ scatter_ready sample_areas /\
  exists df1 chart t,
    categorized summary_three = inr df1 /\
    bar_chart_of raising_release df1 = inr chart /\
    summary_table df1 = inr t /\
    snd run = inr tt /\
    outputs (fst run) =
      <["table_summary.png" := TableImage (columns t) (values t)]>
        (<["chart_housing_correlation.png" :=
             let fit := ols [10; 30]%Q [20; 60]%Q in
             ScatterPlot (map (class_group [area_A; area_C]) scatter_colors)
               (y_line_of fit) fit]>
           (<["chart_urban_comparison.png" := chart]> (outputs empty_world))).
Proof.
  split; [exact raising_release_sorting|].
  split; [exact summary_three_ready|]. split; [exact sample_areas_ready|].
  exact (proj2 (proj2 (proj2
           (script_without_folium raising_release sample_areas summary_three
              summary_three empty_world)))
           raising_release_sorting summary_three_ready sample_areas_ready).
Defined.


Lemma lookup_writes_other ws (o : gmap string Artifact) f :
  ~ In f (map fst ws) -> apply_writes ws o !! f = o !! f.
Proof.
  intros Hf. rewrite lookup_apply_writes.
  destruct (last_write ws f) as [a|] eqn:Ha; [|reflexivity].
  exfalso. exact (Hf (last_write_names _ _ _ Ha)).
Qed.

Lemma chart_files_not_maps hf ra f :
  In f chart_files -> ~ In f (map fst (map_writes hf ra)).
Proof.
  intros Hf Hm. apply map_writes_names in Hm.
  exact (map_files_not_charts f Hm Hf).
Qed.






(** C10 (as the code has it) -- the scatter plot has no guard for an empty
    selection: when no row passes its filter the regression is still called,
    on two empty arrays, and nothing like the warning-and-skip of the
    continuous choropleth happens.  What follows is the library's affair:
    where the regression rejects empty arrays the exception ends the run,
    and the scatter plot and the table image are not written; where it
    answers NaN estimates a plot without bubbles and without a line is
    saved and the run goes on. *)
Theorem scatter_plot_without_rows_aborts
    (lib : Libraries) (hf : bool) (ra : GeoDataFrame)
    (summary_urban summary_housing : DataFrame) (filename : string) (w : World) :
  scatter_valid ra = inr [] ->
  create_scatter_plot lib ra filename w =
    match linregress_undefined lib [] [] with
    | inl e =>
        ({| frames := frames w; outputs := outputs w;
            console := console w ++ ["  Creating: " +:+ filename] |}, inl e)
    | inr fit =>
        ({| frames := frames w;
            outputs := <[filename :=
                           ScatterPlot (map (class_group []) scatter_colors)
                             (y_line_of fit) fit]> (outputs w);
            console := (console w ++ ["  Creating: " +:+ filename])
                         ++ ["    ✓ Saved: outputs/" +:+ filename] |}, inr tt)
    end /\
  (forall e, linregress_undefined lib [] [] = inl e ->
     exists w' e',
       main lib hf ra summary_urban summary_housing w = (w', inl e') /\
       outputs w' !! "chart_housing_correlation.png" =
         outputs w !! "chart_housing_correlation.png" /\
       outputs w' !! "table_summary.png" = outputs w !! "table_summary.png").
Proof.
  intros Hempty. split; [apply create_scatter_plot_empty, Hempty|].
  intros e He.
  destruct (main_effect lib hf ra summary_urban summary_housing w)
    as (Ho & Hr & _).
  rewrite scatter_valid_filter in Hempty. injection Hempty as Hempty.
  assert (Hrun : exists e' ws,
            run_effect lib hf ra summary_urban = (ws, inl e') /\
            ~ In "chart_housing_correlation.png" (map fst ws) /\
            ~ In "table_summary.png" (map fst ws)).
  { unfold run_effect. destruct (hf && _).
    { eexists _, _. split; [reflexivity|]. simpl. tauto. }
    assert (Hm : forall f, In f chart_files ->
                   ~ In f (map fst (map_writes hf ra ++ []))).
    { intros f Hf. rewrite app_nil_r. apply chart_files_not_maps, Hf. }
    unfold chart_effect.
    destruct (categorized summary_urban) as [e0|df1].
    { eexists _, _. split; [reflexivity|].
      split; apply Hm; unfold chart_files; simpl; tauto. }
    destruct (bar_chart_of lib df1) as [e0|chart].
    { eexists _, _. split; [reflexivity|].
      split; apply Hm; unfold chart_files; simpl; tauto. }
    cbv zeta. rewrite Hempty.
    change (linregress lib (fit_x []) (fit_y [])) with (linregress_undefined lib [] []).
    rewrite He. eexists _, _. split; [reflexivity|]. cbn [fst].
    split; rewrite map_app, in_app_iff; intros [H|H].
    - revert H. apply chart_files_not_maps. unfold chart_files. simpl. tauto.
    - simpl in H. destruct H as [H|[]]. discriminate H.
    - revert H. apply chart_files_not_maps. unfold chart_files. simpl. tauto.
    - simpl in H. destruct H as [H|[]]. discriminate H. }
  destruct Hrun as (e' & ws & Hrun & H1 & H2).
  rewrite Hrun in Ho, Hr. cbn [fst snd] in Ho, Hr.
  exists (fst (main lib hf ra summary_urban summary_housing w)), e'.
  split; [|split].
  - rewrite <- Hr. apply surjective_pairing.
  - rewrite Ho. apply lookup_writes_other, H1.
  - rewrite Ho. apply lookup_writes_other, H2.
Qed.

Lemma scatter_plot_without_rows_aborts_witness :
  scatter_valid [area_D] = inr [] /\
  create_scatter_plot raising_release [area_D] "chart_housing_correlation.png"
    empty_world =
    ({| frames := ∅; outputs := ∅;
        console := ["  Creating: chart_housing_correlation.png"] |},
     inl (ValueError "Inputs must not be empty.")) /\
  (forall e, linregress_undefined raising_release [] [] = inl e ->
     exists w' e',
       main raising_release true [area_D] summary_three summary_three empty_world
         = (w', inl e') /\
       outputs w' !! "chart_housing_correlation.png" =
         outputs empty_world !! "chart_housing_correlation.png" /\
       outputs w' !! "table_summary.png" = outputs empty_world !! "table_summary.png").
Proof.
  split; [rewrite scatter_valid_filter; reflexivity|].
  refine (scatter_plot_without_rows_aborts raising_release true [area_D] summary_three
            summary_three "chart_housing_correlation.png" empty_world _).
  rewrite scatter_valid_filter. reflexivity.
Defined.

(** C10, as stated, fails with a regression that answers NaN estimates for
    empty arrays: no row of the table passes the filter, yet the scatter plot
    is saved, without bubbles and without a line, and the run returns
    normally. *)
Lemma scatter_plot_without_rows_is_saved :
  scatter_valid [area_D] = inr [] /\
  create_scatter_plot nan_release [area_D] "chart_housing_correlation.png" empty_world =
    ({| frames := ∅;
        outputs := {[ "chart_housing_correlation.png" :=
                        ScatterPlot
                          [ {| group_color := "#d62728"; group_label := "Urban Core";
                               group_bubbles := [] |};
                            {| group_color := "#ff7f0e"; group_label := "Inner Suburban";
                               group_bubbles := [] |};
                            {| group_color := "#2ca02c"; group_label := "Outer Suburban";
                               group_bubbles := [] |} ]
                          (None, None)
                          {| slope := None; intercept := None; rvalue := None |} ]};
        console := ["  Creating: chart_housing_correlation.png";
                    "    ✓ Saved: outputs/chart_housing_correlation.png"] |},
     inr tt) /\
  snd (main nan_release false [area_D] summary_three summary_three empty_world) = inr tt.
Proof.
  split; [rewrite scatter_valid_filter; reflexivity|]. split.
  - rewrite create_scatter_plot_run. reflexivity.
  - destruct (main_effect nan_release false [area_D] summary_three summary_three
                empty_world) as (_ & -> & _).
    vm_compute. reflexivity.
Qed.


(** * Further properties of the script *)

(** ** Files that a run leaves alone *)

(** Whatever the input and however the run ends, the script leaves every
    file of the output directory other than its own six outputs exactly as
    it found it: nothing is ever deleted or cleared. *)
Theorem other_files_untouched
    (lib : Libraries) (hf : bool) (ra : GeoDataFrame)
    (summary_urban summary_housing : DataFrame) (w : World) (f : string) :
  ~ In f (map_files ++ chart_files) ->
  outputs (fst (script lib hf ra summary_urban summary_housing w)) !! f = outputs w !! f.
Proof.
  intros Hf.
  destruct (script_effect lib hf ra summary_urban summary_housing w) as (-> & _).
  apply run_effect_other. rewrite in_app_iff in Hf. tauto.
Qed.

Lemma other_files_untouched_witness :
  ~ In "statistical_tests.txt" (map_files ++ chart_files) /\
  outputs (fst (script raising_release true sample_areas summary_three summary_three
                  {| frames := ∅;
                     outputs := {[ "statistical_tests.txt" := TableImage [] [] ]};
                     console := [] |}))
    !! "statistical_tests.txt" = Some (TableImage [] []).
Proof.
  assert (H : ~ In "statistical_tests.txt" (map_files ++ chart_files)).
  { simpl. intros [H|[H|[H|[H|[H|[H|[]]]]]]]; discriminate H. }
  split; [exact H|].
  exact (other_files_untouched raising_release true sample_areas summary_three
           summary_three
           {| frames := ∅;
              outputs := {[ "statistical_tests.txt" := TableImage [] [] ]};
              console := [] |} "statistical_tests.txt" H).
Defined.

(** There is no clean-up when a run aborts: on a summary table that the bar
    chart accepts, when the maps are skipped or drawn, no row passes the
    filter of the scatter plot and the regression rejects empty arrays, the
    run ends with the exception of the regression, and the bar chart written
    just before stays in the output directory. *)
Theorem partial_outputs_remain
    (lib : Libraries) (hf : bool) (ra : GeoDataFrame)
    (summary_urban summary_housing : DataFrame) (w : World) (e : exn) :
  sorting lib ->
  summary_ready summary_urban ->
  hf = false \/ ra <> [] ->
  scatter_valid ra = inr [] ->
  linregress_undefined lib [] [] = inl e ->
  let run := script lib hf ra summary_urban summary_housing w in
  snd run = inl e /\
  exists chart,
    bar_chart_of lib (table_after summary_urban) = inr chart /\
    outputs (fst run) !! "chart_urban_comparison.png" = Some chart /\
    outputs (fst run) !! "chart_housing_correlation.png"
      = outputs w !! "chart_housing_correlation.png".
Proof.
  intros Hsort Hsu Hmaps Hempty He run. subst run.
  destruct (script_effect lib hf ra summary_urban summary_housing w)
    as (Ho & Hr & _).
  pose proof Hsu as (Hrect & Hrows & Hc & Hrt & Hh & _ & _ & Hrate & Hpct & Hknown).
  apply has_column_index in Hc, Hrt, Hh.
  destruct Hc as [ic Hic], Hrt as [ir Hir], Hh as [ih Hih].
  destruct (bar_chart_of_rows lib summary_urban ic ir ih Hsort Hic Hir Hih Hrate Hpct)
    as (rate_text & housing_text & Hchart).
  rewrite (labels_in_order lib summary_urban ic ir ih Hsort Hic Hir Hih Hrect Hknown)
    in Hchart.
  rewrite scatter_valid_filter in Hempty. injection Hempty as Hempty.
  assert (Heffect : run_effect lib hf ra summary_urban =
                    (map_writes hf ra ++ fst (chart_effect lib ra summary_urban),
                     snd (chart_effect lib ra summary_urban))).
  { unfold run_effect. destruct hf; [|reflexivity].
    destruct ra; [destruct Hmaps; [discriminate|congruence]|reflexivity]. }
  rewrite Ho, Hr, Heffect. cbn [fst snd].
  unfold chart_effect, table_after. rewrite (categorized_rows _ _ Hic), Hchart.
  cbv zeta. rewrite Hempty.
  change (linregress lib (fit_x []) (fit_y [])) with (linregress_undefined lib [] []).
  rewrite He. cbn [fst snd]. split; [reflexivity|].
  eexists. split; [reflexivity|]. split.
  - rewrite apply_writes_app. cbn [apply_writes]. apply lookup_insert_eq.
  - apply lookup_writes_other. rewrite map_app, in_app_iff. intros [H|H].
    + revert H. apply chart_files_not_maps. unfold chart_files. simpl. tauto.
    + simpl in H. destruct H as [H|[]]. discriminate H.
Qed.

Lemma partial_outputs_remain_witness :
  let run := script raising_release true [area_D] summary_three summary_three
               empty_world in
  snd run = inl (ValueError "Inputs must not be empty.") /\
  exists chart,
    bar_chart_of raising_release (table_after summary_three) = inr chart /\
    outputs (fst run) !! "chart_urban_comparison.png" = Some chart /\
    outputs (fst run) !! "chart_housing_correlation.png"
      = outputs empty_world !! "chart_housing_correlation.png".
Proof.
  refine (partial_outputs_remain raising_release true [area_D] summary_three
            summary_three empty_world (ValueError "Inputs must not be empty.")
            raising_release_sorting summary_three_ready _ _ _).
  - right. discriminate.
  - rewrite scatter_valid_filter. reflexivity.
  - reflexivity.
Defined.

(** The table of the housing types is loaded and then left alone: after
    every run, finished or aborted, the shared object holds the table as it
    was read. *)
Theorem housing_summary_is_never_changed
    (lib : Libraries) (hf : bool) (ra : GeoDataFrame)
    (summary_urban summary_housing : DataFrame) (w : World) :
  frames (fst (script lib hf ra summary_urban summary_housing w)) !! 1%nat
  = Some summary_housing.
Proof.
  destruct (script_effect lib hf ra summary_urban summary_housing w)
    as (_ & _ & H & _). exact H.
Qed.

(** ** The maps of a run with folium *)

Lemma charts_write_no_map lib ra summary_urban f :
  In f map_files -> last_write (fst (chart_effect lib ra summary_urban)) f = None.
Proof.
  intros Hf. destruct (last_write _ f) as [a|] eqn:Ha; [|reflexivity].
  apply last_write_names, chart_effect_names in Ha. exfalso.
  exact (map_files_not_charts f Hf Ha).
Qed.

Lemma lookup_after_main_true lib ra summary_urban summary_housing w f :
  ra <> [] ->
  In f map_files ->
  outputs (fst (script lib true ra summary_urban summary_housing w)) !! f =
  match last_write (map_writes true ra) f with
  | Some a => Some a
  | None => outputs w !! f
  end.
Proof.
  intros Hrows Hf.
  destruct (script_effect lib true ra summary_urban summary_housing w) as (-> & _).
  unfold run_effect. destruct ra; [congruence|]. cbn [andb length Nat.eqb fst].
  rewrite lookup_apply_writes, last_write_app, (charts_write_no_map _ _ _ _ Hf).
  reflexivity.
Qed.

Lemma choropleth_valid_empty column gdf :
  (length (choropleth_valid column gdf) =? 0)%nat = true <->
  forall r q, In r gdf -> metric column r = Some q -> (q <= 0)%Q.
Proof.
  rewrite Nat.eqb_eq. split.
  - intros Hlen r q Hin Hq. apply Qnot_lt_le. intros Hpos.
    assert (Hr : In r (choropleth_valid column gdf))
      by (apply choropleth_valid_In; eauto).
    destruct (choropleth_valid column gdf); [destruct Hr|discriminate Hlen].
  - intros Hall. destruct (choropleth_valid column gdf) as [|r l] eqn:E; [reflexivity|].
    exfalso.
    assert (Hr : In r (choropleth_valid column gdf)) by (rewrite E; left; reflexivity).
    apply choropleth_valid_In in Hr. destruct Hr as (Hin & q & Hq & Hpos).
    exact (Qlt_not_le _ _ Hpos (Hall r q Hin Hq)).
Qed.

(** With folium and a non-empty ResponseArea table, the classification map
    is written on every run, with one feature per row, also when the charts
    abort the run afterwards.  The per-capita choropleth is written when some
    row has a positive rate; when none has, a file of that name left by an
    earlier run stays as it is. *)
Theorem maps_of_a_run_with_folium
    (lib : Libraries) (ra : GeoDataFrame) (summary_urban summary_housing : DataFrame)
    (w : World) :
  ra <> [] ->
  let w' := fst (script lib true ra summary_urban summary_housing w) in
  (exists layer,
     outputs w' !! "map_urban_classification.html" = Some (CategoricalMap layer) /\
     map fst layer = ra) /\
  ((exists r q, In r ra /\ incidents_per_1000_pop r = Some q /\ (0 < q)%Q) ->
   exists features,
     outputs w' !! "map_incidents_per_capita.html" =
     Some (ChoroplethMap "Fire Incidents per 1,000 Population" "YlOrRd"
             "incidents_per_1000_pop" features features)) /\
  ((forall r q, In r ra -> incidents_per_1000_pop r = Some q -> (q <= 0)%Q) ->
   outputs w' !! "map_incidents_per_capita.html" =
   outputs w !! "map_incidents_per_capita.html").
Proof.
  intros Hrows w'. subst w'.
  assert (Hmetric : forall r, metric "incidents_per_1000_pop" r = incidents_per_1000_pop r).
  { intros r. unfold metric, property. simpl.
    destruct (incidents_per_1000_pop r); reflexivity. }
  split; [|split].
  - exists (categorical_layer ra). split.
    + rewrite (lookup_after_main_true lib ra _ _ _ _ Hrows) by (unfold map_files; simpl; tauto).
      unfold map_writes, choropleth_write. cbv zeta.
      destruct (length (choropleth_valid "incidents_per_1000_pop" ra) =? 0)%nat;
        destruct (length (choropleth_valid "pct_single_family" ra) =? 0)%nat;
        reflexivity.
    + unfold categorical_layer. rewrite map_map. simpl. apply map_id.
  - intros (r & q & Hin & Hq & Hpos).
    rewrite (lookup_after_main_true lib ra _ _ _ _ Hrows) by (unfold map_files; simpl; tauto).
    unfold map_writes, choropleth_write. cbv zeta.
    destruct (length (choropleth_valid "incidents_per_1000_pop" ra) =? 0)%nat eqn:E.
    + exfalso. pose proof (proj1 (choropleth_valid_empty _ _) E) as E'.
      rewrite <- Hmetric in Hq. exact (Qlt_not_le _ _ Hpos (E' r q Hin Hq)).
    + eexists.
      destruct (length (choropleth_valid "pct_single_family" ra) =? 0)%nat; reflexivity.
  - intros Hall.
    rewrite (lookup_after_main_true lib ra _ _ _ _ Hrows) by (unfold map_files; simpl; tauto).
    assert (E : (length (choropleth_valid "incidents_per_1000_pop" ra) =? 0)%nat = true).
    { apply choropleth_valid_empty. intros r q Hin Hq. rewrite Hmetric in Hq. eauto. }
    unfold map_writes, choropleth_write. cbv zeta. rewrite E.
    destruct (length (choropleth_valid "pct_single_family" ra) =? 0)%nat; reflexivity.
Qed.

Lemma maps_of_a_run_with_folium_witness :
  [area_D] <> [] /\
  let w' := fst (script raising_release true [area_D] summary_three summary_three
                  empty_world) in
  (exists layer,
     outputs w' !! "map_urban_classification.html" = Some (CategoricalMap layer) /\
     map fst layer = [area_D]) /\
  ((exists r q, In r [area_D] /\ incidents_per_1000_pop r = Some q /\ (0 < q)%Q) ->
   exists features,
     outputs w' !! "map_incidents_per_capita.html" =
     Some (ChoroplethMap "Fire Incidents per 1,000 Population" "YlOrRd"
             "incidents_per_1000_pop" features features)) /\
  ((forall r q, In r [area_D] -> incidents_per_1000_pop r = Some q -> (q <= 0)%Q) ->
   outputs w' !! "map_incidents_per_capita.html" =
   outputs empty_world !! "map_incidents_per_capita.html").
Proof.
  assert (H : [area_D] <> []) by discriminate.
  split; [exact H|].
  exact (maps_of_a_run_with_folium raising_release [area_D] summary_three summary_three
           empty_world H).
Defined.

(** ** Failures of the renderers *)




Lemma series_gt_string (s : Series) (k : Q) :
  Forall (fun c => match c with Cat _ _ => False | _ => True end) s ->
  (exists x, In (Str x) s) ->
  series_gt s k =
  inl (TypeError "'>' not supported between instances of 'str' and 'int'").
Proof.
  induction 1 as [|c s Hc _ IH]; intros (x & Hx); [destruct Hx|].
  simpl. destruct c as [|q|y|]; simpl; try reflexivity; try contradiction.
  - destruct Hx as [Hx|Hx]; [discriminate Hx|]. rewrite IH by eauto. reflexivity.
  - destruct Hx as [Hx|Hx]; [discriminate Hx|]. rewrite IH by eauto. reflexivity.
Qed.

(** A continuous choropleth of the class column cannot be drawn: as soon as
    one row has a class, the comparison of the column with 0 raises
    TypeError, and no file is written. *)
Theorem choropleth_of_class_column_raises
    (gdf : GeoDataFrame) (title filename colormap : string) (w : World)
    (r : ResponseArea) (class : string) :
  In r gdf -> urban_class r = Some class ->
  create_choropleth_map true gdf "urban_class" title filename colormap w =
  ({| frames := frames w; outputs := outputs w;
      console := console w ++ ["  Creating: " +:+ filename] |},
   inl (TypeError "'>' not supported between instances of 'str' and 'int'")).
Proof.
  intros Hin Hclass. unfold create_choropleth_map, mbind, M_bind, bind, lift, print.
  cbn [negb]. rewrite folium_Map_rows by (intros ->; destruct Hin).
  rewrite gdf_getitem_urban_class. rewrite series_gt_string; [reflexivity| |].
  - apply List.Forall_forall. intros c Hc. apply in_map_iff in Hc.
    destruct Hc as (r' & <- & _). destruct (urban_class r'); exact I.
  - exists class. apply in_map_iff. exists r. rewrite Hclass. auto.
Qed.

Lemma choropleth_of_class_column_raises_witness :
  create_choropleth_map true [area_B; area_A] "urban_class" "Classes" "map_classes.html"
    "YlOrRd" empty_world =
  ({| frames := ∅; outputs := ∅; console := ["  Creating: map_classes.html"] |},
   inl (TypeError "'>' not supported between instances of 'str' and 'int'")).
Proof.
  refine (choropleth_of_class_column_raises [area_B; area_A] "Classes" "map_classes.html"
            "YlOrRd" empty_world area_A "urban_core" _ _).
  - right. left. reflexivity.
  - reflexivity.
Defined.

(** A summary table without the class column makes the bar chart raise
    KeyError at once: the table is not touched and nothing is written. *)
Theorem bar_chart_without_class_column_raises
    (lib : Libraries) (summary_df : nat) (filename : string) (w : World) (df : DataFrame) :
  frames w !! summary_df = Some df ->
  has_column df "urban_class" = false ->
  create_bar_chart lib summary_df filename w =
  ({| frames := frames w; outputs := outputs w;
      console := console w ++ ["  Creating: " +:+ filename] |},
   inl (KeyError "urban_class")).
Proof.
  intros Hdf Hc. rewrite (create_bar_chart_run _ _ _ _ _ Hdf).
  unfold categorized, df_getitem. unfold has_column in Hc.
  destruct (index_of "urban_class" (columns df)); [discriminate|reflexivity].
Qed.

Lemma bar_chart_without_class_column_raises_witness :
  create_bar_chart raising_release 0 "chart_urban_comparison.png"
    (world_of {| columns := ["population"]; values := [[Num 5]] |}) =
  ({| frames := {[ 0%nat := {| columns := ["population"]; values := [[Num 5]] |} ]};
      outputs := ∅;
      console := ["  Creating: chart_urban_comparison.png"] |},
   inl (KeyError "urban_class")).
Proof.
  refine (bar_chart_without_class_column_raises raising_release 0 "chart_urban_comparison.png"
            (world_of {| columns := ["population"]; values := [[Num 5]] |})
            {| columns := ["population"]; values := [[Num 5]] |} _ _);
    reflexivity.
Defined.

(** A summary table with the class column but without the incident rate
    makes the bar chart raise KeyError only after the class column of the
    caller's table has been replaced: nothing is written, yet the shared
    table is left changed. *)
Theorem bar_chart_without_rate_column_raises
    (lib : Libraries) (summary_df : nat) (filename : string) (w : World) (df : DataFrame)
    (classes : Series) :
  frames w !! summary_df = Some df ->
  rectangular df ->
  df_getitem df "urban_class" = inr classes ->
  has_column df "incidents_per_1000_pop" = false ->
  exists w' df1,
    create_bar_chart lib summary_df filename w = (w', inl (KeyError "incidents_per_1000_pop")) /\
    outputs w' = outputs w /\
    frames w' !! summary_df = Some df1 /\
    df_getitem df1 "urban_class" = inr (Categorical classes order).
Proof.
  intros Hdf Hrect Hclasses Hr. rewrite (create_bar_chart_run _ _ _ _ _ Hdf).
  pose proof Hclasses as Hc. unfold df_getitem in Hc.
  destruct (index_of "urban_class" (columns df)) as [ic|] eqn:Hic; [|discriminate].
  pose proof (categorized_rows _ _ Hic) as Hcat. rewrite Hcat.
  destruct (categorized_classes _ _ _ Hrect Hclasses Hcat) as [Hcol _].
  unfold bar_chart_of. rewrite (sort_values_rows lib _ _ ic) by exact Hic.
  rewrite (df_getitem_rows _ _ ic) by exact Hic.
  unfold df_getitem at 1. cbn [columns values]. unfold has_column in Hr.
  destruct (index_of "incidents_per_1000_pop" (columns df)); [discriminate|].
  eexists _, _. split; [reflexivity|]. cbn [frames outputs].
  split; [reflexivity|]. split; [apply lookup_insert_eq|exact Hcol].
Qed.

Lemma bar_chart_without_rate_column_raises_witness :
  exists w' df1,
    create_bar_chart raising_release 0 "chart_urban_comparison.png" (world_of summary_without_rate)
      = (w', inl (KeyError "incidents_per_1000_pop")) /\
    outputs w' = outputs (world_of summary_without_rate) /\
    frames w' !! 0%nat = Some df1 /\
    df_getitem df1 "urban_class" = inr [Cat 2 "outer_suburban"; NA].
Proof.
  refine (bar_chart_without_rate_column_raises raising_release 0 "chart_urban_comparison.png"
            (world_of summary_without_rate) summary_without_rate
            [Str "outer_suburban"; Str "rural"] _ _ _ _).
  - reflexivity.
  - repeat constructor.
  - reflexivity.
  - reflexivity.
Defined.


(** ** The closing listing *)

Lemma main_report_console w :
  exists before after,
    main_report w =
    ({| frames := frames w; outputs := outputs w;
        console := console w ++ before
                     ++ map listing_line
                          (stable_sort String.leb (map_to_list (outputs w)).*1)
                     ++ after |},
     inr tt).
Proof.
  exists [nl +:+ repeat_string "=" 60; "OUTPUTS CREATED"; repeat_string "=" 60],
         [nl +:+ repeat_string "=" 60; "NEXT STEPS"; repeat_string "=" 60; next_steps].
  unfold main_report, mbind, M_bind, bind, print, list_outputs.
  rewrite print_all_run. cbn [frames outputs console].
  f_equal. f_equal. rewrite <- !app_assoc. reflexivity.
Qed.

Lemma listed_when_present w f :
  is_Some (outputs w !! f) ->
  In (listing_line f) (console (fst (main_report w))).
Proof.
  intros [a Ha]. destruct (main_report_console w) as (before & after & ->).
  cbn [fst console]. rewrite !in_app_iff. right. right. left.
  apply in_map. apply (Permutation_in _ (Permutation_sym (stable_sort_perm String.leb _))).
  apply list_elem_of_In. apply list_elem_of_fmap. exists (f, a).
  split; [reflexivity|]. apply elem_of_map_to_list. exact Ha.
Qed.

Lemma is_Some_apply_writes ws o f :
  is_Some (o !! f) -> is_Some (apply_writes ws o !! f).
Proof.
  intros H. rewrite lookup_apply_writes. destruct (last_write ws f); eauto.
Qed.

Lemma main_charts_success lib ra w summary_urban :
  frames w !! 0%nat = Some summary_urban ->
  snd (main_charts lib ra 0 w) = inr tt ->
  exists w5,
    main_charts lib ra 0 w = main_report w5 /\
    forall f, is_Some (outputs w !! f) \/ In f chart_files ->
              is_Some (outputs w5 !! f).
Proof.
  intros Hsu. rewrite (main_charts_run _ _ _ _ Hsu).
  destruct (categorized summary_urban) as [e|df1]; [discriminate|].
  destruct (bar_chart_of lib df1) as [e|chart]; [discriminate|].
  cbv zeta. rewrite bind_apply, create_scatter_plot_run. cbv zeta.
  destruct (linregress _ _ _) as [e|fit]; [discriminate|].
  rewrite bind_apply.
  erewrite create_summary_table_image_cases by (cbn [frames]; apply lookup_insert_eq).
  destruct (table_image_of df1) as [e|image]; [discriminate|].
  intros _. eexists. split; [reflexivity|]. cbn [outputs].
  intros f [Hf|Hf].
  - destruct (String.eqb_spec "table_summary.png" f) as [<-|H1];
      [rewrite lookup_insert_eq; eauto|rewrite lookup_insert_ne by exact H1].
    destruct (String.eqb_spec "chart_housing_correlation.png" f) as [<-|H2];
      [rewrite lookup_insert_eq; eauto|rewrite lookup_insert_ne by exact H2].
    destruct (String.eqb_spec "chart_urban_comparison.png" f) as [<-|H3];
      [rewrite lookup_insert_eq; eauto|rewrite lookup_insert_ne by exact H3].
    exact Hf.
  - unfold chart_files in Hf. simpl in Hf.
    destruct Hf as [<-|[<-|[<-|[]]]].
    + rewrite !lookup_insert_ne by discriminate. rewrite lookup_insert_eq. eauto.
    + rewrite lookup_insert_ne by discriminate. rewrite lookup_insert_eq. eauto.
    + rewrite lookup_insert_eq. eauto.
Qed.

(** The listing that closes a finished run is a listing of the directory,
    not of the files of this run: every file that was in the output
    directory before the run is listed, and so is each of the three images. *)
Theorem listing_covers_the_directory
    (lib : Libraries) (hf : bool) (ra : GeoDataFrame)
    (summary_urban summary_housing : DataFrame) (w : World) (f : string) :
  let run := script lib hf ra summary_urban summary_housing w in
  snd run = inr tt ->
  is_Some (outputs w !! f) \/ In f chart_files ->
  In (listing_line f) (console (fst run)).
Proof.
  intros run. subst run.
  destruct (script_as_main lib hf ra summary_urban summary_housing w)
    as (w0 & -> & Ho0 & _).
  assert (Hmaps : snd (main lib hf ra summary_urban summary_housing w0) = inr tt ->
                  hf = false \/ ra <> []).
  { destruct hf; [|auto]. destruct ra; [|right; discriminate].
    destruct (main_without_rows lib summary_urban summary_housing w0) as (w' & -> & _).
    discriminate. }
  intros Hok Hf. specialize (Hmaps Hok). revert Hok.
  destruct (main_until_charts_effect lib hf ra summary_urban summary_housing w0 Hmaps)
    as (w1 & -> & Hframes & Ho1 & _).
  intros Hok.
  destruct (main_charts_success lib ra w1 summary_urban
              (loaded_summary _ _ _ _ Hframes) Hok) as (w5 & -> & Hw5).
  apply listed_when_present, Hw5.
  destruct Hf as [Hf|Hf]; [left|right; exact Hf].
  rewrite Ho1, Ho0. apply is_Some_apply_writes, Hf.
Qed.

Lemma script_returns lib hf ra summary_urban summary_housing w :
  sorting lib -> summary_ready summary_urban -> scatter_ready ra ->
  hf = false \/ ra <> [] ->
  snd (script lib hf ra summary_urban summary_housing w) = inr tt.
Proof.
  intros Hsort Hsu Hra Hmaps.
  destruct (script_effect lib hf ra summary_urban summary_housing w) as (_ & -> & _).
  destruct (chart_effect_ok lib ra summary_urban Hsort Hsu Hra)
    as (df1 & chart & t & _ & _ & _ & Heffect).
  unfold run_effect. rewrite Heffect.
  destruct hf; [|reflexivity].
  destruct ra; [destruct Hmaps; [discriminate|congruence]|reflexivity].
Qed.

Lemma listing_covers_the_directory_witness :
  let w := {| frames := ∅;
              outputs := {[ "statistical_tests.txt" := TableImage [] [] ]};
              console := [] |} in
  let run := script raising_release false sample_areas summary_three summary_three w in
  In (listing_line "statistical_tests.txt") (console (fst run)).
Proof.
  intros w run.
  refine (listing_covers_the_directory raising_release false sample_areas summary_three
            summary_three w "statistical_tests.txt" _ _).
  - exact (script_returns raising_release false sample_areas summary_three summary_three
             w raising_release_sorting summary_three_ready sample_areas_ready
             (or_introl eq_refl)).
  - left. exists (TableImage [] []). reflexivity.
Defined.

(** ** Bubbles of the scatter plot *)

Lemma filter_three {A} (p1 p2 p3 : A -> bool) (l : list A) :
  (forall a, p1 a = true -> p2 a = false /\ p3 a = false) ->
  (forall a, p2 a = true -> p3 a = false) ->
  Permutation (List.filter p1 l ++ List.filter p2 l ++ List.filter p3 l)
              (List.filter (fun a => p1 a || (p2 a || (p3 a || false))) l).
Proof.
  intros H1 H2. induction l as [|a l IH]; [reflexivity|]. cbn [List.filter].
  destruct (p1 a) eqn:E1.
  - destruct (H1 a E1) as [-> ->]. cbn [orb app]. apply perm_skip, IH.
  - destruct (p2 a) eqn:E2.
    + rewrite (H2 a E2). cbn [orb].
      rewrite <- IH. symmetry. apply Permutation_middle.
    + destruct (p3 a) eqn:E3; cbn [orb]; [|exact IH].
      rewrite <- IH, !app_assoc. symmetry. apply Permutation_middle.
Qed.

Lemma of_class_disjoint a b r :
  a <> b -> of_class a r = true -> of_class b r = false.
Proof.
  intros Hne Ha. apply of_class_spec in Ha.
  destruct (of_class b r) eqn:Hb; [|reflexivity].
  apply of_class_spec in Hb. congruence.
Qed.

(** When the scatter plot is drawn, every kept row whose class is one of
    the three coloured classes is drawn as exactly one bubble, and there is
    no other bubble. *)
Theorem scatter_bubbles_once
    (lib : Libraries) (gdf : GeoDataFrame) (filename : string) (w : World)
    (groups : list ScatterGroup) (y_line : option Q * option Q)
    (fit : LinregressResult) :
  let run := create_scatter_plot lib gdf filename w in
  snd run = inr tt ->
  outputs (fst run) !! filename = Some (ScatterPlot groups y_line fit) ->
  Permutation (concat (map group_bubbles groups))
    (map bubble_of (List.filter has_colour (List.filter scatter_keep gdf))).
Proof.
  intros run. subst run. rewrite create_scatter_plot_run. cbv zeta.
  destruct (linregress _ _ _) as [e|fit']; [discriminate|].
  intros _. cbn [fst outputs]. rewrite lookup_insert_eq. intros [= <- _ _].
  set (valid := List.filter scatter_keep gdf).
  unfold scatter_colors, has_colour, scatter_colors.
  cbn [map concat class_group group_bubbles fst snd existsb].
  rewrite app_nil_r, <- !map_app. apply Permutation_map.
  apply filter_three.
  - intros r Hr. split; apply (of_class_disjoint "urban_core"); (discriminate || exact Hr).
  - intros r Hr. apply (of_class_disjoint "inner_suburban"); (discriminate || exact Hr).
Qed.

Lemma scatter_bubbles_once_witness :
  exists groups y_line fit,
    Permutation (concat (map group_bubbles groups))
      (map bubble_of (List.filter has_colour (List.filter scatter_keep [area_A; area_B])))
    /\ outputs (fst (create_scatter_plot raising_release [area_A; area_B] "chart.png"
                       empty_world))
         !! "chart.png" = Some (ScatterPlot groups y_line fit).
Proof.
  set (fit := ols [10; 50]%Q [20; 3]%Q).
  assert (Hrun : create_scatter_plot raising_release [area_A; area_B] "chart.png"
                   empty_world =
                 ({| frames := ∅;
                     outputs := <["chart.png" :=
                                    ScatterPlot
                                      (map (class_group (List.filter scatter_keep
                                                           [area_A; area_B]))
                                           scatter_colors)
                                      (y_line_of fit) fit]> ∅;
                     console := ["  Creating: chart.png";
                                 "    ✓ Saved: outputs/chart.png"] |}, inr tt)).
  { rewrite create_scatter_plot_run. cbv zeta.
    change (fit_x (List.filter scatter_keep [area_A; area_B])) with [10; 50]%Q.
    change (fit_y (List.filter scatter_keep [area_A; area_B])) with [20; 3]%Q.
    unfold linregress. rewrite undefined_fit_A_B. reflexivity. }
  exists (map (class_group (List.filter scatter_keep [area_A; area_B])) scatter_colors),
         (y_line_of fit), fit.
  split.
  - apply (scatter_bubbles_once raising_release [area_A; area_B] "chart.png" empty_world
             _ (y_line_of fit) fit).
    + rewrite Hrun. reflexivity.
    + rewrite Hrun. cbn [fst outputs]. apply lookup_insert_eq.
  - rewrite Hrun. cbn [fst outputs]. apply lookup_insert_eq.
Defined.

(** ** Cells of the table image *)

(** The table image shows the rows of the table it is given in their own
    order, one rendered row per row: under every display label stands the
    source column, a number with the format of its column (thousands
    separators and no decimals, two decimals, or one decimal and a percent
    sign), a missing number as [nan], and the class as it is. *)
Theorem table_image_cells
    (summary_df : nat) (filename : string) (w w' : World) (df : DataFrame) :
  frames w !! summary_df = Some df ->
  create_summary_table_image summary_df filename w = (w', inr tt) ->
  exists colLabels cellText,
    outputs w' !! filename = Some (TableImage colLabels cellText) /\
    forall c cells,
      In c (map fst display_cols) ->
      df_getitem df c = inr cells ->
      df_getitem {| columns := colLabels; values := cellText |} (display_label c)
      = inr (map (display_cell c) cells).
Proof.
  intros Hdf. rewrite (create_summary_table_image_cases _ _ _ _ Hdf).
  unfold table_image_of.
  destruct (summary_table df) as [e|t] eqn:Ht; [discriminate|].
  destruct (ax_table _ _) as [e|[]]; [discriminate|].
  intros [= <-]. exists (columns t), (values t). cbn [outputs].
  split; [apply lookup_insert_eq|].
  intros c cells Hc Hcells.
  replace {| columns := columns t; values := values t |} with t
    by (destruct t; reflexivity).
  exact (proj1 (summary_table_columns _ _ _ _ Ht Hc Hcells)).
Qed.

Lemma table_image_cells_witness :
  exists w' colLabels cellText,
    create_summary_table_image 0 "table_summary.png" (world_of summary_three)
      = (w', inr tt) /\
    outputs w' !! "table_summary.png" = Some (TableImage colLabels cellText) /\
    forall c cells,
      In c (map fst display_cols) ->
      df_getitem summary_three c = inr cells ->
      df_getitem {| columns := colLabels; values := cellText |} (display_label c)
      = inr (map (display_cell c) cells).
Proof.
  set (run := create_summary_table_image 0 "table_summary.png" (world_of summary_three)).
  assert (Hrun : run = (fst run, inr tt)) by (vm_compute; reflexivity).
  exists (fst run).
  destruct (table_image_cells 0 "table_summary.png" (world_of summary_three) (fst run)
              summary_three eq_refl Hrun) as (colLabels & cellText & H1 & H2).
  exists colLabels, cellText. split; [exact Hrun|]. split; [exact H1|exact H2].
Defined.

(** The population of the first class of the sample table, 412000, is shown
    with a thousands separator, its share of single-family housing, 78.1,
    with a percent sign. *)
Example table_image_of_sample :
  summary_table summary_three =
  inr {| columns := ["Classification"; "Population"; "Total Incidents";
                     "Rate per 1,000 Pop"; "% Single-Family"];
         values := [[Str "outer_suburban"; Str "412,000"; Str "1,277"; Str "3.10";
                     Str "78.1%"];
                    [Str "urban_core"; Str "98,000"; Str "510"; Str "5.20"; Str "12.0%"];
                    [Str "inner_suburban"; Str "305,500"; Str "1,222"; Str "4.00";
                     Str "45.2%"]] |}.
Proof. vm_compute. reflexivity. Qed.

(** A text in one of the four numeric columns makes the table image raise
    the ValueError of the number format; the image is not written. *)
Theorem table_image_rejects_text
    (summary_df : nat) (filename : string) (w : World) (df : DataFrame)
    (c : string) (cells : Series) (x : cell) :
  frames w !! summary_df = Some df ->
  In c formatted_columns ->
  df_getitem df c = inr cells ->
  In x cells -> ~ formattable x ->
  create_summary_table_image summary_df filename w =
  ({| frames := frames w; outputs := outputs w;
      console := console w ++ ["  Creating: " +:+ filename] |},
   inl format_error).
Proof.
  intros Hdf Hc Hcells Hx Hnot.
  rewrite (create_summary_table_image_cases _ _ _ _ Hdf). unfold table_image_of.
  destruct (summary_table df) as [e|t] eqn:Ht.
  - rewrite (summary_table_error _ _ Ht). reflexivity.
  - exfalso. apply Hnot.
    assert (Hkey : In c (map fst display_cols)).
    { unfold formatted_columns in Hc. simpl in Hc |- *. tauto. }
    destruct (summary_table_columns _ _ _ _ Ht Hkey Hcells) as [_ Hall].
    specialize (Hall Hc). rewrite List.Forall_forall in Hall. exact (Hall x Hx).
Qed.

Lemma table_image_rejects_text_witness :
  create_summary_table_image 0 "table_summary.png" (world_of summary_with_text) =
  ({| frames := {[ 0%nat := summary_with_text ]}; outputs := ∅;
      console := ["  Creating: table_summary.png"] |},
   inl format_error).
Proof.
  refine (table_image_rejects_text 0 "table_summary.png" (world_of summary_with_text)
            summary_with_text "population" [Num 98000; Str "n/a"] (Str "n/a") _ _ _ _ _).
  - reflexivity.
  - left. reflexivity.
  - reflexivity.
  - right. left. reflexivity.
  - intros H. exact H.
Defined.

(** ** The two panels of the bar chart *)

Lemma mapE_Forall2 {A B} (f : A -> exn + B) (l : list A) (l' : list B) :
  mapE f l = inr l' -> Forall2 (fun a b => f a = inr b) l l'.
Proof.
  revert l'. induction l as [|a l IH]; simpl; intros l'.
  - intros [= <-]. constructor.
  - destruct (f a) as [e|b] eqn:Ha; [discriminate|].
    destruct (mapE f l) as [e|bs]; [discriminate|].
    intros [= <-]. constructor; [exact Ha|apply IH; reflexivity].
Qed.

Lemma sort_values_length lib df c sorted :
  sorting lib ->
  sort_values lib df c = inr sorted -> length (values sorted) = length (values df).
Proof.
  intros Hsort. unfold sort_values.
  destruct (index_of c (columns df)) as [i|]; [|discriminate].
  intros [= <-]. cbn [values]. apply Permutation_length.
  apply (Hsort (row_le i)); [apply row_le_total|apply row_le_trans].
Qed.

Lemma df_getitem_length df c s :
  df_getitem df c = inr s -> length s = length (values df).
Proof.
  unfold df_getitem. destruct (index_of c (columns df)); [|discriminate].
  intros [= <-]. apply length_map.
Qed.

(** When the bar chart is drawn, both panels have one bar per row of the
    summary table under the same x labels, and the text above a bar is the
    height of that bar, with two decimals in the left panel and with no
    decimals and a percent sign in the right one. *)
Theorem bar_chart_panels
    (lib : Libraries) (summary_df : nat) (filename : string) (w w' : World)
    (df : DataFrame) :
  sorting lib ->
  frames w !! summary_df = Some df ->
  create_bar_chart lib summary_df filename w = (w', inr tt) ->
  exists x_labels rate rate_text housing housing_text,
    outputs w' !! filename =
      Some (BarChart x_labels rate rate_text housing housing_text bar_colors) /\
    length x_labels = length (values df) /\
    length rate = length (values df) /\
    length housing = length (values df) /\
    Forall2 (fun height text => format_f false 2 height = inr text) rate rate_text /\
    Forall2 (fun height text => percent (format_f false 0 height) = inr text)
      housing housing_text.
Proof.
  intros Hsorting Hdf. rewrite (create_bar_chart_run _ _ _ _ _ Hdf).
  destruct (categorized df) as [e|df1] eqn:Hcat; [discriminate|].
  destruct (bar_chart_of lib df1) as [e|chart] eqn:Hchart; [discriminate|].
  intros [= <-]. cbn [outputs]. rewrite lookup_insert_eq.
  revert Hchart. unfold bar_chart_of.
  destruct (sort_values lib df1 "urban_class") as [e|sorted] eqn:Hsort; [discriminate|].
  destruct (df_getitem sorted "urban_class") as [e|classes] eqn:Hc; [discriminate|].
  destruct (df_getitem sorted "incidents_per_1000_pop") as [e|rate] eqn:Hr; [discriminate|].
  destruct (ax_bar _) as [e|[]]; [discriminate|].
  destruct (mapE (format_f false 2) rate) as [e|rate_text] eqn:Hrt; [discriminate|].
  destruct (df_getitem sorted "pct_single_family") as [e|housing] eqn:Hh; [discriminate|].
  destruct (mapE _ housing) as [e|housing_text] eqn:Hht; [discriminate|].
  intros [= <-].
  pose proof (categorized_length _ _ Hcat) as L1.
  pose proof (sort_values_length _ _ _ _ Hsorting Hsort) as L2.
  exists (map x_label classes), rate, rate_text, housing, housing_text.
  split; [reflexivity|].
  rewrite length_map, (df_getitem_length _ _ _ Hc), (df_getitem_length _ _ _ Hr),
    (df_getitem_length _ _ _ Hh), L2, L1.
  repeat split; try reflexivity.
  - exact (mapE_Forall2 _ _ _ Hrt).
  - exact (mapE_Forall2 _ _ _ Hht).
Qed.

Lemma bar_chart_panels_witness :
  exists w' x_labels rate rate_text housing housing_text,
    create_bar_chart raising_release 0 "chart_urban_comparison.png"
      (world_of summary_three) = (w', inr tt) /\
    outputs w' !! "chart_urban_comparison.png" =
      Some (BarChart x_labels rate rate_text housing housing_text bar_colors) /\
    length x_labels = 3%nat /\ length rate = 3%nat /\ length housing = 3%nat /\
    Forall2 (fun height text => format_f false 2 height = inr text) rate rate_text /\
    Forall2 (fun height text => percent (format_f false 0 height) = inr text)
      housing housing_text.
Proof.
  set (run := create_bar_chart raising_release 0 "chart_urban_comparison.png"
                (world_of summary_three)).
  assert (Hrun : run = (fst run, inr tt)) by (vm_compute; reflexivity).
  exists (fst run).
  destruct (bar_chart_panels raising_release 0 "chart_urban_comparison.png"
              (world_of summary_three) (fst run) summary_three
              raising_release_sorting eq_refl Hrun)
    as (x_labels & rate & rate_text & housing & housing_text & H).
  exists x_labels, rate, rate_text, housing, housing_text.
  split; [exact Hrun|exact H].
Defined.

(** ** Tables without rows *)

(** With folium, a ResponseArea table without rows ends the run at the
    first map: the map cannot be centred, [main] raises [ValueError], and no
    map and no chart is written. *)
Theorem main_without_rows_aborts
    (lib : Libraries) (summary_urban summary_housing : DataFrame) (w : World) :
  let run := main lib true [] summary_urban summary_housing w in
  snd run = inl (ValueError "Location values cannot contain NaNs.") /\
  outputs (fst run) = outputs w.
Proof.
  intros run. subst run.
  destruct (main_without_rows lib summary_urban summary_housing w)
    as (w' & -> & _ & Ho & _).
  split; [reflexivity|exact Ho].
Qed.

(** A summary table without rows makes the table image raise [IndexError],
    and a summary table with rows but with none of the five display columns
    makes it raise [ZeroDivisionError]; in both cases no image is written. *)
Theorem table_image_needs_a_cell
    (summary_df : nat) (filename : string) (w : World) (df : DataFrame) :
  frames w !! summary_df = Some df ->
  (values df = [] ->
   create_summary_table_image summary_df filename w =
   ({| frames := frames w; outputs := outputs w;
       console := console w ++ ["  Creating: " +:+ filename] |},
    inl IndexError)) /\
  (values df <> [] -> present_columns df = [] ->
   create_summary_table_image summary_df filename w =
   ({| frames := frames w; outputs := outputs w;
       console := console w ++ ["  Creating: " +:+ filename] |},
    inl ZeroDivisionError)).
Proof.
  intros Hdf. rewrite (create_summary_table_image_cases _ _ _ _ Hdf). split.
  - intros Hrows.
    assert (Hnum : forall c, numeric_column df c).
    { intros c s Hs. pose proof (df_getitem_length _ _ _ Hs) as Hlen.
      rewrite Hrows in Hlen. destruct s; [constructor|discriminate]. }
    destruct (summary_table_ok df (Hnum _) (Hnum _) (Hnum _) (Hnum _)) as (t & Ht & _).
    destruct (summary_table_shape _ _ Ht) as (_ & _ & Hlen).
    unfold table_image_of. rewrite Ht. rewrite Hrows in Hlen.
    destruct (values t); [|discriminate]. reflexivity.
  - intros Hrows Hcols.
    assert (Hnum : forall c, In c formatted_columns -> numeric_column df c).
    { intros c Hc s Hs. exfalso.
      assert (Hin : In c (present_columns df)).
      { apply present_columns_spec. split.
        - unfold formatted_columns in Hc. simpl in Hc |- *. tauto.
        - unfold has_column. unfold df_getitem in Hs.
          destruct (index_of c (columns df)); [reflexivity|discriminate]. }
      rewrite Hcols in Hin. destruct Hin. }
    destruct (summary_table_ok df) as (t & Ht & _);
      try (apply Hnum; unfold formatted_columns; simpl; tauto).
    destruct (summary_table_shape _ _ Ht) as (Hc & Hrect & Hlen).
    unfold table_image_of, ax_table. rewrite Ht.
    destruct (values t) as [|row rows] eqn:Hv.
    + destruct (values df); [congruence|discriminate].
    + unfold rectangular in Hrect. rewrite Hv in Hrect.
      inversion Hrect as [|? ? Hrow _]. rewrite Hrow, Hc, Hcols.
      reflexivity.
Qed.

Lemma table_image_needs_a_cell_witness :
  (values {| columns := ["urban_class"]; values := [] |} = [] ->
   create_summary_table_image 0 "table_summary.png"
     (world_of {| columns := ["urban_class"]; values := [] |}) =
   ({| frames := {[ 0%nat := {| columns := ["urban_class"]; values := [] |} ]};
       outputs := ∅;
       console := ["  Creating: table_summary.png"] |},
    inl IndexError)) /\
  (values {| columns := ["urban_class"]; values := [] |} <> [] ->
   present_columns {| columns := ["urban_class"]; values := [] |} = [] ->
   create_summary_table_image 0 "table_summary.png"
     (world_of {| columns := ["urban_class"]; values := [] |}) =
   ({| frames := {[ 0%nat := {| columns := ["urban_class"]; values := [] |} ]};
       outputs := ∅;
       console := ["  Creating: table_summary.png"] |},
    inl ZeroDivisionError)).
Proof.
  refine (table_image_needs_a_cell 0 "table_summary.png"
            (world_of {| columns := ["urban_class"]; values := [] |})
            {| columns := ["urban_class"]; values := [] |} _).
  reflexivity.
Defined.

(** A table with a row and a column of another name only: the table image
    has a row without cells. *)
Example table_image_without_columns :
  create_summary_table_image 0 "table_summary.png"
    (world_of {| columns := ["housing_type"]; values := [[Str "single"]] |}) =
  ({| frames := {[ 0%nat := {| columns := ["housing_type"]; values := [[Str "single"]] |} ]};
      outputs := ∅;
      console := ["  Creating: table_summary.png"] |},
   inl ZeroDivisionError).
Proof. reflexivity. Qed.


